(** * EVI-Pro-Lite example scripts: dispatch, credential rotation and
      small-fleet correction

    A shallow embedding of the Python scripts

    - [example_ny_ev_proj_mp.py]  (module [MultiKey]),
    - [example_ny_ev_proj.py]     (module [SingleKey]),
    - [ny_ev_proj.py]             (module [NyEvProj]),
    - [NYS_population_download.py] (module [Download]),

    followed by the properties of the fan-out / fan-in layer around the
    external charging model [temp_run] and of the download of the
    population tables.

    Conventions of the embedding.

    - Python [str] is [string]; its characters are the code points below
      256.  [len] is [String.length].
    - Python [float] and [numpy.float64] are the binary64 numbers [float] of
      the kernel, with the IEEE operations of the processor.  An [int] cell
      of a table is held as the double of the same value, which is exact
      below 2^53 (vehicle counts, weekdays, row labels).
    - A [pandas.DataFrame] is a [frame]: an index and an ordered list of
      named columns.  DataFrames are Python objects with identity: they live
      in a heap ([gmap loc frame]) and functions receive locations.
    - A Python exception is a value of [exn]; a statement sequence is a
      computation in the monad [M], which threads the interpreter state
      (heap, standard input, trace of observable effects) and stops at the
      first exception, keeping the state reached so far.
    - The external collaborators [temp_run] and [loadPlotting] are not part
      of the repository: [temp_run] is a section variable, [loadPlotting]
      is recorded in the trace. *)

From stdpp Require Import gmap strings list numbers pretty.
From Stdlib Require Import Ascii Floats.

Local Open Scope string_scope.
Local Open Scope list_scope.
Local Open Scope Z_scope.

(* ===================================================================== *)
(** * Python strings *)
(* ===================================================================== *)

Module PyStr.

(** [str.isspace] on one character, for the code points below 256:
    TAB, LF, VT, FF, CR, the separators FS GS RS US, SPACE, NEL and
    NO-BREAK SPACE. *)
Definition isspace (c : ascii) : bool :=
  let n := Ascii.N_of_ascii c in
  ((9 <=? n) && (n <=? 13) || (28 <=? n) && (n <=? 32)
   || (n =? 133) || (n =? 160))%N.

(** [s.lstrip()] *)
Fixpoint lstrip (s : string) : string :=
  match s with
  | EmptyString => EmptyString
  | String c s' => if isspace c then lstrip s' else s
  end.

(** [s.rstrip()] *)
Fixpoint rstrip (s : string) : string :=
  match s with
  | EmptyString => EmptyString
  | String c s' =>
      match rstrip s' with
      | EmptyString => if isspace c then EmptyString else String c EmptyString
      | r => String c r
      end
  end.

(** [s.strip()] *)
Definition strip (s : string) : string := rstrip (lstrip s).

(** [len(s)] *)
Definition len (s : string) : nat := String.length s.

(** Truth value of a string in a condition: non-empty. *)
Definition truthy (s : string) : bool :=
  match s with EmptyString => false | _ => true end.

Definition newline : ascii := Ascii.ascii_of_N 10.

(** [for line in f]: the text of the file cut after every line feed; each
    line keeps its terminator, the last one may lack it.  The text of a
    file is the text as Python hands it out, with every line end already
    translated to a line feed; [f.read()] is the whole text. *)
Fixpoint lines (s : string) : list string :=
  match s with
  | EmptyString => []
  | String c s' =>
      if Ascii.eqb c newline then String c EmptyString :: lines s'
      else match lines s' with
           | [] => [String c EmptyString]
           | l :: ls => String c l :: ls
           end
  end.

(** [s.replace(a, b)] for one-character [a] and [b]. *)
Fixpoint replace (a b : ascii) (s : string) : string :=
  match s with
  | EmptyString => EmptyString
  | String c s' => String (if Ascii.eqb c a then b else c) (replace a b s')
  end.

(** ["c" * n] *)
Fixpoint repeat (c : ascii) (n : nat) : string :=
  match n with
  | O => EmptyString
  | S n' => String c (repeat c n')
  end.

(** [s.split(sep)] for a one-character [sep]: the fields between the
    separators, at least one. *)
Fixpoint split (sep : ascii) (s : string) : list string :=
  match s with
  | EmptyString => [EmptyString]
  | String c s' =>
      if Ascii.eqb c sep then EmptyString :: split sep s'
      else match split sep s' with
           | [] => [String c EmptyString]
           | f :: fs => String c f :: fs
           end
  end.

End PyStr.

(* ===================================================================== *)
(** * Dates: [datetime.date] of the Python standard library *)
(* ===================================================================== *)

Module PyDate.

Record date := Date { year : Z; month : Z; day : Z }.

(** [pandas.Timestamp]: a calendar date and the nanoseconds since
    midnight. *)
Record timestamp := Timestamp { ts_date : date; ts_nanos : Z }.

Definition is_leap (y : Z) : bool :=
  (y mod 4 =? 0) && (negb (y mod 100 =? 0) || (y mod 400 =? 0)).

Definition days_in_month (y m : Z) : Z :=
  if m =? 2 then (if is_leap y then 29 else 28)
  else if (m =? 4) || (m =? 6) || (m =? 9) || (m =? 11) then 30
  else 31.

(** Days before January 1st of year [y]. *)
Definition days_before_year (y : Z) : Z :=
  let y' := y - 1 in y' * 365 + y' / 4 - y' / 100 + y' / 400.

(** The table [_DAYS_BEFORE_MONTH] of the reference implementation. *)
Definition DAYS_BEFORE_MONTH (m : Z) : Z :=
  match m with
  | 1 => 0 | 2 => 31 | 3 => 59 | 4 => 90 | 5 => 120 | 6 => 151
  | 7 => 181 | 8 => 212 | 9 => 243 | 10 => 273 | 11 => 304 | 12 => 334
  | _ => 0
  end.

Definition days_before_month (y m : Z) : Z :=
  DAYS_BEFORE_MONTH m + (if (2 <? m) && is_leap y then 1 else 0).

(** [d.toordinal()]: 1 for 0001-01-01. *)
Definition toordinal (d : date) : Z :=
  days_before_year (year d) + days_before_month (year d) (month d) + day d.

(** [d.weekday()]: 0 for Monday up to 6 for Sunday. *)
Definition weekday (d : date) : Z := (toordinal d + 6) mod 7.

(** The dates [datetime.date] can hold. *)
Definition valid (d : date) : Prop :=
  1 <= year d <= 9999 /\ 1 <= month d <= 12 /\
  1 <= day d <= days_in_month (year d) (month d).

(** The calendar day after [d]. *)
Definition tomorrow (d : date) : date :=
  if day d <? days_in_month (year d) (month d)
  then Date (year d) (month d) (day d + 1)
  else if month d <? 12 then Date (year d) (month d + 1) 1
  else Date (year d + 1) 1 1.

Inductive day_name := Monday | Tuesday | Wednesday | Thursday | Friday
                    | Saturday | Sunday.

(** Reading of the indicator: "Saturday and Sunday are 5 and 6, Monday
    is 0". *)
Definition name_of (k : Z) : option day_name :=
  match k with
  | 0 => Some Monday | 1 => Some Tuesday | 2 => Some Wednesday
  | 3 => Some Thursday | 4 => Some Friday | 5 => Some Saturday
  | 6 => Some Sunday | _ => None
  end.

Definition next_name (n : day_name) : day_name :=
  match n with
  | Monday => Tuesday | Tuesday => Wednesday | Wednesday => Thursday
  | Thursday => Friday | Friday => Saturday | Saturday => Sunday
  | Sunday => Monday
  end.

Definition is_weekend (n : day_name) : bool :=
  match n with Saturday | Sunday => true | _ => false end.

(** "<5 is weekday" *)
Definition is_weekday (k : Z) : bool := k <? 5.

End PyDate.

(* ===================================================================== *)
(** * Numbers: [float] and [numpy.float64] *)
(* ===================================================================== *)

Module Float64.

(** The double nearest to an integer, ties to even: [float(z)].  It is
    the integer itself below 2^53. *)
Definition of_Z (z : Z) : float :=
  SF2Prim (binary_normalize prec emax z 0 false).

(** [x < y] and [x <= y] as propositions; both fail on NaN. *)
Definition lt (x y : float) : Prop := (x <? y)%float = true.
Definition le (x y : float) : Prop := (x <=? y)%float = true.

#[global] Instance lt_dec x y : Decision (lt x y).
Proof. unfold lt. apply _. Defined.
#[global] Instance le_dec x y : Decision (le x y).
Proof. unfold le. apply _. Defined.

(** Two doubles are the same object of the model when they have the same
    bits (up to the payload of NaN). *)
#[global] Instance float_eq_dec : EqDecision float.
Proof.
  intros x y. destruct (Leibniz.eqb x y) eqn:E.
  - left. by apply Leibniz.eqb_spec.
  - right. intros H. apply Leibniz.eqb_spec in H. congruence.
Defined.

End Float64.

Notation "x < y" := (Float64.lt x y) : float_scope.
Notation "x <= y" := (Float64.le x y) : float_scope.

(* ===================================================================== *)
(** * Tables: [pandas.DataFrame] *)
(* ===================================================================== *)

Module Pandas.
Import PyDate.
Local Open Scope float_scope.

(** One cell of a table. *)
Inductive value :=
| VNum (x : float)         (* float, or int held as a double *)
| VStr (s : string)
| VStamp (t : timestamp)   (* pandas.Timestamp *)
| VDate (d : date).        (* datetime.date *)

Abbreviation column := (list value).

#[global] Instance date_eq_dec : EqDecision date.
Proof. solve_decision. Defined.
#[global] Instance timestamp_eq_dec : EqDecision timestamp.
Proof. solve_decision. Defined.
#[global] Instance value_eq_dec : EqDecision value.
Proof. solve_decision. Defined.

Record frame := Frame {
  index : list value;                 (* row labels *)
  columns : list (string * column)    (* in column order *)
}.

#[global] Instance frame_eq_dec : EqDecision frame.
Proof. solve_decision. Defined.

(** One row as [iterrows] hands it out: a copy of the cells, by column
    name.  The tables iterated by the scripts mix strings and numbers, for
    which pandas builds a fresh object row, so a later write to the table
    does not show in a row obtained before. *)
Abbreviation row := (list (string * value)).

(** [len(df)] *)
Definition len (f : frame) : nat := length (index f).

Fixpoint lookup_column (name : string) (cols : list (string * column))
  : option column :=
  match cols with
  | [] => None
  | (n, vs) :: cols' =>
      if String.eqb n name then Some vs else lookup_column name cols'
  end.

(** [df[name]]; [None] is [KeyError]. *)
Definition getitem (name : string) (f : frame) : option column :=
  lookup_column name (columns f).

Fixpoint store_column (name : string) (vs : column)
  (cols : list (string * column)) : list (string * column) :=
  match cols with
  | [] => [(name, vs)]
  | (n, old) :: cols' =>
      if String.eqb n name then (n, vs) :: cols'
      else (n, old) :: store_column name vs cols'
  end.

(** [df[name] = vs]: overwrites the column in its place, or appends it. *)
Definition setitem (name : string) (vs : column) (f : frame) : frame :=
  Frame (index f) (store_column name vs (columns f)).

Fixpoint remove_column (name : string) (cols : list (string * column))
  : option (list (string * column)) :=
  match cols with
  | [] => None
  | (n, vs) :: cols' =>
      if String.eqb n name then Some cols'
      else cons (n, vs) <$> remove_column name cols'
  end.

(** [df.drop(name, axis=1, inplace=True)]; [None] is [KeyError].  The
    column names of a table are taken to be distinct, as they are in the
    tables that the scripts build: the column of that name is removed. *)
Definition drop (name : string) (f : frame) : option frame :=
  Frame (index f) <$> remove_column name (columns f).

(** [df.loc[k, name] = v] for a row [k] and a column [name] of the
    table (the scripts write only cells they have just read). *)
Definition set_cell (k : nat) (name : string) (v : value) (f : frame)
  : frame :=
  match getitem name f with
  | Some vs => setitem name (<[k:=v]> vs) f
  | None => f
  end.

Definition row_at (k : nat) (f : frame) : row :=
  omap (fun '(n, vs) => pair n <$> vs !! k) (columns f).

(** The index that [pd.DataFrame(dict)] and [reset_index] give a table of
    [n] rows: the labels 0, ..., n-1. *)
Definition default_index (n : nat) : list value :=
  (fun k => VNum (Float64.of_Z (Z.of_nat k))) <$> seq 0 n.

(** [df.iterrows()] for a table with the default index, where the label
    of a row is its position; it is a [nat] here.  Every table that the
    scripts iterate has this index ([scenario_csv] is built by
    [pd.DataFrame(dict)]); the label of a row of another index is outside
    the model, and what is stated below about a loop over the rows of a
    table requires [index f = default_index (len f)]. *)
Definition iterrows (f : frame) : list (nat * row) :=
  (fun k => (k, row_at k f)) <$> seq 0 (len f).

(** [row[name]]; [None] is [KeyError]. *)
Fixpoint row_getitem (name : string) (r : row) : option value :=
  match r with
  | [] => None
  | (n, v) :: r' => if String.eqb n name then Some v else row_getitem name r'
  end.

(** [v < q] for a number [q], in doubles; [None] is [TypeError]. *)
Definition lt_num (v : value) (q : float) : option bool :=
  match v with
  | VNum x => Some (x <? q)
  | _ => None
  end.

(** [v / q], the division of doubles; [None] is [TypeError]. *)
Definition div_num (v : value) (q : float) : option float :=
  match v with
  | VNum x => Some (x / q)
  | _ => None
  end.

(** [v * q], the product of doubles; [None] is [TypeError]. *)
Definition mul_num (q : float) (v : value) : option value :=
  match v with
  | VNum x => Some (VNum (x * q))
  | _ => None
  end.

(** [df[names]]: the sub-table of the listed columns, in the order of the
    list; [None] is [KeyError]. *)
Definition select (names : list string) (f : frame) : option frame :=
  Frame (index f) <$> mapM (fun n => pair n <$> getitem n f) names.

(** [df * q]; [None] is [TypeError]. *)
Definition mul_scalar (q : float) (f : frame) : option frame :=
  Frame (index f)
    <$> mapM (fun '(n, vs) => pair n <$> mapM (mul_num q) vs) (columns f).

(** [df[names] = rhs] for a table [rhs] with one column per name, taken
    by position. *)
Definition setitems (names : list string) (rhs : frame) (f : frame)
  : frame :=
  foldl (fun acc '(n, (_, vs)) => setitem n vs acc) f
        (zip names (columns rhs)).

(** [pd.to_datetime(v)] on one cell.  Cells that already hold a time are
    kept; parsing of text is outside the model ([None]). *)
Definition to_datetime (v : value) : option timestamp :=
  match v with
  | VStamp t => Some t
  | VDate d => Some (Timestamp d 0)
  | _ => None
  end.

(** [series.dt.date] on one cell of a datetime column; [None] is
    [AttributeError]. *)
Definition dt_date (v : value) : option value :=
  match v with
  | VStamp t => Some (VDate (ts_date t))
  | _ => None
  end.

(** [x.weekday()] on one cell; [None] is [AttributeError]. *)
Definition cell_weekday (v : value) : option value :=
  match v with
  | VDate d => Some (VNum (Float64.of_Z (weekday d)))
  | VStamp t => Some (VNum (Float64.of_Z (weekday (ts_date t))))
  | _ => None
  end.

End Pandas.

(* ===================================================================== *)
(** * The interpreter state and its monad *)
(* ===================================================================== *)

Module Interp.
Import Pandas.

Inductive exn :=
| KeyError | TypeError | IndexError | AttributeError
| ZeroDivisionError | EOFError | SystemExit
| InvalidReference.   (* a location without object: no Python program
                         reaches it *)

Inductive level := DEBUG | INFO | WARNING | CRITICAL.

(** A formatted message: text with the interpolated cells left as they
    are. *)
Inductive piece := Txt (s : string) | Cell (v : value) | Num (x : float).

Abbreviation loc := nat.

(** The call [county_run(temp_csv, scenario_csv, api_key, county)] handed
    to the executor. *)
Record task := Task {
  t_temp_csv : loc;
  t_scenario_csv : loc;
  t_api_key : string;
  t_county : option string
}.

Abbreviation model_result := (gmap nat frame).

(** Observable effects, in the order they happen. *)
Inductive event :=
| Log (lv : level) (msg : list piece)       (* logging.<level>(msg) *)
| Print (msg : string)                      (* print(msg) *)
| Prompt (msg : string)                     (* input(msg) *)
| MakeDirs (path : string)                  (* os.makedirs(path) *)
| Submit (t : task)                         (* executor.submit(...) *)
| Run (scenario_path temp_path api_key : string)
                                            (* EVIProLite_LoadPlotting.run *)
| LoadPlotting (final_result : model_result) (scenario : nat)
               (fig_name : string)          (* loadPlotting(...) *)
| ToCsv (table : frame) (filename : string). (* table.to_csv(filename) *)

Record state := State {
  heap : gmap loc frame;      (* the DataFrame objects *)
  stdin : list string;        (* the lines still to be typed *)
  trace : list event          (* effects so far, oldest first *)
}.

Inductive outcome (A : Type) :=
| Ok (a : A)
| Raise (e : exn).
Arguments Ok {A} a.
Arguments Raise {A} e.

#[global] Instance exn_eq_dec : EqDecision exn.
Proof. solve_decision. Defined.
#[global] Instance level_eq_dec : EqDecision level.
Proof. solve_decision. Defined.
#[global] Instance piece_eq_dec : EqDecision piece.
Proof. solve_decision. Defined.
#[global] Instance task_eq_dec : EqDecision task.
Proof. solve_decision. Defined.
#[global] Instance event_eq_dec : EqDecision event.
Proof. solve_decision. Defined.
#[global] Instance state_eq_dec : EqDecision state.
Proof. solve_decision. Defined.
#[global] Instance outcome_eq_dec `{EqDecision A} : EqDecision (outcome A).
Proof. solve_decision. Defined.

Definition M (A : Type) : Type := state -> outcome A * state.

Definition ret {A} (a : A) : M A := fun s => (Ok a, s).

Definition bind {A B} (m : M A) (k : A -> M B) : M B :=
  fun s => match m s with
           | (Ok a, s') => k a s'
           | (Raise e, s') => (Raise e, s')
           end.

Definition raise {A} (e : exn) : M A := fun s => (Raise e, s).

(** An operation that fails with [e] when the option is empty. *)
Definition try {A} (e : exn) (o : option A) : M A :=
  match o with
  | Some a => ret a
  | None => raise e
  end.

Definition emit (ev : event) : M unit :=
  fun s => (Ok tt, State (heap s) (stdin s) (trace s ++ [ev])).

(** Reading the object behind a reference. *)
Definition deref (l : loc) : M frame :=
  fun s => match heap s !! l with
           | Some f => (Ok f, s)
           | None => (Raise InvalidReference, s)
           end.

(** In-place change of the object behind a reference. *)
Definition mutate (l : loc) (g : frame -> frame) : M unit :=
  fun s => match heap s !! l with
           | Some f => (Ok tt, State (<[l := g f]> (heap s)) (stdin s) (trace s))
           | None => (Raise InvalidReference, s)
           end.

(** [input(msg)] *)
Definition input (msg : string) : M string :=
  fun s => match stdin s with
           | line :: rest =>
               (Ok line, State (heap s) rest (trace s ++ [Prompt msg]))
           | [] => (Raise EOFError,
                    State (heap s) [] (trace s ++ [Prompt msg]))
           end.

Definition info (msg : list piece) : M unit := emit (Log INFO msg).
Definition warning (msg : list piece) : M unit := emit (Log WARNING msg).
Definition critical (msg : list piece) : M unit := emit (Log CRITICAL msg).
Definition debug (msg : list piece) : M unit := emit (Log DEBUG msg).

(** [sys.exit()] *)
Definition sys_exit {A} : M A := raise SystemExit.

End Interp.

Declare Scope py_scope.
Delimit Scope py_scope with py.
Notation "x <- m ;; k" := (Interp.bind m (fun x => k))
  (at level 100, m at next level, right associativity) : py_scope.
Notation "m ;;; k" := (Interp.bind m (fun _ => k))
  (at level 100, right associativity) : py_scope.

(* ===================================================================== *)
(** * Helpers shared by the scripts *)
(* ===================================================================== *)

Module Script.
Import PyStr Pandas Interp.
Local Open Scope py_scope.

(** [os.path.join(a, b)] on a POSIX system. *)
Definition path_join (a b : string) : string :=
  match b with
  | String "/" _ => b
  | _ =>
      match String.rev a with
      | EmptyString => b
      | String "/" _ => a +:+ b
      | _ => a +:+ "/" +:+ b
      end
  end.

(** [str(n)] and the [{n}] of an f-string, for a natural number. *)
Definition str (n : nat) : string := pretty n.

(** [a[k]] for a numpy array or a list; out of range is [IndexError]. *)
Definition array_get {A} (k : nat) (a : list A) : M A :=
  try IndexError (a !! k).

(** [a[k] = v] for a numpy array. *)
Definition array_set {A} (k : nat) (v : A) (a : list A) : M (list A) :=
  if (k <? length a)%nat then ret (<[k := v]> a) else raise IndexError.

(** [i % n] *)
Definition pymod (i n : nat) : M nat :=
  if (n =? 0)%nat then raise ZeroDivisionError else ret (i mod n)%nat.

(** In-place replacement of the content of a table object. *)
Definition update (l : loc) (f : frame) : M unit := mutate l (fun _ => f).

(** The six charging-power columns of a result table. *)
Definition power_columns : list string :=
  ["home_l1"; "home_l2"; "work_l1"; "work_l2"; "public_l2"; "public_l3"].

(** The external model: [temp_run(scenario_csv, temp_csv, api_key,
    county)] reads both tables and returns one result table per scenario
    label. *)
Definition external_model : Type :=
  frame -> frame -> string -> option string -> model_result.

Record environment := Env {
  cwd : string;                   (* os.getcwd() *)
  input_dir_exists : bool;
  output_dir_exists : bool;
  fig_dir_exists : bool;
  api_key_file : option string    (* text of nrel_api_key.txt if it is a
                                     file *)
}.

(** What lines 137-207 assemble from the input tables: the counties and,
    for each, a temperature table and a scenario table. *)
Record workload := Workload {
  county_names : list string;
  temp_csv_list : list loc;
  scenario_csv_list : list loc
}.

(** The directory set-up common to both example scripts. *)
Definition setup_directories (env : environment)
  : M (string * string * string) :=
  let input_dir := path_join (cwd env) "InputData" in
  let output_dir := path_join (cwd env) "OutputData" in
  let fig_dir := path_join (cwd env) "Figures" in
  (if negb (input_dir_exists env)
   then critical [Txt ("Input directory does not exist: " +:+ input_dir)] ;;;
        sys_exit
   else ret tt) ;;;
  (if negb (output_dir_exists env)
   then emit (MakeDirs output_dir) ;;;
        info [Txt ("Created directory: " +:+ output_dir)]
   else ret tt) ;;;
  (if negb (fig_dir_exists env)
   then emit (MakeDirs fig_dir) ;;;
        info [Txt ("Created directory: " +:+ fig_dir)]
   else ret tt) ;;;
  info [Txt ("Input directory: " +:+ input_dir)] ;;;
  info [Txt ("Output directory: " +:+ output_dir)] ;;;
  info [Txt ("Figure directory: " +:+ fig_dir)] ;;;
  ret (input_dir, output_dir, fig_dir).

(** The tasks handed to the executor, as the trace records them. *)
Definition submitted (tr : list event) : list task :=
  omap (fun ev => match ev with Submit t => Some t | _ => None end) tr.

End Script.

(* ===================================================================== *)
(** * example_ny_ev_proj_mp.py *)
(* ===================================================================== *)

Module MultiKey.
Import PyStr Pandas Interp Script.
Local Open Scope py_scope.
Local Open Scope float_scope.

Definition floor_threshold : float := 30000.
Definition nominal_fleet : float := 10000.

Section CountyRun.
Variable temp_run : external_model.

(** Lines 47-52: the loop over the scenarios that replaces a small
    fleet size and records the ratio. *)
Fixpoint small_fleet_loop (county : string) (scenario_csv : loc)
  (rows : list (nat * row)) (scaling_factor : list float)
  : M (list float) :=
  match rows with
  | [] => ret scaling_factor
  | (scenario, row) :: rest =>
      fleet_size <- try KeyError (row_getitem "fleet_size" row) ;;
      small <- try TypeError (lt_num fleet_size floor_threshold) ;;
      if (small : bool) then
        mutate scenario_csv
               (set_cell scenario "fleet_size" (VNum nominal_fleet)) ;;;
        ratio <- try TypeError (div_num fleet_size nominal_fleet) ;;
        scaling_factor <- array_set scenario ratio scaling_factor ;;
        warning [Txt "Scenario "; Txt (str scenario);
                 Txt ": Fleet size of "; Txt county;
                 Txt " is too small: "; Cell fleet_size; Txt "."] ;;;
        sf <- array_get scenario scaling_factor ;;
        warning [Txt "Set fleet size to 10000 and scale the results by ";
                 Num sf; Txt "."] ;;;
        small_fleet_loop county scenario_csv rest scaling_factor
      else
        small_fleet_loop county scenario_csv rest scaling_factor
  end.

(** Lines 61-63: [table[cols] = table[cols] * sf] on one result
    table. *)
Definition scale_table (sf : float) (table : frame) : M frame :=
  sel <- try KeyError (select power_columns table) ;;
  rhs <- try TypeError (mul_scalar sf sel) ;;
  ret (setitems power_columns rhs table).

(** Lines 59-63: the loop that scales the results.  The result is a
    fresh dictionary whose tables are different objects; it is passed
    along as a value. *)
Fixpoint scale_loop (rows : list (nat * row))
  (scaling_factor : list float)
  (final_result : model_result) : M model_result :=
  match rows with
  | [] => ret final_result
  | (scenario, _) :: rest =>
      sf <- array_get scenario scaling_factor ;;
      if negb (sf =? 1) then
        table <- try KeyError (final_result !! scenario) ;;
        table <- scale_table sf table ;;
        scale_loop rest scaling_factor (<[scenario := table]> final_result)
      else
        scale_loop rest scaling_factor final_result
  end.

(** Lines 38-43: the temperature table is completed in place. *)
Definition handle_temperature (temp_csv : loc) : M unit :=
  t <- deref temp_csv ;;
  d <- try KeyError (getitem "date" t) ;;
  d <- try TypeError (mapM to_datetime d) ;;
  update temp_csv (setitem "date" ((fun x => VDate (PyDate.ts_date x)) <$> d) t) ;;;
  t <- deref temp_csv ;;
  d <- try KeyError (getitem "date" t) ;;
  w <- try AttributeError (mapM cell_weekday d) ;;
  update temp_csv (setitem "weekday" w t) ;;;
  t <- deref temp_csv ;;
  c <- try KeyError (getitem "temperature" t) ;;
  update temp_csv (setitem "temp_c" c t) ;;;
  t <- deref temp_csv ;;
  t <- try KeyError (drop "temperature" t) ;;
  update temp_csv t.

(** Lines 45-52. *)
Definition handle_small_fleet (scenario_csv : loc) (county : string)
  : M (list float) :=
  s <- deref scenario_csv ;;
  let scaling_factor := replicate (len s) (1 : float) in
  small_fleet_loop county scenario_csv (iterrows s) scaling_factor.

(** [county_run(temp_csv, scenario_csv, api_key, county)] *)
Definition county_run (temp_csv scenario_csv : loc)
  (api_key county : string) : M model_result :=
  (* Handle temperature data *)
  handle_temperature temp_csv ;;;
  (* Handle small fleet size *)
  scaling_factor <- handle_small_fleet scenario_csv county ;;
  (* Run the model *)
  debug [Txt ("Running with API key: " +:+ api_key)] ;;;
  s <- deref scenario_csv ;;
  t <- deref temp_csv ;;
  let final_result := temp_run s t api_key (Some county) in
  (* Scale the results *)
  s <- deref scenario_csv ;;
  scale_loop (iterrows s) scaling_factor final_result.

End CountyRun.

(** Lines 107-112: the loop over the lines of the key file. *)
Fixpoint read_keys (file_lines : list string) (api_key_list : list string)
  : M (list string) :=
  match file_lines with
  | [] => ret api_key_list
  | line :: rest =>
      if truthy (strip line) && (PyStr.len (strip line) =? 40)%nat
      then read_keys rest (api_key_list ++ [strip line])%list
      else warning [Txt ("Invalid API key: " +:+ strip line)] ;;;
           read_keys rest api_key_list
  end.

(** Lines 118-125 and 128-135: the key typed by the user. *)
Definition ask_api_key (api_key_list : list string)
  : M (list string * nat) :=
  api_key <- input "Enter API key: " ;;
  if negb (PyStr.len api_key =? 40)%nat
  then critical [Txt "Invalid API key. Please check your API key."] ;;;
       sys_exit
  else ret ((api_key_list ++ [api_key])%list, 1%nat).

(** Lines 100-135: the pool of keys and its size [n_api_key]. *)
Definition setup_api_key (api_key_file : option string)
  : M (list string * nat) :=
  let api_key_list := [] in
  match api_key_file with
  | Some text =>
      api_key_list <- read_keys (lines text) api_key_list ;;
      let n_api_key := length api_key_list in
      if (0 <? n_api_key)%nat
      then info [Txt (str n_api_key +:+ " API keys found in file.")] ;;;
           ret (api_key_list, n_api_key)
      else warning [Txt "No valid API key found in file. Please enter your API key below."] ;;;
           ask_api_key api_key_list
  | None =>
      warning [Txt "API key not found in file. Please enter your API key below."] ;;;
      ask_api_key api_key_list
  end.

(** Lines 212-219: one task per county, the keys taken in turn. *)
Fixpoint submit_loop (i : nat) (work : list (loc * loc))
  (api_key_list : list string) (n_api_key : nat)
  (county_names : list string) (futures : list task) : M (list task) :=
  match work with
  | [] => ret futures
  | (temp_csv, scenario_csv) :: rest =>
      api_key_index <- pymod i n_api_key ;;
      api_key <- array_get api_key_index api_key_list ;;
      county <- array_get i county_names ;;
      let t := Task temp_csv scenario_csv api_key (Some county) in
      emit (Submit t) ;;;
      submit_loop (S i) rest api_key_list n_api_key county_names
                  (futures ++ [t])%list
  end.

(** The name of an artifact of one scenario. *)
Definition artifact_name (county : string) (m scenario : nat)
  (ext : string) : string :=
  replace " " "_"
    (county +:+ "_month" +:+ str m +:+ "_scen" +:+ str scenario
     +:+ "_temp_gridLoad." +:+ ext).

(** Lines 228-239: plot and save every scenario of one result. *)
Fixpoint scenario_sink (fig_dir output_dir county : string) (m : nat)
  (rows : list (nat * row)) (final_result : model_result) : M unit :=
  match rows with
  | [] => ret tt
  | (scenario, _) :: rest =>
      let fig_name :=
        path_join fig_dir (artifact_name county m scenario "png") in
      emit (LoadPlotting final_result scenario fig_name) ;;;
      let filename :=
        path_join output_dir (artifact_name county m scenario "csv") in
      table <- try KeyError (final_result !! scenario) ;;
      emit (ToCsv table filename) ;;;
      scenario_sink fig_dir output_dir county m rest final_result
  end.

Section Main.
Variable temp_run : external_model.

(** [future.result()].  The pool is modelled by the order in which its
    tasks complete: the body of a task runs, in one piece, when its
    turn comes.  The bodies of different tasks work on different
    tables.  A task of this script always carries its county. *)
Definition future_result (t : task) : M model_result :=
  county <- try TypeError (t_county t) ;;
  county_run temp_run (t_temp_csv t) (t_scenario_csv t) (t_api_key t)
             county.

(** Lines 221-241: [for i, future in enumerate(as_completed(futures))];
    [order] lists the futures, by position in [futures], as they
    complete. *)
Fixpoint completed_loop (i : nat) (order : list nat)
  (futures : list task) (w : workload) (fig_dir output_dir : string)
  (m : nat) : M unit :=
  match order with
  | [] => ret tt
  | fut :: rest =>
      future <- array_get fut futures ;;
      final_result <- future_result future ;;
      county <- array_get i (county_names w) ;;
      scenario_csv <- array_get i (scenario_csv_list w) ;;
      s <- deref scenario_csv ;;
      scenario_sink fig_dir output_dir county m (iterrows s)
                    final_result ;;;
      info [Txt ("Finished running for county: " +:+ county)] ;;;
      completed_loop (S i) rest futures w fig_dir output_dir m
  end.

(** Lines 209-242, for the month [m]. *)
Definition run_month (w : workload) (api_key_list : list string)
  (n_api_key : nat) (fig_dir output_dir : string) (m : nat)
  (order : list nat) : M unit :=
  futures <- submit_loop 0 (zip (temp_csv_list w) (scenario_csv_list w))
               api_key_list n_api_key (county_names w) [] ;;
  completed_loop 0 order futures w fig_dir output_dir m ;;;
  info [Txt ("Finished running the model for month " +:+ str m +:+ ".")].

(** The script.  [w] is what lines 137-207 build for the month 12, the
    only one of [range(12, 13)]; [order] is the completion order of the
    tasks.  The elapsed time of the closing log lines is left out. *)
Definition main (env : environment) (w : workload) (order : list nat)
  : M unit :=
  dirs <- setup_directories env ;;
  let '(input_dir, output_dir, fig_dir) := dirs in
  keys <- setup_api_key (api_key_file env) ;;
  let '(api_key_list, n_api_key) := keys in
  info [Txt "Vehicle count data for year 2035:"] ;;;
  run_month w api_key_list n_api_key fig_dir output_dir 12 order ;;;
  info [Txt "#############################################"] ;;;
  info [Txt "Finished running the model."] ;;;
  info [Txt "#############################################"].

End Main.

End MultiKey.

(* ===================================================================== *)
(** * example_ny_ev_proj.py *)
(* ===================================================================== *)

Module SingleKey.
Import PyStr Pandas Interp Script.
Local Open Scope py_scope.

(** Lines 79-93: the key is the whole text of the file, or the line
    typed by the user; a key that is not 40 characters long is replaced
    by the demo key. *)
Definition setup_api_key (api_key_file : option string) : M string :=
  api_key <- match api_key_file with
             | Some text =>
                 info [Txt "API key found in file."] ;;;
                 ret text
             | None =>
                 warning [Txt "API key not found in file. Please enter your API key below."] ;;;
                 input "Enter API key: "
             end ;;
  if negb (PyStr.len api_key =? 40)%nat
  then warning [Txt "API key is not valid. Use the demo key instead."] ;;;
       ret "DEMO_KEY"
  else ret api_key.

(** The name of an artifact of one scenario. *)
Definition artifact_name (county : string) (scenario : nat)
  (ext : string) : string :=
  replace " " "_"
    (county +:+ "_scen" +:+ str scenario +:+ "_temp_gridLoad." +:+ ext).

(** Lines 178-185. *)
Fixpoint scenario_sink (fig_dir output_dir county : string)
  (rows : list (nat * row)) (final_result : model_result) : M unit :=
  match rows with
  | [] => ret tt
  | (scenario, _) :: rest =>
      let fig_name :=
        path_join fig_dir (artifact_name county scenario "png") in
      emit (LoadPlotting final_result scenario fig_name) ;;;
      let filename :=
        path_join output_dir (artifact_name county scenario "csv") in
      table <- try KeyError (final_result !! scenario) ;;
      emit (ToCsv table filename) ;;;
      scenario_sink fig_dir output_dir county rest final_result
  end.

(** Lines 169-170: one task per county, all with the same key. *)
Fixpoint submit_loop (work : list (loc * loc)) (api_key : string)
  (futures : list task) : M (list task) :=
  match work with
  | [] => ret futures
  | (temp_csv, scenario_csv) :: rest =>
      let t := Task temp_csv scenario_csv api_key None in
      emit (Submit t) ;;;
      submit_loop rest api_key (futures ++ [t])%list
  end.

(** Lines 36-40: the temperature table is completed in place. *)
Definition handle_temperature (temp_csv : loc) : M unit :=
  t <- deref temp_csv ;;
  d <- try KeyError (getitem "date" t) ;;
  d <- try AttributeError (mapM dt_date d) ;;
  update temp_csv (setitem "date" d t) ;;;
  t <- deref temp_csv ;;
  d <- try KeyError (getitem "date" t) ;;
  w <- try AttributeError (mapM cell_weekday d) ;;
  update temp_csv (setitem "weekday" w t) ;;;
  t <- deref temp_csv ;;
  c <- try KeyError (getitem "temperature" t) ;;
  update temp_csv (setitem "temp_c" c t) ;;;
  t <- deref temp_csv ;;
  t <- try KeyError (drop "temperature" t) ;;
  update temp_csv t.

Section Main.
Variable temp_run : external_model.

(** [county_run(temp_csv, scenario_csv, api_key)], lines 36-45. *)
Definition county_run (temp_csv scenario_csv : loc) (api_key : string)
  : M model_result :=
  handle_temperature temp_csv ;;;
  (* Run the model *)
  s <- deref scenario_csv ;;
  t <- deref temp_csv ;;
  ret (temp_run s t api_key None).

(** [future.result()]: see [MultiKey.future_result]. *)
Definition future_result (t : task) : M model_result :=
  county_run (t_temp_csv t) (t_scenario_csv t) (t_api_key t).

(** Lines 172-187. *)
Fixpoint completed_loop (i : nat) (order : list nat)
  (futures : list task) (w : workload) (fig_dir output_dir : string)
  : M unit :=
  match order with
  | [] => ret tt
  | fut :: rest =>
      future <- array_get fut futures ;;
      final_result <- future_result future ;;
      county <- array_get i (county_names w) ;;
      scenario_csv <- array_get i (scenario_csv_list w) ;;
      s <- deref scenario_csv ;;
      scenario_sink fig_dir output_dir county (iterrows s)
                    final_result ;;;
      info [Txt ("Finished running for county: " +:+ county)] ;;;
      completed_loop (S i) rest futures w fig_dir output_dir
  end.

(** The script; [w] is what lines 95-165 build and [order] the
    completion order of the tasks.  The elapsed time of the closing log
    lines is left out. *)
Definition main (env : environment) (w : workload) (order : list nat)
  : M unit :=
  dirs <- setup_directories env ;;
  let '(input_dir, output_dir, fig_dir) := dirs in
  api_key <- setup_api_key (api_key_file env) ;;
  info [Txt "Vehicle count data for year 2035:"] ;;;
  futures <- submit_loop (zip (temp_csv_list w) (scenario_csv_list w))
               api_key [] ;;
  completed_loop 0 order futures w fig_dir output_dir ;;;
  info [Txt "#############################################"] ;;;
  info [Txt "Finished running the model."] ;;;
  info [Txt "#############################################"].

End Main.

End SingleKey.

(* ===================================================================== *)
(** * ny_ev_proj.py *)
(* ===================================================================== *)

Module NyEvProj.
Import PyStr Interp Script.
Local Open Scope py_scope.

Definition scen_file : string := "InputData/Scenarios_test.csv".
Definition temp_file : string := "InputData/ShortTemps_test.csv".

(** Lines 14-26.  [Warning('...')] on line 25 builds an exception object
    and drops it: nothing is reported. *)
Definition setup_api_key (api_key_file : option string) : M string :=
  api_key <- match api_key_file with
             | Some text =>
                 emit (Print "API key found in file.") ;;;
                 ret text
             | None =>
                 emit (Print "API key not found in file. Please enter your API key below.") ;;;
                 input "Enter API key: "
             end ;;
  if negb (PyStr.len api_key =? 40)%nat
  then ret "DEMO_KEY"
  else ret api_key.

(** The script, run as a program. *)
Definition main (api_key_file : option string) : M unit :=
  api_key <- setup_api_key api_key_file ;;
  emit (Run scen_file temp_file api_key).

End NyEvProj.

(* ===================================================================== *)
(** * Sample data *)
(* ===================================================================== *)

Module Demo.
Import PyStr PyDate Pandas Interp Script.

Definition key_A : string := PyStr.repeat "A" 40.
Definition key_B : string := PyStr.repeat "B" 40.

Definition num (z : Z) : value := VNum (Float64.of_Z z).

Definition midnight (y m d : Z) : value := VStamp (Timestamp (Date y m d) 0).

(** A daily temperature table as the scripts build it: Saturday the 1st
    and Monday the 3rd of December 2018. *)
Definition temp_table : frame :=
  Frame [num 0; num 1]
        [("date", [midnight 2018 12 1; midnight 2018 12 3]);
         ("temperature", [num 2; num (-1)])].

(** A scenario table of two scenarios with the given fleet sizes. *)
Definition scenario_table (fleet0 fleet1 : Z) : frame :=
  Frame [num 0; num 1]
        [("fleet_size", [num fleet0; num fleet1]);
         ("mean_dvmt", [num 35; num 35]);
         ("pev_type", [VStr "PHEV50"; VStr "PHEV50"]);
         ("res_charging", [VStr "min_delay"; VStr "max_delay"])].

(** A result table: two quarter hours, the six power columns and a
    column that is not one of them. *)
Definition result_table (tag : string) : frame :=
  Frame [VStamp (Timestamp (Date 2018 12 1) 0);
         VStamp (Timestamp (Date 2018 12 1) 900000000000)]
        [("home_l1", [num 100; num 200]);
         ("home_l2", [num 10; num 20]);
         ("work_l1", [num 30; num 40]);
         ("work_l2", [num 50; num 60]);
         ("public_l2", [num 70; num 80]);
         ("public_l3", [num 90; num 0]);
         ("county", [VStr tag; VStr tag])].

(** A stand-in for the external model: one [result_table] per scenario,
    tagged with the county it was asked for. *)
Definition temp_run : external_model :=
  fun scenario_csv temp_csv api_key county =>
    list_to_map ((fun k => (k, result_table (default "" county)))
                   <$> seq 0 (len scenario_csv)).

(** A heap with one temperature table (at the even locations) and one
    scenario table (at the odd ones) for each of [n] counties. *)
Definition heap_for (n : nat) (fleet : Z) : gmap loc frame :=
  list_to_map
    (flat_map (fun i => [((2 * i)%nat, temp_table);
                         ((2 * i + 1)%nat, scenario_table fleet 40000)])
              (seq 0 n)).

Definition start (fleet : Z) (typed : list string) : state :=
  State (heap_for 3 fleet) typed [].

Definition counties : workload :=
  Workload ["Albany"; "Bronx"; "New York"] [0; 2; 4]%nat [1; 3; 5]%nat.

Definition start5 (fleet : Z) (typed : list string) : state :=
  State (heap_for 5 fleet) typed [].

Definition five_counties : workload :=
  Workload ["Albany"; "Bronx"; "Kings"; "New York"; "Queens"]
           [0; 2; 4; 6; 8]%nat [1; 3; 5; 7; 9]%nat.

(** A second stand-in for the external model, which the single-key
    script calls without county: the result tables are tagged with the
    first fleet size of the scenario table they were computed from. *)
Definition temp_run_by_fleet : external_model :=
  fun scenario_csv temp_csv api_key county =>
    let tag := default (VStr "") (getitem "fleet_size" scenario_csv ≫= head) in
    list_to_map
      ((fun k => (k, setitem "county" [tag; tag] (result_table "")))
         <$> seq 0 (len scenario_csv)).

(** Three counties with fleets of 40,000, 50,000 and 60,000 vehicles. *)
Definition start_distinct (typed : list string) : state :=
  State (list_to_map
           [(0%nat, temp_table); (1%nat, scenario_table 40000 40000);
            (2%nat, temp_table); (3%nat, scenario_table 50000 50000);
            (4%nat, temp_table); (5%nat, scenario_table 60000 60000)])
        typed [].

Definition env (key_file : option string) : environment :=
  Env "/home/user" true true true key_file.

(** What a run has written with [to_csv]: the file names, each with the
    county that the external model was asked for when it produced the
    table (its [county] column). *)
Definition written (tr : list event) : list (string * option column) :=
  omap (fun ev => match ev with
                  | ToCsv table filename =>
                      Some (filename, getitem "county" table)
                  | _ => None
                  end) tr.

(** What a run has plotted: the figure names, each with the county that
    the external model was asked for when it produced the result. *)
Definition plotted (tr : list event) : list (string * option column) :=
  omap (fun ev => match ev with
                  | LoadPlotting final_result scenario fig_name =>
                      Some (fig_name,
                            final_result !! scenario ≫= getitem "county")
                  | _ => None
                  end) tr.

End Demo.

(* ===================================================================== *)
(** * NYS_population_download.py *)
(* ===================================================================== *)

Module Download.
Import PyStr.

(** [range(start, stop, step)] for a positive step. *)
Definition range (start stop step : nat) : list nat :=
  (fun k => start + k * step)%nat
    <$> seq 0 ((stop - start + (step - 1)) / step)%nat.

(** One call [session.get(url)], with the thread that made it. *)
Record request := Request {
  r_thread : nat;
  r_session : nat;
  r_url : string
}.

(** What the script reports: a log record, the creation of a directory,
    and the closing [print], whose elapsed time is left out. *)
Inductive report :=
| Debug (msg : string)          (* logging.debug(msg) *)
| MakeDirs (path : string)      (* os.makedirs(path) *)
| Downloaded (n : nat).         (* print(f"Downloaded {n} in ... seconds") *)

Record world := World {
  sessions : gmap nat nat;      (* thread_local.session, per thread *)
  created : nat;                (* calls of requests.Session() so far;
                                   a session is named by its rank *)
  files : gmap string string;   (* the file system: path and content *)
  requests : list request;      (* calls of session.get, oldest first *)
  console : list report
}.

(** The outcome of a task of the pool. *)
Inductive result := Done | RequestError.

#[global] Instance request_eq_dec : EqDecision request.
Proof. solve_decision. Defined.
#[global] Instance report_eq_dec : EqDecision report.
Proof. solve_decision. Defined.
#[global] Instance result_eq_dec : EqDecision result.
Proof. solve_decision. Defined.

(** [get_session()], run by the thread [thread]. *)
Definition get_session (thread : nat) (w : world) : nat * world :=
  match sessions w !! thread with
  | None =>
      (created w,
       World (<[thread := created w]> (sessions w)) (S (created w))
             (files w) (requests w) (console w))
  | Some session => (session, w)
  end.

(** [url.split('=')[-1]]; [split] returns at least one field. *)
Definition last_field (url : string) : string :=
  default EmptyString (last (split "=" url)).

(** The file that [download_site(url)] writes. *)
Definition file_of (data_dir url : string) : string :=
  Script.path_join data_dir (last_field url +:+ ".xlsx").

Section Site.
(** The content that the site sends for a url; [None] when
    [session.get] raises.  The site answers a url in the same way in
    every session. *)
Variable fetch : string -> option string.
Variable data_dir : string.

(** [download_site(url)], run by the thread [thread]. *)
Definition download_site (thread : nat) (url : string) (w : world)
  : result * world :=
  let '(session, w) := get_session thread w in
  let w := World (sessions w) (created w) (files w)
                 (requests w ++ [Request thread session url])
                 (console w) in
  match fetch url with
  | Some content =>
      (Done,
       World (sessions w) (created w)
             (<[file_of data_dir url := content]> (files w))
             (requests w) (console w))
  | None => (RequestError, w)
  end.

(** The pool at work.  [sched] lists the tasks in the order in which
    they run, each with the thread that runs it and the position of its
    site in [sites]; the body of a task runs in one piece.  The outcome
    of a task stays in its future. *)
Fixpoint run_tasks (sched : list (nat * nat)) (sites : list string)
  (w : world) : world :=
  match sched with
  | [] => w
  | (thread, k) :: rest =>
      match sites !! k with
      | Some url => run_tasks rest sites (download_site thread url w).2
      | None => run_tasks rest sites w
      end
  end.

(** [download_all_sites(sites)]: [executor.map] submits one task per
    site, its results are not looked at, and the [with] block waits for
    the tasks. *)
Definition download_all_sites (sched : list (nat * nat))
  (sites : list string) (w : world) : world :=
  run_tasks sched sites w.

End Site.

Definition max_workers : nat := 5.

(** A run of the pool on [n] sites: every task runs once, on one of the
    worker threads. *)
Definition schedule (n : nat) (sched : list (nat * nat)) : Prop :=
  sched.*2 ≡ₚ seq 0 n /\ Forall (fun p => (p.1 < max_workers)%nat) sched.

Definition base_url : string :=
  "https://pad.human.cornell.edu/counties/expprojdata.cfm?".

Definition url_of (base : string) (id : nat) : string :=
  base +:+ "+county=" +:+ Script.str id.

(** Line 57. *)
Definition urls : list string := url_of base_url <$> range 1 125 2.

Definition say (r : report) (w : world) : world :=
  World (sessions w) (created w) (files w) (requests w) (console w ++ [r]).

(** The script, run as a program in the directory [cwd]. *)
Definition main (fetch : string -> option string) (cwd : string)
  (data_dir_exists : bool) (sched : list (nat * nat)) (w : world)
  : world :=
  let w := say (Debug "Start of program") w in
  let data_dir := Script.path_join cwd "Population_Data" in
  let w := if negb data_dir_exists then say (MakeDirs data_dir) w else w in
  let w := say (Debug "Set working directory") w in
  let w := download_all_sites fetch data_dir sched urls w in
  say (Downloaded (length urls)) w.

End Download.

(* ===================================================================== *)
(** * The tables that the example scripts build for a county *)
(* ===================================================================== *)

Module Assembly.
Import PyStr PyDate Pandas.

(** Lines 157-158 of [example_ny_ev_proj_mp.py] (115-116 of
    [example_ny_ev_proj.py]): the name of the county in the head of a
    column of the temperature file, [county.split(',')[1].strip()];
    [None] is [IndexError]. *)
Definition parse_county (head : string) : option string :=
  strip <$> (split "," head !! 1%nat).

(** The default index of a table of [n] rows. *)
Definition range_index (n : nat) : list value := default_index n.

(** Lines 179-180 (138-139): the daily temperatures of one county, a
    series over days, become a table with the columns [date] and
    [temperature]. *)
Definition temp_csv_of (daily : list (timestamp * value)) : frame :=
  Frame (range_index (length daily))
        [("date", VStamp <$> daily.*1); ("temperature", daily.*2)].

(** Lines 190-203 of [example_ny_ev_proj_mp.py]. *)
Definition scenario_dict (fleet_size temp_c : value)
  : list (string * column) :=
  [("fleet_size", replicate 2 fleet_size);
   ("mean_dvmt", replicate 2 (VNum (Float64.of_Z 35)));
   ("temp_c", replicate 2 temp_c);
   ("pev_type", replicate 2 (VStr "PHEV50"));
   ("pev_dist", replicate 2 (VStr "EQUAL"));
   ("class_dist", replicate 2 (VStr "Equal"));
   ("home_access_dist", replicate 2 (VStr "HA75"));
   ("home_power_dist", replicate 2 (VStr "MostL1"));
   ("work_power_dist", replicate 2 (VStr "MostL2"));
   ("pref_dist", replicate 2 (VStr "Home60"));
   ("res_charging", [VStr "min_delay"; VStr "max_delay"]);
   ("work_charging", replicate 2 (VStr "min_delay"))].

(** Line 204: [pd.DataFrame(scenario_dict)]. *)
Definition scenario_csv_of (fleet_size temp_c : value) : frame :=
  Frame (range_index 2) (scenario_dict fleet_size temp_c).

End Assembly.

(* ===================================================================== *)
(** * Vocabulary of the statements *)
(* ===================================================================== *)

Module Spec.
Import PyDate Pandas Interp Script MultiKey.
Local Open Scope float_scope.

(** The content of the [weekday] column for a list of dates. *)
Definition weekday_cells (ds : list date) : column :=
  (fun d => VNum (Float64.of_Z (weekday d))) <$> ds.

(** The table that lines 38-43 leave behind, for the dates [ds] of its
    rows and its column [temps] of temperatures. *)
Definition with_weekdays (ds : list date) (temps : column) (t0 : frame)
  : frame :=
  setitem "temp_c" temps
    (setitem "weekday" (weekday_cells ds) (setitem "date" (VDate <$> ds) t0)).

(** What the loop makes of one fleet size [q]: the value left in the
    table and the recorded factor. *)
Definition corrected_fleet (q : float) : float :=
  if q <? floor_threshold then nominal_fleet else q.

Definition scale_factor (q : float) : float :=
  if q <? floor_threshold then q / nominal_fleet else 1.

(** What the scaling loop makes of a column [xs] of doubles for the
    factor [sf]: the products, in doubles; a factor equal to 1 leaves
    the column as it is. *)
Definition scaled_by (sf : float) (xs : list float) : list float :=
  if sf =? 1 then xs else (fun x => x * sf) <$> xs.

(** The rows [j], ..., [j + m - 1] as [iterrows] yields them. *)
Definition rows_from (s0 : frame) (j m : nat) : list (nat * row) :=
  (fun k => (k, row_at k s0)) <$> seq j m.

(** [rhs] is [q] times the column [vs], cell by cell. *)
Definition scaled_column (q : float) (vs rhs : column) : Prop :=
  exists xs, vs = VNum <$> xs /\ rhs = VNum <$> ((fun x => x * q) <$> xs).

(** A table that line 61-63 can scale: it has the six power columns and
    they hold numbers. *)
Definition scalable (table : frame) : Prop :=
  forall c, c ∈ power_columns ->
            exists xs, getitem c table = Some (VNum <$> xs).

(** One step of [df[names] = rhs]. *)
Definition assign_step (acc : frame) (x : string * (string * column))
  : frame :=
  let '(n, (_, vs)) := x in setitem n vs acc.

(** The scenario table after the small-fleet loop. *)
Definition corrected_scenarios (qs : list float) (s0 : frame) : frame :=
  setitem "fleet_size" (VNum <$> (corrected_fleet <$> qs)) s0.

(** The arguments of a call [county_run(temp_csv, scenario_csv, ...)] in
    the state [s]: two different tables; the temperature table [t0] has a
    column of times [ts] and a column [temps] of temperatures, and
    becomes [t1]; the scenario table [s0] has the fleet sizes [qs]. *)
Record county_input (s : state) (temp_csv scenario_csv : loc)
  (t0 s0 : frame) (ts : list timestamp) (temps : column) (qs : list float)
  (t1 : frame) : Prop := {
  ci_temp : heap s !! temp_csv = Some t0;
  ci_scen : heap s !! scenario_csv = Some s0;
  ci_distinct : temp_csv <> scenario_csv;
  ci_date : exists cells,
      getitem "date" t0 = Some cells /\ mapM to_datetime cells = Some ts;
  ci_temperature : getitem "temperature" t0 = Some temps;
  ci_done : drop "temperature" (with_weekdays (ts_date <$> ts) temps t0)
            = Some t1;
  ci_fleet : getitem "fleet_size" s0 = Some (VNum <$> qs);
  ci_rows : length qs = len s0
}.

(** A table with the default index, as [pd.DataFrame(dict)] builds it:
    the label of a row is its position.  The loops of [county_run] use
    the label of a row to index [scaling_factor] and the result; what is
    stated about them is stated for such a table. *)
Definition default_indexed (f : frame) : Prop :=
  index f = default_index (len f).

(** The external model has answered with a scalable table for each of
    the first [n] scenarios. *)
Definition returns_tables (raw : model_result) (n : nat) : Prop :=
  forall k, (k < n)%nat -> exists table, raw !! k = Some table /\ scalable table.

(** A column of a scenario of what a call has returned. *)
Definition result_column (o : outcome model_result * state) (k : nat)
  (c : string) : option column :=
  match o.1 with
  | Ok res => res !! k ≫= getitem c
  | Raise _ => None
  end.

(** A column of a table of the heap that a call has left. *)
Definition heap_column (o : outcome model_result * state) (l : loc)
  (c : string) : option column :=
  heap o.2 !! l ≫= getitem c.

(** A key is accepted when it has 40 characters. *)
Definition valid_key (k : string) : Prop := PyStr.len k = 40%nat.

#[global] Instance valid_key_dec k : Decision (valid_key k).
Proof. unfold valid_key. apply _. Defined.

(** The pool read from the lines of a key file, and the warnings for
    the other lines. *)
Definition accepted (file_lines : list string) : list string :=
  filter valid_key (PyStr.strip <$> file_lines).

Definition rejections (file_lines : list string) : list event :=
  (fun l => Log WARNING [Txt ("Invalid API key: " +:+ PyStr.strip l)])
    <$> filter (fun l => ~ valid_key (PyStr.strip l)) file_lines.

Fixpoint all_chars (p : ascii -> bool) (s : string) : bool :=
  match s with
  | EmptyString => true
  | String c s' => p c && all_chars p s'
  end.

(** A string without white space, as a key is. *)
Definition no_space (k : string) : Prop :=
  all_chars (fun c => negb (PyStr.isspace c)) k = true.

(** The end of a line. *)
Definition LF : string := String PyStr.newline EmptyString.

(** A computation that hands no task to the executor. *)
Definition quiet {A} (m : M A) : Prop :=
  forall s, submitted (trace (m s).2) = submitted (trace s).

(** The state [s] with the events [tr] added to its trace. *)
Definition logged (s : state) (tr : list event) : state :=
  State (heap s) (stdin s) (trace s ++ tr).

(** The keys of the tasks that a run has submitted. *)
Definition submitted_keys (o : outcome unit * state) : list string :=
  t_api_key <$> submitted (trace o.2).

(** The key that a single-key script gets hold of: the text of the key
    file or, without file, the first line typed. *)
Definition obtained_key (file : option string) (s : state) : option string :=
  match file with
  | Some text => Some text
  | None => head (stdin s)
  end.

End Spec.

Import Spec.

(* ===================================================================== *)
(** * Vocabulary of the further properties *)
(* ===================================================================== *)

Module Props.
Import PyStr PyDate Pandas Interp Script.

(** A computation whose observable effects all satisfy [P]. *)
Definition emits {A} (P : event -> Prop) (m : M A) : Prop :=
forall s, exists tr, trace (m s).2 = trace s ++ tr /\ Forall P tr.

(** A computation that changes no table outside the locations [L],
  creates and deletes no table and reads nothing from the user. *)
Definition confined {A} (L : list loc) (m : M A) : Prop :=
forall s,
  (forall l, l ∉ L -> heap (m s).2 !! l = heap s !! l) /\
  dom (heap (m s).2) = dom (heap s) /\
  stdin (m s).2 = stdin s.

Definition is_log (ev : event) : Prop :=
match ev with Log _ _ => True | _ => False end.

(** An event of the key and directory set-up: a log record, a prompt or
  the creation of a directory. *)
Definition is_setup (ev : event) : Prop :=
match ev with Log _ _ | Prompt _ | MakeDirs _ => True | _ => False end.

(** An event that hands no key to the model. *)
Definition no_model_call (ev : event) : Prop :=
match ev with Submit _ | Run _ _ _ => False | _ => True end.

(** Every key handed to the model, with a task of the executor or with
  the call of [run], satisfies [Q]. *)
Definition submits_keys (Q : string -> Prop) (ev : event) : Prop :=
match ev with
| Submit t => Q (t_api_key t)
| Run _ _ k => Q k
| _ => True
end.

(** A key of 40 characters, or the demo key. *)
Definition checked_or_demo (k : string) : Prop :=
PyStr.len k = 40%nat \/ k = "DEMO_KEY".

Definition is_artifact (ev : event) : bool :=
match ev with LoadPlotting _ _ _ | ToCsv _ _ => true | _ => false end.

(** The plots and files of a run, in the order they are produced. *)
Definition artifacts (tr : list event) : list event :=
omap (fun ev => if is_artifact ev then Some ev else None) tr.

(** Two calls in a row, with both results. *)
Definition both {A B} (m1 : M A) (m2 : M B) : M (A * B) :=
fun s => match m1 s with
         | (Ok a, s1) => match m2 s1 with
                         | (Ok b, s2) => (Ok (a, b), s2)
                         | (Raise e, s2) => (Raise e, s2)
                         end
         | (Raise e, s1) => (Raise e, s1)
         end.

(** The artifacts of one scenario: the plot and, when the result has a
  table for the scenario, the file. *)
Definition mp_artifacts (fig_dir output_dir county : string) (m : nat)
(final_result : model_result) (scenario : nat) : list event :=
LoadPlotting final_result scenario
  (path_join fig_dir (MultiKey.artifact_name county m scenario "png"))
:: match final_result !! scenario with
   | Some table =>
       [ToCsv table
          (path_join output_dir
             (MultiKey.artifact_name county m scenario "csv"))]
   | None => []
   end.

Definition sk_artifacts (fig_dir output_dir county : string)
(final_result : model_result) (scenario : nat) : list event :=
LoadPlotting final_result scenario
  (path_join fig_dir (SingleKey.artifact_name county scenario "png"))
:: match final_result !! scenario with
   | Some table =>
       [ToCsv table
          (path_join output_dir
             (SingleKey.artifact_name county scenario "csv"))]
   | None => []
   end.


Definition not_blank (c : ascii) : bool := negb (Ascii.eqb c " ").

Definition is_digit (c : ascii) : bool :=
(48 <=? nat_of_ascii c)%nat && (nat_of_ascii c <=? 57)%nat.

(** The sessions of the download: a session belongs to one thread, the
  sessions are those created so far, and every request was made with
  the session of its thread. *)
Definition sessions_ok (w : Download.world) : Prop :=
(forall t t' x, Download.sessions w !! t = Some x ->
                Download.sessions w !! t' = Some x -> t = t') /\
(forall t x, Download.sessions w !! t = Some x ->
             (x < Download.created w)%nat) /\
size (Download.sessions w) = Download.created w /\
Forall (fun r => Download.sessions w !! Download.r_thread r
                 = Some (Download.r_session r))
       (Download.requests w).

(** The temperature table of a county when [county_run] has completed
  it. *)
Definition completed_temp (daily : list (timestamp * value)) : frame :=
Frame (Assembly.range_index (length daily))
      [("date", VDate <$> (ts_date <$> daily.*1));
       ("weekday", weekday_cells (ts_date <$> daily.*1));
       ("temp_c", daily.*2)].

End Props.

Import Props.
(* ===================================================================== *)
(** * Facts about the comparison of doubles *)
(* ===================================================================== *)

Section FloatFacts.
Local Open Scope float_scope.

(** Comparing the other way round gives the opposite answer. *)
Lemma SFcompare_swap X Y : SFcompare Y X = CompOpp <$> SFcompare X Y.
Proof.
  destruct X as [sx|sx| |sx mx ex], Y as [sy|sy| |sy my ey];
    try (destruct sx); try (destruct sy); cbn [SFcompare fmap option_fmap option_map CompOpp];
    try done.
  - change (ey ?= ex)%Z with (Z.compare ey ex).
    rewrite (Z.compare_antisym ex ey).
    change (Z.compare ex ey) with (ex ?= ey)%Z.
    destruct (ex ?= ey)%Z; cbn [CompOpp]; try done.
    f_equal. f_equal. symmetry. apply (Pos.compare_cont_antisym mx my Eq).
  - change (ey ?= ex)%Z with (Z.compare ey ex).
    rewrite (Z.compare_antisym ex ey).
    change (Z.compare ex ey) with (ex ?= ey)%Z.
    destruct (ex ?= ey)%Z; cbn [CompOpp]; try done.
    f_equal. symmetry. apply (Pos.compare_cont_antisym mx my Eq).
Qed.

Lemma le_not_lt x y : x <= y -> (y <? x) = false.
Proof.
  unfold Float64.le. rewrite leb_spec, ltb_spec. unfold SFleb, SFltb.
  rewrite (SFcompare_swap (Prim2SF x) (Prim2SF y)).
  by destruct (SFcompare (Prim2SF x) (Prim2SF y)) as [[]|].
Qed.


(** [x == 1] holds of the double 1.0 only. *)
Lemma eqb_one x : (x =? 1) = true <-> x = 1.
Proof.
  split; [|by intros ->].
  rewrite eqb_spec. unfold SFeqb. intros H. apply Prim2SF_inj.
  change (Prim2SF 1) with (S754_finite false 4503599627370496 (-52)) in *.
  destruct (Prim2SF x) as [s|s| |s m e]; try (destruct s);
    cbn [SFcompare] in H; try done.
  destruct (Z.compare_spec e (-52)) as [He|He|He]; try done.
  assert (forall c, PosDef.Pos.compare_cont Eq m c = Eq -> m = c) as Hc
    by (intros c; apply Pos.compare_eq).
  destruct (PosDef.Pos.compare_cont Eq m 4503599627370496) eqn:Hm;
    try done.
  apply Hc in Hm. by subst.
Qed.
End FloatFacts.

(* ===================================================================== *)
(** * Facts about tables *)
(* ===================================================================== *)

Section FrameFacts.
Import Pandas.
Implicit Types (name : string) (cols : list (string * column)) (f : frame).

Lemma lookup_store_eq name vs cols :
  lookup_column name (store_column name vs cols) = Some vs.
Proof.
  induction cols as [|[n old] cols IH]; simpl.
  - by rewrite String.eqb_refl.
  - destruct (String.eqb_spec n name) as [->|Hne]; simpl.
    + by rewrite String.eqb_refl.
    + by destruct (String.eqb_spec n name).
Qed.

Lemma lookup_store_ne name name' vs cols :
  name <> name' ->
  lookup_column name' (store_column name vs cols) = lookup_column name' cols.
Proof.
  intros Hne. induction cols as [|[n old] cols IH]; simpl.
  - by destruct (String.eqb_spec name name').
  - destruct (String.eqb_spec n name) as [->|Hn]; simpl.
    + by destruct (String.eqb_spec name name').
    + by rewrite IH.
Qed.

Lemma store_store name v1 v2 cols :
  store_column name v2 (store_column name v1 cols) = store_column name v2 cols.
Proof.
  induction cols as [|[n old] cols IH]; simpl.
  - by rewrite String.eqb_refl.
  - destruct (String.eqb_spec n name) as [->|Hn]; simpl.
    + by rewrite String.eqb_refl.
    + destruct (String.eqb_spec n name); [done|]. by rewrite IH.
Qed.

Lemma store_id name vs cols :
  lookup_column name cols = Some vs -> store_column name vs cols = cols.
Proof.
  induction cols as [|[n old] cols IH]; simpl; [done|].
  destruct (String.eqb_spec n name) as [->|Hn].
  - by intros [= ->].
  - intros H. by rewrite IH.
Qed.

Lemma store_names name vs cols :
  is_Some (lookup_column name cols) ->
  (store_column name vs cols).*1 = cols.*1.
Proof.
  induction cols as [|[n old] cols IH]; cbn [store_column lookup_column].
  - by intros [? ?].
  - destruct (String.eqb_spec n name) as [->|Hn]; [done|].
    intros H. rewrite !fmap_cons. f_equal. by apply IH.
Qed.

Lemma lookup_column_None name cols :
  lookup_column name cols = None <-> name ∉ cols.*1.
Proof.
  induction cols as [|[n old] cols IH]; simpl.
  - split; [intros _; apply not_elem_of_nil|done].
  - rewrite not_elem_of_cons.
    destruct (String.eqb_spec n name) as [->|Hn].
    + split; [done|]. by intros [? _].
    + rewrite IH. split; [by intros ?; split; [congruence|]|by intros [_ ?]].
Qed.

Lemma store_names_fresh name vs cols :
  lookup_column name cols = None ->
  (store_column name vs cols).*1 = (cols.*1 ++ [name])%list.
Proof.
  induction cols as [|[n old] cols IH]; cbn [store_column lookup_column];
    [done|].
  destruct (String.eqb_spec n name) as [->|Hn]; [done|].
  intros H. rewrite !fmap_cons. simpl. f_equal. by apply IH.
Qed.

Lemma setitem_NoDup name vs f :
  NoDup (columns f).*1 -> NoDup (columns (setitem name vs f)).*1.
Proof.
  intros Hnd. unfold setitem; simpl.
  destruct (lookup_column name (columns f)) as [old|] eqn:E.
  - rewrite store_names; [done|by eexists].
  - rewrite store_names_fresh by done. apply NoDup_app.
    split; [done|]. split; [|apply NoDup_singleton].
    intros x Hx Hx'. apply list_elem_of_singleton in Hx' as ->.
    by apply lookup_column_None in E.
Qed.

Lemma getitem_setitem_eq name vs f :
  getitem name (setitem name vs f) = Some vs.
Proof. apply lookup_store_eq. Qed.

Lemma getitem_setitem_ne name name' vs f :
  name <> name' -> getitem name' (setitem name vs f) = getitem name' f.
Proof. apply lookup_store_ne. Qed.

Lemma setitem_setitem name v1 v2 f :
  setitem name v2 (setitem name v1 f) = setitem name v2 f.
Proof. unfold setitem; simpl. by rewrite store_store. Qed.

Lemma setitem_id name vs f : getitem name f = Some vs -> setitem name vs f = f.
Proof.
  unfold getitem, setitem. intros H. rewrite (store_id _ _ _ H).
  by destruct f.
Qed.

Lemma len_setitem name vs f : len (setitem name vs f) = len f.
Proof. done. Qed.

Lemma set_cell_setitem k name v vs f :
  set_cell k name v (setitem name vs f) = setitem name (<[k:=v]> vs) f.
Proof.
  unfold set_cell. rewrite getitem_setitem_eq. apply setitem_setitem.
Qed.

Lemma remove_column_lookup_ne name name' cols cols' :
  remove_column name cols = Some cols' -> name <> name' ->
  lookup_column name' cols' = lookup_column name' cols.
Proof.
  revert cols'. induction cols as [|[n old] cols IH]; simpl; [done|].
  intros cols' H Hne. destruct (String.eqb_spec n name) as [->|Hn].
  - injection H as <-. by destruct (String.eqb_spec name name').
  - destruct (remove_column name cols) as [r|] eqn:E; [|done].
    injection H as <-. simpl. by rewrite (IH r).
Qed.

Lemma remove_column_lookup_eq name cols cols' :
  remove_column name cols = Some cols' -> NoDup cols.*1 ->
  lookup_column name cols' = None.
Proof.
  revert cols'. induction cols as [|[n old] cols IH]; simpl; [done|].
  intros cols' H Hnd. apply NoDup_cons in Hnd as [Hn Hnd].
  destruct (String.eqb_spec n name) as [->|Hne].
  - injection H as <-. by apply lookup_column_None.
  - destruct (remove_column name cols) as [r|] eqn:E; [|done].
    injection H as <-. simpl. destruct (String.eqb_spec n name); [done|].
    by apply IH.
Qed.

Lemma remove_column_is_Some name cols :
  is_Some (lookup_column name cols) -> is_Some (remove_column name cols).
Proof.
  induction cols as [|[n old] cols IH]; simpl.
  - by intros [? ?].
  - destruct (String.eqb_spec n name); [by eexists|].
    intros H. destruct (IH H) as [r ->]. by eexists.
Qed.

Lemma row_getitem_row_at name k v vs idx cols :
  lookup_column name cols = Some vs -> vs !! k = Some v ->
  row_getitem name (row_at k (Frame idx cols)) = Some v.
Proof.
  unfold row_at; simpl. intros H Hk.
  induction cols as [|[n old] cols IH]; simpl in *; [done|].
  destruct (String.eqb_spec n name) as [->|Hn].
  - injection H as ->. rewrite Hk. simpl. by rewrite String.eqb_refl.
  - destruct (old !! k); simpl; [|by apply IH].
    destruct (String.eqb_spec n name); [done|]. by apply IH.
Qed.

Lemma getitem_drop_ne name name' f f' :
  drop name f = Some f' -> name <> name' -> getitem name' f' = getitem name' f.
Proof.
  unfold drop. intros H Hne. apply fmap_Some in H as (cols & Hc & ->).
  by apply (remove_column_lookup_ne name).
Qed.

Lemma getitem_drop_eq name f f' :
  drop name f = Some f' -> NoDup (columns f).*1 -> getitem name f' = None.
Proof.
  unfold drop. intros H Hnd. apply fmap_Some in H as (cols & Hc & ->).
  by apply (remove_column_lookup_eq name (columns f)).
Qed.

End FrameFacts.

(* ===================================================================== *)
(** * Facts about the interpreter monad *)
(* ===================================================================== *)

Section MonadFacts.
Import Interp.
Context {A B : Type}.
Implicit Types (m : M A) (k : A -> M B) (s : state).

Lemma bind_ok m k s a s1 : m s = (Ok a, s1) -> bind m k s = k a s1.
Proof. unfold bind. by intros ->. Qed.

Lemma bind_raise m k s e s1 : m s = (Raise e, s1) -> bind m k s = (Raise e, s1).
Proof. unfold bind. by intros ->. Qed.

Lemma bind_inv_ok m k s b s2 :
  bind m k s = (Ok b, s2) -> exists a s1, m s = (Ok a, s1) /\ k a s1 = (Ok b, s2).
Proof.
  unfold bind. destruct (m s) as [[a|e] s1]; [|done]. intros H. by exists a, s1.
Qed.

End MonadFacts.

Section StateFacts.
Import Pandas Interp Script.

Lemma deref_ok l f s : heap s !! l = Some f -> deref l s = (Ok f, s).
Proof. unfold deref. by intros ->. Qed.

Lemma update_ok l f g s :
  heap s !! l = Some f ->
  update l g s = (Ok tt, State (<[l := g]> (heap s)) (stdin s) (trace s)).
Proof. unfold update, mutate. by intros ->. Qed.

Lemma mutate_ok l f g s :
  heap s !! l = Some f ->
  mutate l g s = (Ok tt, State (<[l := g f]> (heap s)) (stdin s) (trace s)).
Proof. unfold mutate. by intros ->. Qed.

Lemma try_ok {A} e (o : option A) a s : o = Some a -> try e o s = (Ok a, s).
Proof. by intros ->. Qed.

End StateFacts.

(* ===================================================================== *)
(** * The temperature table *)
(* ===================================================================== *)

Section TemperatureFacts.
Import PyDate Pandas Interp Script.


Lemma mapM_cell_weekday ds :
  mapM cell_weekday (VDate <$> ds) = Some (weekday_cells ds).
Proof.
  apply mapM_Some. unfold weekday_cells.
  induction ds; simpl; constructor; auto.
Qed.

Lemma mapM_dt_date (ts : list timestamp) :
  mapM dt_date (VStamp <$> ts) = Some (VDate <$> (ts_date <$> ts)).
Proof.
  apply mapM_Some. induction ts; simpl; constructor; auto.
Qed.

Lemma getitem_temperature_with_weekdays ds temps t0 :
  getitem "temperature" t0 = Some temps ->
  getitem "temperature" (with_weekdays ds temps t0) = Some temps.
Proof.
  intros H. unfold with_weekdays.
  by rewrite !getitem_setitem_ne.
Qed.

Lemma drop_with_weekdays ds temps t0 :
  getitem "temperature" t0 = Some temps ->
  is_Some (drop "temperature" (with_weekdays ds temps t0)).
Proof.
  intros H. unfold drop. apply fmap_is_Some, remove_column_is_Some.
  exists temps. by apply getitem_temperature_with_weekdays.
Qed.

(** Lines 38-43 of the multi-key script on a well-formed table. *)
Lemma mp_handle_temperature_ok s temp_csv t0 cells ts temps :
  heap s !! temp_csv = Some t0 ->
  getitem "date" t0 = Some cells ->
  mapM to_datetime cells = Some ts ->
  getitem "temperature" t0 = Some temps ->
  exists t1,
    drop "temperature" (with_weekdays (ts_date <$> ts) temps t0) = Some t1 /\
    MultiKey.handle_temperature temp_csv s
    = (Ok tt, State (<[temp_csv := t1]> (heap s)) (stdin s) (trace s)).
Proof.
  intros Hh Hd Hts Htemp.
  destruct (drop_with_weekdays (ts_date <$> ts) temps t0 Htemp) as [t1 Ht1].
  exists t1. split; [done|].
  unfold MultiKey.handle_temperature.
  rewrite (bind_ok _ _ _ _ _ (deref_ok _ _ _ Hh)).
  rewrite (bind_ok _ _ _ _ _ (try_ok _ _ _ _ Hd)).
  rewrite (bind_ok _ _ _ _ _ (try_ok _ _ _ _ Hts)).
  assert ((fun x => VDate (ts_date x)) <$> ts = VDate <$> (ts_date <$> ts))
    as -> by (by rewrite <-list_fmap_compose).
  rewrite (bind_ok _ _ _ _ _ (update_ok _ _ _ _ Hh)).
  erewrite bind_ok; [|by apply deref_ok; simpl; apply lookup_insert_eq].
  erewrite bind_ok; [|by apply try_ok, getitem_setitem_eq].
  erewrite bind_ok; [|apply try_ok, mapM_cell_weekday].
  erewrite bind_ok; [|by eapply update_ok; simpl; apply lookup_insert_eq].
  simpl. rewrite insert_insert_eq.
  erewrite bind_ok; [|by apply deref_ok; simpl; apply lookup_insert_eq].
  erewrite bind_ok;
    [|apply try_ok; rewrite !getitem_setitem_ne by done; exact Htemp].
  erewrite bind_ok; [|by eapply update_ok; simpl; apply lookup_insert_eq].
  simpl. rewrite insert_insert_eq.
  erewrite bind_ok; [|by apply deref_ok; simpl; apply lookup_insert_eq].
  fold (with_weekdays (ts_date <$> ts) temps t0).
  erewrite bind_ok; [|apply try_ok; exact Ht1].
  erewrite update_ok; [|by simpl; apply lookup_insert_eq].
  simpl. by rewrite insert_insert_eq.
Qed.

(** Lines 36-40 of the single-key script on a well-formed table. *)
Lemma sk_handle_temperature_ok s temp_csv t0 ts temps :
  heap s !! temp_csv = Some t0 ->
  getitem "date" t0 = Some (VStamp <$> ts) ->
  getitem "temperature" t0 = Some temps ->
  exists t1,
    drop "temperature" (with_weekdays (ts_date <$> ts) temps t0) = Some t1 /\
    SingleKey.handle_temperature temp_csv s
    = (Ok tt, State (<[temp_csv := t1]> (heap s)) (stdin s) (trace s)).
Proof.
  intros Hh Hd Htemp.
  destruct (drop_with_weekdays (ts_date <$> ts) temps t0 Htemp) as [t1 Ht1].
  exists t1. split; [done|].
  unfold SingleKey.handle_temperature.
  rewrite (bind_ok _ _ _ _ _ (deref_ok _ _ _ Hh)).
  rewrite (bind_ok _ _ _ _ _ (try_ok _ _ _ _ Hd)).
  rewrite (bind_ok _ _ _ _ _ (try_ok _ _ _ _ (mapM_dt_date ts))).
  rewrite (bind_ok _ _ _ _ _ (update_ok _ _ _ _ Hh)).
  erewrite bind_ok; [|by apply deref_ok; simpl; apply lookup_insert_eq].
  erewrite bind_ok; [|by apply try_ok, getitem_setitem_eq].
  erewrite bind_ok; [|apply try_ok, mapM_cell_weekday].
  erewrite bind_ok; [|by eapply update_ok; simpl; apply lookup_insert_eq].
  simpl. rewrite insert_insert_eq.
  erewrite bind_ok; [|by apply deref_ok; simpl; apply lookup_insert_eq].
  erewrite bind_ok;
    [|apply try_ok; rewrite !getitem_setitem_ne by done; exact Htemp].
  erewrite bind_ok; [|by eapply update_ok; simpl; apply lookup_insert_eq].
  simpl. rewrite insert_insert_eq.
  erewrite bind_ok; [|by apply deref_ok; simpl; apply lookup_insert_eq].
  fold (with_weekdays (ts_date <$> ts) temps t0).
  erewrite bind_ok; [|apply try_ok; exact Ht1].
  erewrite update_ok; [|by simpl; apply lookup_insert_eq].
  simpl. by rewrite insert_insert_eq.
Qed.

(** The columns of the table that the temperature handling leaves. *)
Lemma completed_temperature_columns ds temps t0 t1 :
  drop "temperature" (with_weekdays ds temps t0) = Some t1 ->
  index t1 = index t0 /\
  getitem "date" t1 = Some (VDate <$> ds) /\
  getitem "weekday" t1 = Some (weekday_cells ds) /\
  getitem "temp_c" t1 = Some temps /\
  (NoDup (columns t0).*1 -> getitem "temperature" t1 = None).
Proof.
  intros Hdrop. split; [|split; [|split; [|split]]].
  - unfold drop in Hdrop. by apply fmap_Some in Hdrop as (cols & _ & ->).
  - rewrite (getitem_drop_ne _ _ _ _ Hdrop) by done. unfold with_weekdays.
    rewrite !getitem_setitem_ne by done. apply getitem_setitem_eq.
  - rewrite (getitem_drop_ne _ _ _ _ Hdrop) by done. unfold with_weekdays.
    rewrite getitem_setitem_ne by done. apply getitem_setitem_eq.
  - rewrite (getitem_drop_ne _ _ _ _ Hdrop) by done. apply getitem_setitem_eq.
  - intros Hnd. apply (getitem_drop_eq _ _ _ Hdrop).
    unfold with_weekdays. by do 3 apply setitem_NoDup.
Qed.

End TemperatureFacts.

(* ===================================================================== *)
(** * The small-fleet loop *)
(* ===================================================================== *)

Section FleetFacts.
Import Pandas Interp Script MultiKey.
Local Open Scope float_scope.


Lemma iterrows_rows_from s0 : iterrows s0 = rows_from s0 0 (len s0).
Proof. done. Qed.

Lemma rows_from_labels s0 j m : (rows_from s0 j m).*1 = seq j m.
Proof.
  unfold rows_from. rewrite <-list_fmap_compose.
  induction (seq j m) as [|k l IH]; [done|]. by rewrite fmap_cons, IH.
Qed.

Lemma small_fleet_loop_ok county scenario_csv s0 qs :
  getitem "fleet_size" s0 = Some (VNum <$> qs) ->
  length qs = len s0 ->
  forall m j s c a,
    (j + m)%nat = len s0 ->
    heap s !! scenario_csv = Some (setitem "fleet_size" (VNum <$> c) s0) ->
    length c = len s0 -> length a = len s0 ->
    exists c' a' tr,
      small_fleet_loop county scenario_csv (rows_from s0 j m) a s
      = (Ok a',
         State (<[scenario_csv := setitem "fleet_size" (VNum <$> c') s0]> (heap s))
               (stdin s) (trace s ++ tr)) /\
      length c' = len s0 /\ length a' = len s0 /\
      (forall k, ~ (j <= k < j + m)%nat -> c' !! k = c !! k /\ a' !! k = a !! k) /\
      (forall k q, (j <= k < j + m)%nat -> qs !! k = Some q ->
         c' !! k = (if (q <? floor_threshold)
                    then Some nominal_fleet else c !! k) /\
         a' !! k = (if (q <? floor_threshold)
                    then Some (q / nominal_fleet) else a !! k)).
Proof.
  intros Hfs Hlen. induction m as [|m IH]; intros j s c a Hj Hh Hc Ha.
  - exists c, a, []. simpl. rewrite app_nil_r. split.
    + unfold ret. f_equal. destruct s as [h i t]; simpl in *. f_equal.
      by rewrite insert_id.
    + repeat split; auto; intros; lia.
  - assert (j < length qs)%nat as Hjq by lia.
    destruct (lookup_lt_is_Some_2 qs j Hjq) as [q Hq].
    assert (row_getitem "fleet_size" (row_at j s0) = Some (VNum q)) as Hrow.
    { destruct s0 as [idx cols]. eapply row_getitem_row_at; [exact Hfs|].
      by rewrite list_lookup_fmap, Hq. }
    unfold rows_from. cbn [seq fmap list_fmap small_fleet_loop].
    rewrite (bind_ok _ _ _ _ _ (try_ok _ _ _ _ Hrow)).
    cbn [lt_num]. erewrite bind_ok; [|by apply try_ok].
    destruct ((q <? floor_threshold)) eqn:Hsmall.
    + erewrite bind_ok; [|by eapply mutate_ok].
      rewrite set_cell_setitem.
      cbn [div_num]. erewrite bind_ok; [|by apply try_ok].
      unfold array_set. rewrite (proj2 (Nat.ltb_lt j (length a))) by lia.
      erewrite bind_ok; [|done].
      unfold warning, emit. erewrite bind_ok; [|done].
      unfold array_get. rewrite list_lookup_insert_eq by lia.
      erewrite bind_ok; [|done]. erewrite bind_ok; [|done].
      cbn [heap stdin trace].
      match goal with
      | |- context [small_fleet_loop _ _ _ _ ?s1] =>
          destruct (IH (S j) s1 (<[j:=nominal_fleet]> c) (<[j:=q / nominal_fleet]> a))
            as (c' & a' & tr & Hrun & Hc' & Ha' & Hout & Hin)
      end; try (rewrite ?length_insert; simpl; lia).
      { simpl. rewrite lookup_insert_eq. by rewrite list_fmap_insert. }
      exists c', a'. eexists.
      fold (rows_from s0 (S j) m). rewrite Hrun. cbn [heap stdin trace].
      rewrite insert_insert_eq, <-!app_assoc. split; [reflexivity|].
      split; [done|]. split; [done|]. split.
      * intros k Hk. destruct (Hout k) as [-> ->]; [lia|].
        rewrite !list_lookup_insert_ne by lia. done.
      * intros k q' Hk Hq'. destruct (decide (k = j)) as [->|Hne].
        -- destruct (Hout j) as [-> ->]; [lia|].
           rewrite !list_lookup_insert_eq by lia.
           assert (q' = q) as -> by congruence. by rewrite Hsmall.
        -- destruct (Hin k q') as [-> ->]; [lia|done|].
           rewrite !list_lookup_insert_ne by lia. done.
    + destruct (IH (S j) s c a) as (c' & a' & tr & Hrun & Hc' & Ha' & Hout & Hin);
        try done; try lia.
      exists c', a', tr. fold (rows_from s0 (S j) m). rewrite Hrun.
      split; [done|]. split; [done|]. split; [done|]. split.
      * intros k Hk. apply Hout. lia.
      * intros k q' Hk Hq'. destruct (decide (k = j)) as [->|Hne].
        -- destruct (Hout j) as [-> ->]; [lia|].
           assert (q' = q) as -> by congruence. by rewrite Hsmall.
        -- apply Hin; [lia|done].
Qed.

End FleetFacts.

(* ===================================================================== *)
(** * The scaling of the results *)
(* ===================================================================== *)

Section ScaleFacts.
Import Pandas Interp Script MultiKey.
Local Open Scope float_scope.


Lemma mapM_mul_num q xs :
  mapM (mul_num q) (VNum <$> xs) = Some (VNum <$> ((fun x => x * q) <$> xs)).
Proof. apply mapM_Some. induction xs; simpl; constructor; auto. Qed.

Lemma mapM_mul_num_inv q vs rhs :
  mapM (mul_num q) vs = Some rhs -> scaled_column q vs rhs.
Proof.
  intros H. apply mapM_Some in H. induction H as [|v r vs rhs Hv _ IH].
  - by exists [].
  - destruct IH as (xs & -> & ->). destruct v as [x| | |]; try done.
    injection Hv as <-. by exists (x :: xs).
Qed.


Lemma setitems_foldl names rhs f :
  setitems names rhs f = foldl assign_step f (zip names (columns rhs)).
Proof. done. Qed.

Lemma index_assign l f : index (foldl assign_step f l) = index f.
Proof.
  revert f. induction l as [|[n [n' vs]] l IH]; intros f; simpl; [done|].
  by rewrite IH.
Qed.

Lemma getitem_assign_notin c l f :
  c ∉ l.*1 -> getitem c (foldl assign_step f l) = getitem c f.
Proof.
  revert f. induction l as [|[n [n' vs]] l IH]; intros f; simpl; [done|].
  rewrite not_elem_of_cons. intros [Hne Hnotin].
  rewrite IH by done. by apply getitem_setitem_ne.
Qed.

Lemma getitem_assign_in c n' vs l f :
  NoDup l.*1 -> (c, (n', vs)) ∈ l ->
  getitem c (foldl assign_step f l) = Some vs.
Proof.
  revert f. induction l as [|[n [n'' ws]] l IH]; intros f Hnd Hin; simpl.
  - by apply elem_of_nil in Hin.
  - rewrite fmap_cons in Hnd. apply NoDup_cons in Hnd as [Hn Hnd].
    apply elem_of_cons in Hin as [Heq|Hin].
    + injection Heq as <- <- <-. rewrite getitem_assign_notin by done.
      apply getitem_setitem_eq.
    + by apply IH.
Qed.

Lemma names_assign l f :
  (forall c, c ∈ l.*1 -> is_Some (getitem c f)) ->
  (columns (foldl assign_step f l)).*1 = (columns f).*1.
Proof.
  revert f. induction l as [|[n [n' vs]] l IH]; intros f H; simpl; [done|].
  rewrite IH.
  - apply store_names, H. rewrite fmap_cons. apply elem_of_cons. by left.
  - intros c Hc. destruct (decide (n = c)) as [->|Hne].
    + rewrite getitem_setitem_eq. by eexists.
    + rewrite getitem_setitem_ne by done. apply H.
      rewrite fmap_cons. apply elem_of_cons. by right.
Qed.

(** The columns of [df[names]]. *)
Lemma select_Some names f sel :
  select names f = Some sel ->
  index sel = index f /\
  Forall2 (fun n col => col.1 = n /\ getitem n f = Some col.2)
          names (columns sel).
Proof.
  unfold select. intros H. apply fmap_Some in H as (cols & Hm & ->).
  split; [done|]. simpl. apply mapM_Some in Hm.
  induction Hm as [|n col names cols Hn _ IH]; constructor; [|done].
  apply fmap_Some in Hn as (vs & Hvs & ->). done.
Qed.

(** The columns of [df * q]. *)
Lemma mul_scalar_Some q sel rhs :
  mul_scalar q sel = Some rhs ->
  index rhs = index sel /\
  Forall2 (fun col col' => col'.1 = col.1 /\ scaled_column q col.2 col'.2)
          (columns sel) (columns rhs).
Proof.
  unfold mul_scalar. intros H. apply fmap_Some in H as (cols & Hm & ->).
  split; [done|]. simpl. apply mapM_Some in Hm.
  induction Hm as [|[n vs] col' cs cs' Hn _ IH]; constructor; [|done].
  apply fmap_Some in Hn as (ws & Hws & ->). split; [done|].
  by apply mapM_mul_num_inv.
Qed.

Lemma power_columns_NoDup : NoDup power_columns.
Proof. apply (bool_decide_unpack _). by vm_compute. Qed.

(** What [scale_table] returns, when it returns. *)
Lemma scale_table_inv sf table table' s s' :
  scale_table sf table s = (Ok table', s') ->
  s' = s /\
  index table' = index table /\
  (columns table').*1 = (columns table).*1 /\
  (forall c, c ∉ power_columns -> getitem c table' = getitem c table) /\
  (forall c, c ∈ power_columns ->
     exists vs rhs, getitem c table = Some vs /\ getitem c table' = Some rhs /\
                    scaled_column sf vs rhs).
Proof.
  unfold scale_table. intros H.
  destruct (select power_columns table) as [sel|] eqn:Hsel; [|done].
  rewrite (bind_ok _ _ _ _ _ (try_ok _ _ _ _ eq_refl)) in H.
  destruct (mul_scalar sf sel) as [rhs|] eqn:Hmul; [|done].
  rewrite (bind_ok _ _ _ _ _ (try_ok _ _ _ _ eq_refl)) in H.
  injection H as <- <-.
  apply select_Some in Hsel as [_ Hsel].
  apply mul_scalar_Some in Hmul as [_ Hmul].
  assert (Forall2 (fun n col' => col'.1 = n /\ exists vs,
             getitem n table = Some vs /\ scaled_column sf vs col'.2)
           power_columns (columns rhs)) as Hall.
  { revert Hmul. generalize (columns rhs).
    induction Hsel as [|n col ns cs [Hn Hg] _ IH]; intros cs' Hmul;
      inversion Hmul as [|? col' ? cs'' [Hn' Hsc] Htl]; subst; constructor.
    - split; [congruence|]. by exists col.2.
    - by apply IH. }
  clear Hsel Hmul sel.
  assert ((zip power_columns (columns rhs)).*1 = power_columns) as Hfst.
  { apply fst_zip. by rewrite (Forall2_length _ _ _ Hall). }
  rewrite setitems_foldl. split; [done|]. split; [apply index_assign|].
  split; [|split].
  - apply names_assign. rewrite Hfst. intros c Hc.
    apply list_elem_of_lookup in Hc as [i Hi].
    destruct (Forall2_lookup_l _ _ _ _ _ Hall Hi) as (col' & _ & _ & vs & Hvs & _).
    by exists vs.
  - intros c Hc. apply getitem_assign_notin. by rewrite Hfst.
  - intros c Hc. apply list_elem_of_lookup in Hc as [i Hi].
    destruct (Forall2_lookup_l _ _ _ _ _ Hall Hi)
      as ([n' rs] & Hcol & Hn' & vs & Hvs & Hsc).
    exists vs, rs. split; [done|]. split; [|done].
    eapply (getitem_assign_in c n' rs).
    + rewrite Hfst. apply power_columns_NoDup.
    + apply list_elem_of_lookup. exists i. apply lookup_zip_with_Some.
      by exists c, (n', rs).
Qed.

(** [scale_table] returns on every scalable table. *)
Lemma scale_table_ok sf table s :
  scalable table -> exists table', scale_table sf table s = (Ok table', s).
Proof.
  intros H. unfold scale_table.
  assert (is_Some (mapM (fun n => pair n <$> getitem n table) power_columns))
    as [cols Hcols].
  { apply mapM_is_Some, Forall_forall. intros c Hc.
    destruct (H c Hc) as [xs Hxs]. simpl. rewrite Hxs. by eexists. }
  unfold select. rewrite Hcols. simpl.
  erewrite bind_ok; [|reflexivity].
  assert (is_Some (mapM (fun '(n, vs) => pair n <$> mapM (mul_num sf) vs) cols))
    as [cols' Hcols'].
  { apply mapM_is_Some, Forall_forall. intros [n vs] Hin.
    apply mapM_Some in Hcols.
    apply list_elem_of_lookup in Hin as [i Hi].
    destruct (Forall2_lookup_r _ _ _ _ _ Hcols Hi) as (c & Hc & Hg).
    apply fmap_Some in Hg as (ws & Hws & Heq). injection Heq as -> ->.
    destruct (H c) as [xs Hxs]; [by eapply list_elem_of_lookup_2|].
    simpl. assert (ws = VNum <$> xs) as -> by congruence.
    rewrite mapM_mul_num. by eexists. }
  unfold mul_scalar. simpl. rewrite Hcols'. simpl.
  erewrite bind_ok; [|reflexivity]. by eexists.
Qed.

End ScaleFacts.

Section ScaleLoopFacts.
Import Pandas Interp Script MultiKey.
Local Open Scope float_scope.

(** The scaling loop reads and writes no table of the heap and reports
    nothing. *)
Lemma scale_loop_state rows a r s : (scale_loop rows a r s).2 = s.
Proof.
  revert r. induction rows as [|[k rw] rows IH]; intros r; [done|].
  cbn [scale_loop]. unfold bind at 1, array_get.
  destruct (a !! k) as [sf|]; [|done]. cbn [try ret].
  destruct (sf =? 1); simpl; [apply IH|].
  unfold bind at 1. destruct (r !! k) as [table|]; [|done]. cbn [try ret].
  unfold bind at 1. unfold scale_table.
  destruct (select power_columns table) as [sel|]; [|done].
  rewrite (bind_ok _ _ _ _ _ (try_ok _ _ _ _ eq_refl)).
  destruct (mul_scalar sf sel) as [rhs|]; [|done].
  rewrite (bind_ok _ _ _ _ _ (try_ok _ _ _ _ eq_refl)).
  cbn [ret]. apply IH.
Qed.

(** What the scaling loop returns, when it returns. *)
Lemma scale_loop_inv rows a r s r' s' :
  NoDup rows.*1 ->
  scale_loop rows a r s = (Ok r', s') ->
  (forall k, k ∉ rows.*1 -> r' !! k = r !! k) /\
  (forall k, k ∈ rows.*1 ->
     exists sf, a !! k = Some sf /\
       ((sf =? 1) = true -> r' !! k = r !! k) /\
       ((sf =? 1) = false -> exists table table',
          r !! k = Some table /\ r' !! k = Some table' /\
          scale_table sf table s = (Ok table', s))).
Proof.
  revert r. induction rows as [|[k rw] rows IH]; intros r Hnd Hrun.
  - injection Hrun as <- <-. split; [done|]. intros k Hk.
    by apply elem_of_nil in Hk.
  - rewrite fmap_cons in Hnd. apply NoDup_cons in Hnd as [Hk Hnd].
    cbn [scale_loop] in Hrun. unfold bind at 1, array_get in Hrun.
    destruct (a !! k) as [sf|] eqn:Ha; [|done]. cbn [try ret] in Hrun.
    destruct (sf =? 1) eqn:Hsf; simpl in Hrun; cycle 1.
    + unfold bind at 1 in Hrun.
      destruct (r !! k) as [table|] eqn:Hr; [|done]. cbn [try ret] in Hrun.
      unfold bind at 1 in Hrun.
      destruct (scale_table sf table s) as [[table'|e] s1] eqn:Hst; [|done].
      destruct (scale_table_inv _ _ _ _ _ Hst) as [-> _].
      destruct (IH _ Hnd Hrun) as [Hout Hin]. split.
      * intros j Hj. rewrite fmap_cons in Hj.
        apply not_elem_of_cons in Hj as [Hne Hj].
        rewrite Hout by done. by rewrite lookup_insert_ne.
      * intros j Hj. rewrite fmap_cons in Hj.
        apply elem_of_cons in Hj as [->|Hj].
        -- exists sf. split; [done|]. split; [congruence|]. intros _.
           exists table, table'. rewrite Hout by done.
           by rewrite lookup_insert_eq.
        -- destruct (Hin j Hj) as (sf' & Ha' & H1 & H2).
           assert (j <> k) as Hne by (by intros ->).
           exists sf'. split; [done|]. split.
           ++ intros E. rewrite (H1 E). by rewrite lookup_insert_ne.
           ++ intros E. destruct (H2 E) as (tb & tb' & Htb & Htb' & Hs).
              exists tb, tb'. by rewrite lookup_insert_ne in Htb.
    + destruct (IH _ Hnd Hrun) as [Hout Hin]. split.
      * intros j Hj. rewrite fmap_cons in Hj.
        apply not_elem_of_cons in Hj as [Hne Hj]. by apply Hout.
      * intros j Hj. rewrite fmap_cons in Hj.
        apply elem_of_cons in Hj as [->|Hj]; [|by apply Hin].
        exists sf. split; [done|]. split; [|congruence]. intros _.
        by apply Hout.
Qed.

(** The scaling loop returns when every table it has to scale is
    scalable. *)
Lemma scale_loop_ok rows a r s :
  NoDup rows.*1 ->
  (forall k, k ∈ rows.*1 ->
     exists sf, a !! k = Some sf /\
       ((sf =? 1) = false ->
        exists table, r !! k = Some table /\ scalable table)) ->
  exists r', scale_loop rows a r s = (Ok r', s).
Proof.
  revert r. induction rows as [|[k rw] rows IH]; intros r Hnd H.
  - by exists r.
  - rewrite fmap_cons in Hnd. apply NoDup_cons in Hnd as [Hk Hnd].
    destruct (H k) as (sf & Ha & Hsf); [rewrite fmap_cons; by left|].
    cbn [scale_loop]. unfold array_get.
    erewrite bind_ok; [|by apply try_ok].
    destruct (sf =? 1) eqn:Hd; simpl; cycle 1.
    + destruct (Hsf eq_refl) as (table & Hr & Hsc).
      erewrite bind_ok; [|by apply try_ok].
      destruct (scale_table_ok sf table s Hsc) as [table' Ht].
      erewrite bind_ok; [|exact Ht].
      apply IH; [done|]. intros j Hj.
      destruct (H j) as (sf' & Ha' & Hsf'); [rewrite fmap_cons; by right|].
      exists sf'. split; [done|]. intros E.
      destruct (Hsf' E) as (tb & Htb & Hsb). exists tb. split; [|done].
      rewrite lookup_insert_ne; [done|]. by intros ->.
    + apply IH; [done|]. intros j Hj. apply H. rewrite fmap_cons. by right.
Qed.

Lemma iterrows_labels f : (iterrows f).*1 = seq 0 (len f).
Proof. rewrite iterrows_rows_from. apply rows_from_labels. Qed.


Lemma scale_factor_large q : floor_threshold <= q -> scale_factor q = 1.
Proof.
  intros H. unfold scale_factor. by rewrite (le_not_lt _ _ H).
Qed.

Lemma corrected_fleet_small q :
  q < floor_threshold -> corrected_fleet q = nominal_fleet.
Proof. intros H. unfold corrected_fleet. by rewrite H. Qed.

Lemma corrected_fleet_large q : floor_threshold <= q -> corrected_fleet q = q.
Proof.
  intros H. unfold corrected_fleet. by rewrite (le_not_lt _ _ H).
Qed.

(** Lines 45-52 on a table whose fleet sizes are the numbers [qs]. *)
Lemma handle_small_fleet_ok county scenario_csv s s0 qs :
  heap s !! scenario_csv = Some s0 ->
  getitem "fleet_size" s0 = Some (VNum <$> qs) ->
  length qs = len s0 ->
  exists tr,
    handle_small_fleet scenario_csv county s
    = (Ok (scale_factor <$> qs),
       State (<[scenario_csv :=
                  setitem "fleet_size" (VNum <$> (corrected_fleet <$> qs)) s0]>
                (heap s))
             (stdin s) (trace s ++ tr)).
Proof.
  intros Hh Hfs Hlen. unfold handle_small_fleet.
  rewrite (bind_ok _ _ _ _ _ (deref_ok _ _ _ Hh)).
  rewrite iterrows_rows_from.
  destruct (small_fleet_loop_ok county scenario_csv s0 qs Hfs Hlen
              (len s0) 0%nat s qs (replicate (len s0) 1))
    as (c' & a' & tr & Hrun & Hc' & Ha' & _ & Hin); try done.
  { rewrite Hh. f_equal. symmetry. by apply setitem_id. }
  { by rewrite length_replicate. }
  exists tr. rewrite Hrun.
  assert (c' = corrected_fleet <$> qs) as ->.
  { apply list_eq. intros k. rewrite list_lookup_fmap.
    destruct (qs !! k) as [q|] eqn:Hq.
    - destruct (Hin k q) as [-> _]; [|done|].
      { apply lookup_lt_Some in Hq. lia. }
      simpl. unfold corrected_fleet. rewrite Hq.
      by destruct ((q <? floor_threshold)).
    - simpl. apply lookup_ge_None. apply lookup_ge_None in Hq. lia. }
  assert (a' = scale_factor <$> qs) as ->; [|done].
  apply list_eq. intros k. rewrite list_lookup_fmap.
  destruct (qs !! k) as [q|] eqn:Hq.
  - destruct (Hin k q) as [_ ->]; [|done|].
    { apply lookup_lt_Some in Hq. lia. }
    simpl. unfold scale_factor.
    destruct ((q <? floor_threshold)); [done|].
    apply lookup_replicate_2. apply lookup_lt_Some in Hq. lia.
  - simpl. apply lookup_ge_None. apply lookup_ge_None in Hq. lia.
Qed.

End ScaleLoopFacts.

(* ===================================================================== *)
(** * [county_run] of the multi-key script *)
(* ===================================================================== *)

Section CountyRunFacts.
Import PyDate Pandas Interp Script MultiKey.
Local Open Scope float_scope.


Context (temp_run : external_model) (api_key county : string).
Context (s : state) (temp_csv scenario_csv : loc) (t0 s0 : frame)
        (ts : list timestamp) (temps : column) (qs : list float) (t1 : frame).
Context (Hin : county_input s temp_csv scenario_csv t0 s0 ts temps qs t1).

Let s1 := corrected_scenarios qs s0.
Let raw := temp_run s1 t1 api_key (Some county).

(** Lines 38-52: the state in which the external model is called and
    the factors recorded for the scaling loop. *)
Lemma county_run_prefix :
  exists tr,
    bind (handle_temperature temp_csv)
         (fun _ => handle_small_fleet scenario_csv county) s
    = (Ok (scale_factor <$> qs),
       State (<[scenario_csv := s1]> (<[temp_csv := t1]> (heap s)))
             (stdin s) (trace s ++ tr)).
Proof.
  destruct Hin as [Ht Hs Hne (cells & Hd & Hts) Htemp Hdone Hfs Hrows].
  destruct (mp_handle_temperature_ok s temp_csv t0 cells ts temps Ht Hd Hts Htemp)
    as (t1' & Ht1 & Hrun1).
  assert (t1' = t1) as -> by congruence.
  rewrite (bind_ok _ _ _ _ _ Hrun1).
  destruct (handle_small_fleet_ok county scenario_csv
              (State (<[temp_csv := t1]> (heap s)) (stdin s) (trace s)) s0 qs)
    as [tr Hrun2]; try done.
  { simpl. by rewrite lookup_insert_ne. }
  exists tr. exact Hrun2.
Qed.

(** The call up to the scaling loop. *)
Lemma county_run_unfold :
  exists tr,
    county_run temp_run temp_csv scenario_csv api_key county s
    = scale_loop (iterrows s1) (scale_factor <$> qs) raw
        (State (<[scenario_csv := s1]> (<[temp_csv := t1]> (heap s)))
               (stdin s) (trace s ++ tr)).
Proof.
  destruct Hin as [Ht Hs Hne (cells & Hd & Hts) Htemp Hdone Hfs Hrows].
  destruct (mp_handle_temperature_ok s temp_csv t0 cells ts temps Ht Hd Hts Htemp)
    as (t1' & Ht1 & Hrun1).
  assert (t1' = t1) as -> by congruence.
  unfold county_run. rewrite (bind_ok _ _ _ _ _ Hrun1).
  set (sA := State (<[temp_csv := t1]> (heap s)) (stdin s) (trace s)).
  assert (heap sA !! scenario_csv = Some s0) as HsA.
  { simpl. by rewrite lookup_insert_ne. }
  destruct (handle_small_fleet_ok county scenario_csv sA s0 qs HsA Hfs Hrows)
    as [tr Hrun2].
  rewrite (bind_ok _ _ _ _ _ Hrun2).
  exists (tr ++ [Log DEBUG [Txt ("Running with API key: " +:+ api_key)]])%list.
  unfold debug, emit. erewrite bind_ok; [|done].
  cbn [heap stdin trace sA].
  erewrite bind_ok; [|by apply deref_ok; simpl; apply lookup_insert_eq].
  erewrite bind_ok;
    [|by apply deref_ok; simpl; rewrite lookup_insert_ne by done;
         apply lookup_insert_eq].
  erewrite bind_ok; [|by apply deref_ok; simpl; apply lookup_insert_eq].
  by rewrite app_assoc.
Qed.

(** The state that the call leaves, whether it returns or raises in the
    scaling loop. *)
Lemma county_run_state :
  exists tr,
    (county_run temp_run temp_csv scenario_csv api_key county s).2
    = State (<[scenario_csv := s1]> (<[temp_csv := t1]> (heap s)))
            (stdin s) (trace s ++ tr).
Proof.
  destruct county_run_unfold as [tr ->]. exists tr. apply scale_loop_state.
Qed.

Lemma len_corrected : len s1 = len s0.
Proof. done. Qed.

Lemma scenario_label k : k ∈ (iterrows s1).*1 <-> (k < len s0)%nat.
Proof.
  rewrite iterrows_labels, len_corrected, elem_of_seq. lia.
Qed.

(** The call returns when the external model has answered for every
    scenario. *)
Lemma county_run_ok :
  returns_tables raw (len s0) ->
  exists res s',
    county_run temp_run temp_csv scenario_csv api_key county s = (Ok res, s').
Proof.
  intros Hraw. destruct county_run_unfold as [tr ->].
  edestruct (scale_loop_ok (iterrows s1) (scale_factor <$> qs) raw) as [r' Hr'].
  - rewrite iterrows_labels. apply NoDup_seq.
  - intros k Hk. apply scenario_label in Hk.
    destruct (lookup_lt_is_Some_2 qs k) as [q Hq];
      [by rewrite (ci_rows _ _ _ _ _ _ _ _ _ Hin)|].
    exists (scale_factor q). rewrite list_lookup_fmap, Hq. split; [done|].
    intros _. by apply Hraw.
  - eexists _, _. apply Hr'.
Qed.

(** The result of the call, scenario by scenario. *)
Lemma county_run_result res s' :
  county_run temp_run temp_csv scenario_csv api_key county s = (Ok res, s') ->
  (forall k, (len s0 <= k)%nat -> res !! k = raw !! k) /\
  (forall k q, qs !! k = Some q ->
     ((scale_factor q =? 1) = true -> res !! k = raw !! k) /\
     ((scale_factor q =? 1) = false -> exists table table',
        raw !! k = Some table /\ res !! k = Some table' /\
        index table' = index table /\
        (columns table').*1 = (columns table).*1 /\
        (forall c, c ∉ power_columns -> getitem c table' = getitem c table) /\
        (forall c, c ∈ power_columns ->
           exists vs rhs, getitem c table = Some vs /\
                          getitem c table' = Some rhs /\
                          scaled_column (scale_factor q) vs rhs))).
Proof.
  destruct county_run_unfold as [tr ->]. intros Hrun.
  apply scale_loop_inv in Hrun as [Hout Hinside];
    [|rewrite iterrows_labels; apply NoDup_seq].
  split.
  - intros k Hk. apply Hout. rewrite scenario_label. lia.
  - intros k q Hq.
    assert (k < len s0)%nat as Hk.
    { rewrite <-(ci_rows _ _ _ _ _ _ _ _ _ Hin). by eapply lookup_lt_Some. }
    destruct (Hinside k) as (sf & Hsf & H1 & H2); [by apply scenario_label|].
    rewrite list_lookup_fmap, Hq in Hsf. injection Hsf as <-.
    split; [done|]. intros Hne.
    destruct (H2 Hne) as (table & table' & Hr & Hr' & Hst).
    exists table, table'. split; [done|]. split; [done|].
    by destruct (scale_table_inv _ _ _ _ _ Hst) as (_ & ? & ? & ? & ?).
Qed.

End CountyRunFacts.

Section CountyRunScaled.
Import PyDate Pandas Interp Script MultiKey.
Local Open Scope float_scope.

(** Every scenario of the result, in terms of the recorded factor: the
    six power columns are those of the external result times the factor,
    in doubles (a factor 1 leaves the table as it is). *)
Lemma county_run_scaled temp_run api_key county s temp_csv scenario_csv
  t0 s0 ts temps qs t1 :
  county_input s temp_csv scenario_csv t0 s0 ts temps qs t1 ->
  let raw := temp_run (corrected_scenarios qs s0) t1 api_key (Some county) in
  returns_tables raw (len s0) ->
  exists res s',
    county_run temp_run temp_csv scenario_csv api_key county s = (Ok res, s') /\
    forall k q, qs !! k = Some q ->
      exists raw_k res_k,
        raw !! k = Some raw_k /\ res !! k = Some res_k /\
        forall c, c ∈ power_columns ->
          exists xs,
            getitem c raw_k = Some (VNum <$> xs) /\
            getitem c res_k
            = Some (VNum <$> scaled_by (scale_factor q) xs).
Proof.
  intros Hin raw Hraw.
  destruct (county_run_ok temp_run api_key county _ _ _ _ _ _ _ _ _ Hin Hraw)
    as (res & s' & Hrun).
  exists res, s'. split; [done|]. intros k q Hq.
  destruct (county_run_result temp_run api_key county _ _ _ _ _ _ _ _ _ Hin
              _ _ Hrun) as [_ Hres].
  destruct (Hres k q Hq) as [H1 H2].
  assert (k < len s0)%nat as Hk.
  { rewrite <-(ci_rows _ _ _ _ _ _ _ _ _ Hin). by eapply lookup_lt_Some. }
  destruct (Hraw k Hk) as (raw_k & Hrk & Hsc).
  unfold scaled_by. destruct (scale_factor q =? 1) eqn:E.
  - exists raw_k, raw_k. split; [done|]. split; [by rewrite (H1 eq_refl)|].
    intros c Hc. destruct (Hsc c Hc) as [xs Hxs]. by exists xs.
  - destruct (H2 eq_refl) as (table & table' & Ht & Ht' & _ & _ & _ & Hp).
    exists table, table'. split; [done|]. split; [done|].
    intros c Hc. destruct (Hp c Hc) as (vs & rhs & Hvs & Hrhs & xs & -> & ->).
    by exists xs.
Qed.

End CountyRunScaled.

(* ===================================================================== *)
(** * The fleet-size correction: claims *)
(* ===================================================================== *)

Section FleetClaims.
Import PyDate Pandas Interp Script MultiKey.
Local Open Scope float_scope.

Lemma nominal_below_threshold : nominal_fleet < floor_threshold.
Proof. done. Qed.


(** The sample call of C1 meets the hypotheses of the theorem. *)
Lemma sample_county_input (fleet : Z) :
  county_input (Demo.start fleet []) 0 1
    Demo.temp_table (Demo.scenario_table fleet 40000)
    [Timestamp (Date 2018 12 1) 0; Timestamp (Date 2018 12 3) 0]
    [Demo.num 2; Demo.num (-1)]
    [Float64.of_Z fleet; Float64.of_Z 40000]
    (Frame [Demo.num 0; Demo.num 1]
           [("date", [VDate (Date 2018 12 1); VDate (Date 2018 12 3)]);
            ("weekday", [Demo.num 5; Demo.num 0]);
            ("temp_c", [Demo.num 2; Demo.num (-1)])]).
Proof.
  constructor; try done.
  by exists [Demo.midnight 2018 12 1; Demo.midnight 2018 12 3].
Defined.

Lemma sample_result_scalable tag : scalable (Demo.result_table tag).
Proof.
  intros c Hc. unfold power_columns in Hc.
  repeat (apply elem_of_cons in Hc as [->|Hc]; [by eexists [_; _]|]).
  by apply elem_of_nil in Hc.
Defined.

Lemma sample_returns_tables s t api_key county n :
  n = len s -> returns_tables (Demo.temp_run s t api_key county) n.
Proof.
  intros -> k Hk. exists (Demo.result_table (default "" county)).
  split; [|apply sample_result_scalable].
  unfold Demo.temp_run. apply elem_of_list_to_map.
  - rewrite <-list_fmap_compose. simpl. rewrite list_fmap_id. apply NoDup_seq.
  - apply list_elem_of_fmap. exists k. split; [done|]. apply elem_of_seq. lia.
Defined.


(** C2, as stated, fails.  A fleet of 20,000 vehicles is not below
    10,000, yet the loop records the factor 2, writes 10,000 into the
    scenario table and the returned [home_l1] column is twice the
    external one. *)
Lemma C2_counterexample :
  let s := Demo.start 20000 [] in
  let recorded :=
    bind (handle_temperature 0) (fun _ => handle_small_fleet 1 "Albany") s in
  let after := county_run Demo.temp_run 0 1 Demo.key_A "Albany" s in
  10000 <= 20000 /\
  heap s !! 1%nat ≫= getitem "fleet_size"
  = Some [Demo.num 20000; Demo.num 40000] /\
  recorded.1 = Ok [2; 1] /\
  (2 =? 1) = false /\
  heap_column after 1 "fleet_size" = Some [Demo.num 10000; Demo.num 40000] /\
  Demo.temp_run (corrected_scenarios [Float64.of_Z 20000; Float64.of_Z 40000]
                                     (Demo.scenario_table 20000 40000))
                Demo.temp_table Demo.key_A (Some "Albany")
    !! 0%nat ≫= getitem "home_l1"
  = Some [Demo.num 100; Demo.num 200] /\
  result_column after 0 "home_l1" = Some [Demo.num 200; Demo.num 400].
Proof.
  repeat split; try done; apply (bool_decide_unpack _); by vm_compute.
Qed.

(** C2, amended.  For a scenario whose fleet size is at least 30,000,
    the threshold that the loop tests, the correction is the identity:
    the recorded factor is 1, the fleet size stays in the caller's table
    and the returned table is the external one.  Here [recorded] is the
    array [scaling_factor] when the external model is called, [mid] the
    state at that point and [raw] the result of the external call; the
    scenario table has the default index and the comparison is that of
    the doubles. *)
Theorem C2_identity_from_threshold temp_run api_key county s
  temp_csv scenario_csv t0 s0 ts temps qs t1 :
  county_input s temp_csv scenario_csv t0 s0 ts temps qs t1 ->
  default_indexed s0 ->
  returns_tables
    (temp_run (corrected_scenarios qs s0) t1 api_key (Some county))
    (len s0) ->
  exists recorded mid s1 raw res s',
    bind (handle_temperature temp_csv)
         (fun _ => handle_small_fleet scenario_csv county) s
    = (Ok recorded, mid) /\
    heap mid !! temp_csv = Some t1 /\
    heap mid !! scenario_csv = Some s1 /\
    raw = temp_run s1 t1 api_key (Some county) /\
    county_run temp_run temp_csv scenario_csv api_key county s = (Ok res, s') /\
    forall k q, qs !! k = Some q -> 30000 <= q ->
      recorded !! k = Some 1 /\
      getitem "fleet_size" s1 ≫= (.!! k) = Some (VNum q) /\
      (heap s' !! scenario_csv ≫= getitem "fleet_size") ≫= (.!! k)
      = Some (VNum q) /\
      res !! k = raw !! k.
Proof.
  intros Hin _ Hraw.
  destruct (county_run_ok temp_run api_key county _ _ _ _ _ _ _ _ _ Hin Hraw)
    as (res & s' & Hrun).
  destruct (county_run_state temp_run api_key county _ _ _ _ _ _ _ _ _ Hin)
    as [tr Hstate].
  rewrite Hrun in Hstate. simpl in Hstate. subst s'.
  destruct (county_run_result temp_run api_key county _ _ _ _ _ _ _ _ _ Hin
              _ _ Hrun) as [_ Hres].
  destruct (county_run_prefix county _ _ _ _ _ _ _ _ _ Hin) as [tr2 Hpre].
  pose proof (ci_distinct _ _ _ _ _ _ _ _ _ Hin) as Hne.
  eexists _, _, (corrected_scenarios qs s0), _, res, _.
  split; [exact Hpre|]. simpl.
  split; [by rewrite lookup_insert_ne by done; apply lookup_insert_eq|].
  split; [apply lookup_insert_eq|]. split; [reflexivity|].
  split; [exact Hrun|]. intros k q Hq Hlarge.
  assert (getitem "fleet_size" (corrected_scenarios qs s0) ≫= (.!! k)
          = Some (VNum q)) as Hcell.
  { unfold corrected_scenarios. rewrite getitem_setitem_eq. simpl.
    rewrite !list_lookup_fmap, Hq. simpl. by rewrite corrected_fleet_large. }
  split; [|split; [done|split]].
  - rewrite list_lookup_fmap, Hq. simpl. by rewrite scale_factor_large.
  - simpl. rewrite lookup_insert_eq. exact Hcell.
  - destruct (Hres k q Hq) as [H1 _]. apply H1.
    by rewrite scale_factor_large.
Qed.

Lemma C2_witness :
  exists recorded mid s1 raw res s',
    bind (handle_temperature 0) (fun _ => handle_small_fleet 1 "Albany")
         (Demo.start 5000 [])
    = (Ok recorded, mid) /\
    heap mid !! 0%nat
    = Some (Frame [Demo.num 0; Demo.num 1]
              [("date", [VDate (Date 2018 12 1); VDate (Date 2018 12 3)]);
               ("weekday", [Demo.num 5; Demo.num 0]);
               ("temp_c", [Demo.num 2; Demo.num (-1)])]) /\
    heap mid !! 1%nat = Some s1 /\
    raw = Demo.temp_run s1
            (Frame [Demo.num 0; Demo.num 1]
               [("date", [VDate (Date 2018 12 1); VDate (Date 2018 12 3)]);
                ("weekday", [Demo.num 5; Demo.num 0]);
                ("temp_c", [Demo.num 2; Demo.num (-1)])])
            Demo.key_A (Some "Albany") /\
    county_run Demo.temp_run 0 1 Demo.key_A "Albany" (Demo.start 5000 [])
    = (Ok res, s') /\
    forall k q, [Float64.of_Z 5000; Float64.of_Z 40000] !! k = Some q ->
                30000 <= q ->
      recorded !! k = Some 1 /\
      getitem "fleet_size" s1 ≫= (.!! k) = Some (VNum q) /\
      (heap s' !! 1%nat ≫= getitem "fleet_size") ≫= (.!! k) = Some (VNum q) /\
      res !! k = raw !! k.
Proof.
  apply (C2_identity_from_threshold Demo.temp_run Demo.key_A "Albany"
           _ _ _ _ _ _ _ _ _ (sample_county_input 5000)).
  - reflexivity.
  - by apply sample_returns_tables.
Defined.

(** C6.  The scaling step changes nothing but the six power columns of
    the scenarios whose factor is not 1.  For a scenario table with the
    default index, with [recorded] the array [scaling_factor] when the
    external model is called and [raw] the result of that call: in every table of the returned result the time
    index, the names and order of the columns and every column outside
    the six are those of the table of [raw]; the table of a scenario
    whose factor is 1, and any table that belongs to no scenario, is the
    table of [raw] itself.  The call returns when the external model has
    answered for every scenario. *)
Theorem C6_scaling_frame temp_run api_key county s
  temp_csv scenario_csv t0 s0 ts temps qs t1 :
  county_input s temp_csv scenario_csv t0 s0 ts temps qs t1 ->
  default_indexed s0 ->
  exists recorded mid s1 raw,
    bind (handle_temperature temp_csv)
         (fun _ => handle_small_fleet scenario_csv county) s
    = (Ok recorded, mid) /\
    heap mid !! temp_csv = Some t1 /\
    heap mid !! scenario_csv = Some s1 /\
    raw = temp_run s1 t1 api_key (Some county) /\
    (returns_tables raw (len s0) ->
     exists res s',
       county_run temp_run temp_csv scenario_csv api_key county s
       = (Ok res, s')) /\
    forall res s',
      county_run temp_run temp_csv scenario_csv api_key county s
      = (Ok res, s') ->
      forall k,
        match raw !! k, res !! k with
        | Some table, Some table' =>
            index table' = index table /\
            (columns table').*1 = (columns table).*1 /\
            forall c, c ∉ power_columns -> getitem c table' = getitem c table
        | None, None => True
        | _, _ => False
        end /\
        (recorded !! k = Some 1 -> res !! k = raw !! k) /\
        (recorded !! k = None -> res !! k = raw !! k).
Proof.
  intros Hin _.
  destruct (county_run_prefix county _ _ _ _ _ _ _ _ _ Hin) as [tr Hpre].
  pose proof (ci_distinct _ _ _ _ _ _ _ _ _ Hin) as Hne.
  eexists _, _, (corrected_scenarios qs s0), _.
  split; [exact Hpre|]. simpl.
  split; [by rewrite lookup_insert_ne by done; apply lookup_insert_eq|].
  split; [apply lookup_insert_eq|]. split; [reflexivity|].
  set (raw := temp_run (corrected_scenarios qs s0) t1 api_key (Some county)).
  split.
  { apply (county_run_ok temp_run api_key county _ _ _ _ _ _ _ _ _ Hin). }
  intros res s' Hrun k.
  destruct (county_run_result temp_run api_key county _ _ _ _ _ _ _ _ _ Hin
              _ _ Hrun) as [Hout Hres].
  fold raw in Hout, Hres. rewrite list_lookup_fmap.
  assert (qs !! k = None -> res !! k = raw !! k) as Hnone.
  { intros Hk. apply Hout. apply lookup_ge_None in Hk.
    by rewrite <-(ci_rows _ _ _ _ _ _ _ _ _ Hin). }
  destruct (qs !! k) as [q|] eqn:Hq; simpl.
  - destruct (Hres k q Hq) as [H1 H2]. split; [|split; [|done]].
    + destruct (scale_factor q =? 1) eqn:E.
      * rewrite (H1 eq_refl). by destruct (raw !! k).
      * destruct (H2 eq_refl) as (table & table' & -> & -> & ? & ? & ? & _).
        done.
    + intros [= E]. apply H1. by rewrite E.
  - rewrite (Hnone eq_refl). split; [by destruct (raw !! k)|]. done.
Qed.

Lemma C6_witness :
  exists recorded mid s1 raw,
    bind (handle_temperature 0) (fun _ => handle_small_fleet 1 "Albany")
         (Demo.start 5000 [])
    = (Ok recorded, mid) /\
    heap mid !! 0%nat
    = Some (Frame [Demo.num 0; Demo.num 1]
              [("date", [VDate (Date 2018 12 1); VDate (Date 2018 12 3)]);
               ("weekday", [Demo.num 5; Demo.num 0]);
               ("temp_c", [Demo.num 2; Demo.num (-1)])]) /\
    heap mid !! 1%nat = Some s1 /\
    raw = Demo.temp_run s1
            (Frame [Demo.num 0; Demo.num 1]
               [("date", [VDate (Date 2018 12 1); VDate (Date 2018 12 3)]);
                ("weekday", [Demo.num 5; Demo.num 0]);
                ("temp_c", [Demo.num 2; Demo.num (-1)])])
            Demo.key_A (Some "Albany") /\
    (returns_tables raw 2 ->
     exists res s',
       county_run Demo.temp_run 0 1 Demo.key_A "Albany" (Demo.start 5000 [])
       = (Ok res, s')) /\
    forall res s',
      county_run Demo.temp_run 0 1 Demo.key_A "Albany" (Demo.start 5000 [])
      = (Ok res, s') ->
      forall k,
        match raw !! k, res !! k with
        | Some table, Some table' =>
            index table' = index table /\
            (columns table').*1 = (columns table).*1 /\
            forall c, c ∉ power_columns -> getitem c table' = getitem c table
        | None, None => True
        | _, _ => False
        end /\
        (recorded !! k = Some 1 -> res !! k = raw !! k) /\
        (recorded !! k = None -> res !! k = raw !! k).
Proof.
  exact (C6_scaling_frame Demo.temp_run Demo.key_A "Albany"
           _ _ _ _ _ _ _ _ _ (sample_county_input 5000) eq_refl).
Defined.

(** C10.  [county_run] works on the caller's tables, not on copies.
    Whether the call returns or raises in the scaling loop, the caller's
    temperature table has afterwards no [temperature] column, a [weekday]
    column and a [temp_c] column holding the former temperatures, and
    every fleet size of the caller's scenario table (a table with the
    default index) that was below the threshold of the loop is 10,000.  The single-key [county_run] changes
    the temperature table in the same way (it has no fleet-size loop). *)
Theorem C10_county_run_mutates_inputs :
  (forall temp_run api_key county s temp_csv scenario_csv
          t0 s0 ts temps qs t1,
     county_input s temp_csv scenario_csv t0 s0 ts temps qs t1 ->
     default_indexed s0 ->
     NoDup (columns t0).*1 ->
     let after := county_run temp_run temp_csv scenario_csv api_key county s in
     heap after.2 !! temp_csv = Some t1 /\
     getitem "temperature" t1 = None /\
     getitem "weekday" t1 = Some (weekday_cells (ts_date <$> ts)) /\
     getitem "temp_c" t1 = Some temps /\
     exists s1 fleet,
       heap after.2 !! scenario_csv = Some s1 /\
       getitem "fleet_size" s1 = Some fleet /\
       forall k q, qs !! k = Some q ->
         fleet !! k = Some (VNum (if q <? 30000 then 10000 else q)))
  /\
  (forall temp_run api_key s temp_csv scenario_csv t0 s0 ts temps,
     heap s !! temp_csv = Some t0 ->
     heap s !! scenario_csv = Some s0 ->
     temp_csv <> scenario_csv ->
     getitem "date" t0 = Some (VStamp <$> ts) ->
     getitem "temperature" t0 = Some temps ->
     NoDup (columns t0).*1 ->
     let after := SingleKey.county_run temp_run temp_csv scenario_csv api_key s in
     exists t1,
       heap after.2 !! temp_csv = Some t1 /\
       getitem "temperature" t1 = None /\
       getitem "weekday" t1 = Some (weekday_cells (ts_date <$> ts)) /\
       getitem "temp_c" t1 = Some temps /\
       heap after.2 !! scenario_csv = Some s0).
Proof.
  split.
  - intros temp_run api_key county s temp_csv scenario_csv t0 s0 ts temps
           qs t1 Hin _ Hnd after.
    destruct (county_run_state temp_run api_key county _ _ _ _ _ _ _ _ _ Hin)
      as [tr Hstate].
    subst after. rewrite Hstate. simpl.
    destruct (completed_temperature_columns _ _ _ _
                (ci_done _ _ _ _ _ _ _ _ _ Hin)) as (_ & _ & Hw & Hc & Hgone).
    split.
    { pose proof (ci_distinct _ _ _ _ _ _ _ _ _ Hin) as Hne.
      rewrite lookup_insert_ne by done. apply lookup_insert_eq. }
    split; [by apply Hgone|]. split; [done|]. split; [done|].
    eexists _, _. split; [apply lookup_insert_eq|].
    split; [apply getitem_setitem_eq|].
    intros k q Hq. rewrite !list_lookup_fmap, Hq. done.
  - intros temp_run api_key s temp_csv scenario_csv t0 s0 ts temps
           Ht Hs Hne Hd Htemp Hnd after.
    destruct (sk_handle_temperature_ok s temp_csv t0 ts temps Ht Hd Htemp)
      as (t1 & Hdrop & Hrun).
    exists t1. subst after. unfold SingleKey.county_run.
    rewrite (bind_ok _ _ _ _ _ Hrun).
    erewrite bind_ok;
      [|by apply deref_ok; simpl; rewrite lookup_insert_ne by done].
    erewrite bind_ok; [|by apply deref_ok; simpl; apply lookup_insert_eq].
    simpl.
    destruct (completed_temperature_columns _ _ _ _ Hdrop)
      as (_ & _ & Hw & Hc & Hgone).
    split; [apply lookup_insert_eq|]. split; [by apply Hgone|].
    split; [done|]. split; [done|]. by rewrite lookup_insert_ne.
Qed.

Lemma C10_witness :
  let after :=
    county_run Demo.temp_run 0 1 Demo.key_A "Albany" (Demo.start 5000 []) in
  let t1 :=
    Frame [Demo.num 0; Demo.num 1]
      [("date", [VDate (Date 2018 12 1); VDate (Date 2018 12 3)]);
       ("weekday", [Demo.num 5; Demo.num 0]);
       ("temp_c", [Demo.num 2; Demo.num (-1)])] in
  heap after.2 !! 0%nat = Some t1 /\
  getitem "temperature" t1 = None /\
  getitem "weekday" t1
  = Some (weekday_cells [Date 2018 12 1; Date 2018 12 3]) /\
  getitem "temp_c" t1 = Some [Demo.num 2; Demo.num (-1)] /\
  exists s1 fleet,
    heap after.2 !! 1%nat = Some s1 /\
    getitem "fleet_size" s1 = Some fleet /\
    forall k q, [Float64.of_Z 5000; Float64.of_Z 40000] !! k = Some q ->
      fleet !! k = Some (VNum (if q <? 30000 then 10000 else q)).
Proof.
  apply (proj1 C10_county_run_mutates_inputs Demo.temp_run Demo.key_A "Albany"
           _ _ _ _ _ _ _ _ _ (sample_county_input 5000)).
  - reflexivity.
  - apply (bool_decide_unpack _). by vm_compute.
Defined.

End FleetClaims.

(* ===================================================================== *)
(** * Strings and key files *)
(* ===================================================================== *)

Section StringFacts.
Import PyStr.

Lemma app_cons c (a b : string) : String c a +:+ b = String c (a +:+ b).
Proof. done. Qed.

Lemma len_app (a b : string) : len (a +:+ b) = (len a + len b)%nat.
Proof.
  unfold len. induction a as [|c a IH]; [done|].
  rewrite app_cons. simpl. by rewrite IH.
Qed.

Lemma truthy_len s n : len s = S n -> truthy s = true.
Proof. by destruct s. Qed.

Lemma isspace_newline : isspace newline = true.
Proof. done. Qed.

Lemma no_space_cons c k :
  no_space (String c k) <-> isspace c = false /\ no_space k.
Proof.
  unfold no_space. simpl. rewrite andb_true_iff, negb_true_iff. done.
Qed.

(** A text without white space followed by a line end is one line. *)
Lemma lines_single k : no_space k -> lines (k +:+ LF) = [k +:+ LF].
Proof.
  induction k as [|c k IH]; [done|]. intros [Hc Hk]%no_space_cons.
  rewrite !app_cons. cbn [lines]. destruct (Ascii.eqb_spec c newline) as [->|_].
  - by rewrite isspace_newline in Hc.
  - by rewrite (IH Hk).
Qed.

Lemma rstrip_line k : no_space k -> rstrip (k +:+ LF) = k.
Proof.
  induction k as [|c k IH]; [done|]. intros [Hc Hk]%no_space_cons.
  rewrite !app_cons. cbn [rstrip]. rewrite (IH Hk). destruct k; [by rewrite Hc|done].
Qed.

Lemma lstrip_no_space c k :
  no_space (String c k) -> lstrip (String c k +:+ LF) = String c k +:+ LF.
Proof.
  intros [Hc Hk]%no_space_cons. rewrite !app_cons. cbn [lstrip]. by rewrite Hc.
Qed.

(** Stripping the line of a key file gives the key back. *)
Lemma strip_line k : no_space k -> strip (k +:+ LF) = k.
Proof.
  intros Hk. unfold strip. destruct k as [|c k]; [done|].
  rewrite lstrip_no_space by done. by apply rstrip_line.
Qed.

End StringFacts.

Section KeyFacts.
Import PyStr Pandas Interp Script.

Lemma logged_nil s : logged s [] = s.
Proof. destruct s. unfold logged. simpl. by rewrite app_nil_r. Qed.

Lemma logged_logged s tr1 tr2 :
  logged (logged s tr1) tr2 = logged s (tr1 ++ tr2).
Proof. unfold logged. simpl. by rewrite app_assoc. Qed.

Lemma emit_logged ev s : emit ev s = (Ok tt, logged s [ev]).
Proof. done. Qed.

Lemma key_test k :
  truthy k && (PyStr.len k =? 40)%nat = bool_decide (valid_key k).
Proof.
  unfold valid_key. destruct (Nat.eqb_spec (PyStr.len k) 40) as [E|E].
  - rewrite (truthy_len _ _ E). by rewrite bool_decide_eq_true_2.
  - rewrite andb_false_r. by rewrite bool_decide_eq_false_2.
Qed.

(** Lines 107-112: the lines whose stripped text has 40 characters join
    the pool, in the order of the file; every other line is reported. *)
Lemma read_keys_spec file_lines pool s :
  MultiKey.read_keys file_lines pool s
  = (Ok (pool ++ accepted file_lines), logged s (rejections file_lines)).
Proof.
  revert pool s. induction file_lines as [|line rest IH]; intros pool s.
  - simpl. by rewrite app_nil_r, logged_nil.
  - cbn [MultiKey.read_keys]. rewrite key_test.
    unfold accepted, rejections. rewrite fmap_cons.
    destruct (decide (valid_key (strip line))) as [Hv|Hv].
    + rewrite bool_decide_eq_true_2 by done. rewrite IH.
      rewrite filter_cons_True by done.
      rewrite (filter_cons_False _ line) by (by intros H; apply H).
      by rewrite <-app_assoc.
    + rewrite bool_decide_eq_false_2 by done.
      unfold warning. rewrite (bind_ok _ _ _ _ _ (emit_logged _ _)).
      rewrite IH, logged_logged.
      rewrite filter_cons_False by done.
      by rewrite (filter_cons_True _ line) by done.
Qed.

(** The typed key. *)
Lemma ask_api_key_spec pool s :
  MultiKey.ask_api_key pool s
  = match stdin s with
    | [] => (Raise EOFError,
             State (heap s) [] (trace s ++ [Prompt "Enter API key: "]))
    | k :: rest =>
        let s1 := State (heap s) rest (trace s ++ [Prompt "Enter API key: "]) in
        if bool_decide (valid_key k)
        then (Ok (pool ++ [k], 1%nat), s1)
        else (Raise SystemExit,
              logged s1 [Log CRITICAL
                           [Txt "Invalid API key. Please check your API key."]])
    end.
Proof.
  unfold MultiKey.ask_api_key, bind, input.
  destruct (stdin s) as [|k rest]; [done|].
  unfold valid_key. destruct (Nat.eqb_spec (PyStr.len k) 40) as [E|E]; simpl.
  - by rewrite bool_decide_eq_true_2.
  - by rewrite bool_decide_eq_false_2.
Qed.

(** The pool handed to the dispatch is never empty and [n_api_key] is its
    length. *)
Lemma setup_api_key_size file s pool n s' :
  MultiKey.setup_api_key file s = (Ok (pool, n), s') ->
  n = length pool /\ (1 <= n)%nat.
Proof.
  unfold MultiKey.setup_api_key. destruct file as [text|].
  - rewrite (bind_ok _ _ _ _ _ (read_keys_spec _ _ _)). simpl.
    destruct (Nat.ltb_spec 0 (length (accepted (lines text)))) as [Hn|Hn].
    + unfold info. rewrite (bind_ok _ _ _ _ _ (emit_logged _ _)).
      intros [= <- <- <-]. split; [done|lia].
    + unfold warning. rewrite (bind_ok _ _ _ _ _ (emit_logged _ _)).
      rewrite ask_api_key_spec.
      destruct (stdin _) as [|k rest]; [done|]. simpl.
      destruct (bool_decide (valid_key k)); [|done].
      intros [= <- <- <-]. rewrite length_app.
      destruct (accepted (lines text)); simpl in *; [done|lia].
  - unfold warning. rewrite (bind_ok _ _ _ _ _ (emit_logged _ _)).
    rewrite ask_api_key_spec.
    destruct (stdin _) as [|k rest]; [done|]. simpl.
    destruct (bool_decide (valid_key k)); [|done].
    by intros [= <- <- <-].
Qed.

End KeyFacts.

(* ===================================================================== *)
(** * Which steps hand tasks to the executor *)
(* ===================================================================== *)

Section QuietFacts.
Import PyStr Pandas Interp Script.

Lemma submitted_app tr1 tr2 :
  submitted (tr1 ++ tr2) = submitted tr1 ++ submitted tr2.
Proof. apply omap_app. Qed.

Lemma quiet_ret {A} (a : A) : quiet (ret a).
Proof. done. Qed.

Lemma quiet_raise {A} e : quiet (@raise A e).
Proof. done. Qed.

Lemma quiet_try {A} e (o : option A) : quiet (try e o).
Proof. by destruct o. Qed.

Lemma quiet_bind {A B} (m : M A) (k : A -> M B) :
  quiet m -> (forall a, quiet (k a)) -> quiet (bind m k).
Proof.
  intros Hm Hk s. unfold bind. specialize (Hm s).
  destruct (m s) as [[a|e] s1]; simpl in *; [|done].
  by rewrite Hk.
Qed.

Lemma quiet_emit ev : submitted [ev] = [] -> quiet (emit ev).
Proof.
  intros H s. unfold emit. simpl. rewrite submitted_app, H. apply app_nil_r.
Qed.

Lemma quiet_log lv msg : quiet (emit (Log lv msg)).
Proof. by apply quiet_emit. Qed.

Lemma quiet_deref l : quiet (deref l).
Proof. intros s. unfold deref. by destruct (heap s !! l). Qed.

Lemma quiet_mutate l g : quiet (mutate l g).
Proof. intros s. unfold mutate. by destruct (heap s !! l). Qed.

Lemma quiet_input msg : quiet (input msg).
Proof.
  intros s. unfold input.
  destruct (stdin s); simpl; rewrite submitted_app; apply app_nil_r.
Qed.

Lemma quiet_array_get {A} k (a : list A) : quiet (array_get k a).
Proof. apply quiet_try. Qed.

Lemma quiet_array_set {A} k (v : A) a : quiet (array_set k v a).
Proof. unfold array_set. by destruct (k <? length a)%nat. Qed.

End QuietFacts.

Create HintDb quiet.

#[export] Hint Resolve quiet_ret quiet_raise quiet_try quiet_log quiet_deref
  quiet_mutate quiet_input quiet_array_get quiet_array_set : quiet.
#[export] Hint Extern 1 (quiet (Interp.emit _)) =>
  apply quiet_emit; reflexivity : quiet.
#[export] Hint Unfold Interp.info Interp.warning Interp.critical Interp.debug
  Interp.sys_exit Script.update : quiet.

(** Goes through a sequence of statements, one bind at a time. *)
Ltac quiet_steps :=
  repeat first
    [ apply quiet_bind; [|intros ?]
    | match goal with
      | |- quiet (if ?b then _ else _) => destruct b
      | |- quiet (match ?o with _ => _ end) => destruct o
      end
    | solve [autounfold with quiet; eauto with quiet] ].

Section QuietScripts.
Import PyStr Pandas Interp Script.

Lemma quiet_setup_directories env : quiet (setup_directories env).
Proof. unfold setup_directories. quiet_steps. Qed.

Lemma quiet_read_keys file_lines pool : quiet (MultiKey.read_keys file_lines pool).
Proof.
  revert pool. induction file_lines as [|line rest IH]; intros pool;
    cbn [MultiKey.read_keys]; quiet_steps; apply IH.
Qed.

Lemma quiet_mp_setup_api_key file : quiet (MultiKey.setup_api_key file).
Proof.
  unfold MultiKey.setup_api_key, MultiKey.ask_api_key.
  destruct file; quiet_steps; apply quiet_read_keys.
Qed.

Lemma quiet_sk_setup_api_key file : quiet (SingleKey.setup_api_key file).
Proof. unfold SingleKey.setup_api_key. destruct file; quiet_steps. Qed.

Lemma quiet_mp_handle_temperature l : quiet (MultiKey.handle_temperature l).
Proof. unfold MultiKey.handle_temperature. quiet_steps. Qed.

Lemma quiet_sk_handle_temperature l : quiet (SingleKey.handle_temperature l).
Proof. unfold SingleKey.handle_temperature. quiet_steps. Qed.

Lemma quiet_small_fleet_loop county l rows a :
  quiet (MultiKey.small_fleet_loop county l rows a).
Proof.
  revert a. induction rows as [|[k r] rows IH]; intros a;
    cbn [MultiKey.small_fleet_loop]; quiet_steps; apply IH.
Qed.

Lemma quiet_scale_loop rows a r : quiet (MultiKey.scale_loop rows a r).
Proof. intros s. by rewrite scale_loop_state. Qed.

Lemma quiet_mp_county_run temp_run t sc key county :
  quiet (MultiKey.county_run temp_run t sc key county).
Proof.
  unfold MultiKey.county_run, MultiKey.handle_small_fleet.
  quiet_steps;
    first [ apply quiet_small_fleet_loop | apply quiet_scale_loop ].
Qed.

Lemma quiet_sk_county_run temp_run t sc key :
  quiet (SingleKey.county_run temp_run t sc key).
Proof.
  unfold SingleKey.county_run. quiet_steps.
Qed.

Lemma quiet_mp_scenario_sink fig out county m rows r :
  quiet (MultiKey.scenario_sink fig out county m rows r).
Proof.
  induction rows as [|[k rw] rows IH]; cbn [MultiKey.scenario_sink];
    quiet_steps; apply IH.
Qed.

Lemma quiet_sk_scenario_sink fig out county rows r :
  quiet (SingleKey.scenario_sink fig out county rows r).
Proof.
  induction rows as [|[k rw] rows IH]; cbn [SingleKey.scenario_sink];
    quiet_steps; apply IH.
Qed.

Lemma quiet_mp_completed_loop temp_run i order futures w fig out m :
  quiet (MultiKey.completed_loop temp_run i order futures w fig out m).
Proof.
  revert i. induction order as [|fut rest IH]; intros i;
    cbn [MultiKey.completed_loop]; unfold MultiKey.future_result;
    quiet_steps;
    first [ apply IH | apply quiet_small_fleet_loop
          | apply quiet_scale_loop | apply quiet_mp_scenario_sink ].
Qed.

Lemma quiet_sk_completed_loop temp_run i order futures w fig out :
  quiet (SingleKey.completed_loop temp_run i order futures w fig out).
Proof.
  revert i. induction order as [|fut rest IH]; intros i;
    cbn [SingleKey.completed_loop]; unfold SingleKey.future_result;
    quiet_steps;
    first [ apply IH | apply quiet_sk_scenario_sink ].
Qed.

End QuietScripts.

(* ===================================================================== *)
(** * Credentials: claims *)
(* ===================================================================== *)

Section KeyClaims.
Import PyStr Pandas Interp Script.

Lemma bind_state_ok {A B} (m : M A) (k : A -> M B) s a s1 :
  m s = (Ok a, s1) -> quiet (k a) ->
  submitted (trace (bind m k s).2) = submitted (trace s1).
Proof. intros Hm Hk. rewrite (bind_ok _ _ _ _ _ Hm). apply Hk. Qed.

(** The directory set-up stops the script exactly when the input
    directory is missing; it reads nothing from the user. *)
Lemma setup_directories_cases env s :
  exists s1,
    stdin s1 = stdin s /\ heap s1 = heap s /\
    ((input_dir_exists env = false /\
      setup_directories env s = (Raise SystemExit, s1)) \/
     (input_dir_exists env = true /\
      setup_directories env s
      = (Ok (path_join (cwd env) "InputData",
             path_join (cwd env) "OutputData",
             path_join (cwd env) "Figures"), s1))).
Proof.
  destruct env as [c i o f file]. unfold setup_directories. simpl.
  destruct i, o, f; eexists; (split; [|split]);
    try (left; split; [done|reflexivity]);
    try (right; split; [done|reflexivity]); done.
Qed.

Lemma all_invalid_accepted file_lines :
  Forall (fun l => ~ valid_key (strip l)) file_lines ->
  accepted file_lines = [].
Proof.
  unfold accepted. induction 1 as [|l ls Hl _ IH]; [done|].
  rewrite fmap_cons, filter_cons_False by done. apply IH.
Qed.

(** Without a valid line in the file and without a valid typed key the
    key set-up of the multi-key script raises. *)
Lemma mp_setup_api_key_abort text s :
  accepted (lines text) = [] ->
  match stdin s with k :: _ => ~ valid_key k | [] => True end ->
  exists e s',
    MultiKey.setup_api_key (Some text) s = (Raise e, s') /\
    (e = SystemExit \/ e = EOFError) /\
    (stdin s <> [] -> e = SystemExit).
Proof.
  intros Hacc Htyped. unfold MultiKey.setup_api_key.
  rewrite (bind_ok _ _ _ _ _ (read_keys_spec _ _ _)), Hacc. simpl.
  unfold warning. rewrite (bind_ok _ _ _ _ _ (emit_logged _ _)).
  rewrite ask_api_key_spec. simpl. destruct (stdin s) as [|k rest].
  - eexists _, _. split; [done|]. split; [by right|done].
  - simpl. rewrite bool_decide_eq_false_2 by done.
    eexists _, _. split; [done|]. split; [by left|done].
Qed.

(** C5.  When the key file exists, the pool consists of exactly the
    stripped lines of 40 characters, in file order, and every other line
    is reported with a warning.  When every line is invalid and no valid
    key is typed (nothing can be read, or the typed key has not 40
    characters), the run of the script raises and has handed no task to
    the executor. *)
Theorem C5_key_file_filter_and_abort :
  (forall text s,
     MultiKey.read_keys (lines text) [] s
     = (Ok (filter valid_key (strip <$> lines text)),
        logged s ((fun l => Log WARNING [Txt ("Invalid API key: " +:+ strip l)])
                    <$> filter (fun l => ~ valid_key (strip l)) (lines text))))
  /\
  (forall temp_run env w order s text,
     api_key_file env = Some text ->
     Forall (fun l => ~ valid_key (strip l)) (lines text) ->
     match stdin s with k :: _ => ~ valid_key k | [] => True end ->
     exists e s',
       MultiKey.main temp_run env w order s = (Raise e, s') /\
       (e = SystemExit \/ e = EOFError) /\
       submitted (trace s') = submitted (trace s)).
Proof.
  split.
  - intros text s. apply (read_keys_spec (lines text) [] s).
  - intros temp_run env w order s text Hfile Hall Htyped.
    apply all_invalid_accepted in Hall.
    destruct (setup_directories_cases env s)
      as (s1 & Hstdin & _ & [[_ Hdir]|[_ Hdir]]);
      pose proof (quiet_setup_directories env s) as Hq;
      rewrite Hdir in Hq; simpl in Hq; unfold MultiKey.main.
    + rewrite (bind_raise _ _ _ _ _ Hdir).
      eexists _, _. split; [done|]. split; [by left|done].
    + rewrite (bind_ok _ _ _ _ _ Hdir). rewrite Hfile.
      rewrite <-Hstdin in Htyped.
      destruct (mp_setup_api_key_abort text s1 Hall Htyped)
        as (e & s2 & Hkey & He & _).
      rewrite (bind_raise _ _ _ _ _ Hkey).
      exists e, s2. split; [done|]. split; [done|].
      pose proof (quiet_mp_setup_api_key (Some text) s1) as Hq2.
      rewrite Hkey in Hq2. simpl in Hq2. congruence.
Qed.

Lemma C5_witness :
  exists e s',
    MultiKey.main Demo.temp_run (Demo.env (Some ("short" +:+ LF)))
                  Demo.counties [0; 1; 2]%nat (Demo.start 5000 ["bad"])
    = (Raise e, s') /\
    (e = SystemExit \/ e = EOFError) /\
    submitted (trace s') = submitted (trace (Demo.start 5000 ["bad"])).
Proof.
  apply (proj2 C5_key_file_filter_and_abort Demo.temp_run
           (Demo.env (Some ("short" +:+ LF))) Demo.counties [0; 1; 2]%nat
           (Demo.start 5000 ["bad"]) ("short" +:+ LF) eq_refl).
  - repeat constructor. by vm_compute.
  - by vm_compute.
Defined.

(** The key set-up of the single-key example script on an invalid key. *)
Lemma sk_setup_api_key_invalid file s k :
  obtained_key file s = Some k -> ~ valid_key k ->
  exists s', SingleKey.setup_api_key file s = (Ok "DEMO_KEY", s').
Proof.
  unfold obtained_key, valid_key. intros Hk Hbad.
  unfold SingleKey.setup_api_key, bind, info, warning, emit, input, ret.
  destruct file as [text|]; simpl.
  - injection Hk as ->.
    destruct (Nat.eqb_spec (PyStr.len k) 40) as [E|_]; [done|]. by eexists.
  - destruct (stdin s) as [|k' rest] eqn:Hin; [done|]. injection Hk as ->.
    destruct (Nat.eqb_spec (PyStr.len k) 40) as [E|_]; [done|]. by eexists.
Qed.

(** The key set-up of [ny_ev_proj.py] on an invalid key. *)
Lemma ny_setup_api_key_invalid file s k :
  obtained_key file s = Some k -> ~ valid_key k ->
  exists s', NyEvProj.setup_api_key file s = (Ok "DEMO_KEY", s').
Proof.
  unfold obtained_key, valid_key. intros Hk Hbad.
  unfold NyEvProj.setup_api_key, bind, emit, input, ret.
  destruct file as [text|]; simpl.
  - injection Hk as ->.
    destruct (Nat.eqb_spec (PyStr.len k) 40) as [E|_]; [done|]. by eexists.
  - destruct (stdin s) as [|k' rest] eqn:Hin; [done|]. injection Hk as ->.
    destruct (Nat.eqb_spec (PyStr.len k) 40) as [E|_]; [done|]. by eexists.
Qed.

(** Lines 169-170 of the single-key script: one task per county, each
    with the key of the script. *)
Lemma sk_submit_loop_spec work key futures s :
  SingleKey.submit_loop work key futures s
  = (Ok (futures ++ ((fun p => Task p.1 p.2 key None) <$> work)),
     logged s (Submit <$> ((fun p => Task p.1 p.2 key None) <$> work))).
Proof.
  revert futures s. induction work as [|[t sc] work IH]; intros futures s.
  - simpl. by rewrite app_nil_r, logged_nil.
  - cbn [SingleKey.submit_loop]. rewrite (bind_ok _ _ _ _ _ (emit_logged _ _)).
    rewrite IH, logged_logged, <-app_assoc. done.
Qed.

Lemma submitted_Submit tasks : submitted (Submit <$> tasks) = tasks.
Proof.
  induction tasks as [|t ts IH]; [done|].
  rewrite fmap_cons. unfold submitted in *. cbn [omap list_omap].
  by rewrite IH.
Qed.

(** C7.  In the single-key scripts a key that has not 40 characters,
    read from the file or typed, does not stop the run: the key set-up
    returns ['DEMO_KEY'], [ny_ev_proj.py] goes on to call the model with
    it and [example_ny_ev_proj.py] goes on to submit one task per county
    with it.  The key set-up of the multi-key script raises [SystemExit]
    when its file has no valid line and the typed key is invalid, and
    when there is no file and the typed key is invalid. *)
Theorem C7_single_key_falls_back_to_demo_key :
  (forall file s k,
     obtained_key file s = Some k -> ~ valid_key k ->
     (exists s', SingleKey.setup_api_key file s = (Ok "DEMO_KEY", s')) /\
     (exists s', NyEvProj.setup_api_key file s = (Ok "DEMO_KEY", s')) /\
     (exists s', NyEvProj.main file s = (Ok tt, s') /\
                 last (trace s')
                 = Some (Run NyEvProj.scen_file NyEvProj.temp_file
                             "DEMO_KEY")) /\
     (forall temp_run env w order,
        input_dir_exists env = true -> api_key_file env = file ->
        submitted (trace (SingleKey.main temp_run env w order s).2)
        = submitted (trace s)
          ++ ((fun p => Task p.1 p.2 "DEMO_KEY" None)
                <$> zip (temp_csv_list w) (scenario_csv_list w))))
  /\
  (forall file s k rest,
     stdin s = k :: rest -> ~ valid_key k ->
     match file with
     | Some text => Forall (fun l => ~ valid_key (strip l)) (lines text)
     | None => True
     end ->
     exists s', MultiKey.setup_api_key file s = (Raise SystemExit, s')).
Proof.
  split.
  - intros file s k Hk Hbad. split; [|split; [|split]].
    + by apply (sk_setup_api_key_invalid file s k).
    + by apply (ny_setup_api_key_invalid file s k).
    + destruct (ny_setup_api_key_invalid file s k Hk Hbad) as [s' Hs'].
      unfold NyEvProj.main. rewrite (bind_ok _ _ _ _ _ Hs').
      rewrite emit_logged. eexists. split; [done|]. apply last_snoc.
    + intros temp_run env w order Hdir Hfile.
      destruct (setup_directories_cases env s)
        as (s1 & Hstdin & _ & [[Hno _]|[_ Hrun]]); [congruence|].
      pose proof (quiet_setup_directories env s) as Hq.
      rewrite Hrun in Hq. simpl in Hq.
      assert (obtained_key file s1 = Some k) as Hk1.
      { unfold obtained_key in *. by rewrite Hstdin. }
      destruct (sk_setup_api_key_invalid file s1 k Hk1 Hbad) as [s2 Hkey].
      pose proof (quiet_sk_setup_api_key file s1) as Hq2.
      rewrite Hkey in Hq2. simpl in Hq2.
      unfold SingleKey.main. rewrite (bind_ok _ _ _ _ _ Hrun), Hfile.
      rewrite (bind_ok _ _ _ _ _ Hkey).
      unfold info at 1. rewrite (bind_ok _ _ _ _ _ (emit_logged _ _)).
      rewrite (bind_state_ok _ _ _ _ _ (sk_submit_loop_spec _ _ _ _)).
      * unfold logged. simpl. rewrite !submitted_app, submitted_Submit.
        simpl. rewrite app_nil_r. congruence.
      * apply quiet_bind; [apply quiet_sk_completed_loop|].
        intros _. quiet_steps.
  - intros file s k rest Hin Hbad Hfile. destruct file as [text|].
    + destruct (mp_setup_api_key_abort text s) as (e & s' & Hrun & _ & He).
      * by apply all_invalid_accepted.
      * by rewrite Hin.
      * exists s'. rewrite Hrun, He; [done|]. by rewrite Hin.
    + unfold MultiKey.setup_api_key, warning.
      rewrite (bind_ok _ _ _ _ _ (emit_logged _ _)).
      rewrite ask_api_key_spec. simpl. rewrite Hin. simpl.
      rewrite bool_decide_eq_false_2 by done. by eexists.
Qed.

Lemma C7_witness :
  (exists s', SingleKey.setup_api_key None (Demo.start 5000 ["bad"])
              = (Ok "DEMO_KEY", s')) /\
  (exists s', NyEvProj.setup_api_key None (Demo.start 5000 ["bad"])
              = (Ok "DEMO_KEY", s')) /\
  (exists s', NyEvProj.main None (Demo.start 5000 ["bad"]) = (Ok tt, s') /\
              last (trace s')
              = Some (Run NyEvProj.scen_file NyEvProj.temp_file "DEMO_KEY")) /\
  (forall temp_run env w order,
     input_dir_exists env = true -> api_key_file env = None ->
     submitted (trace (SingleKey.main temp_run env w order
                                      (Demo.start 5000 ["bad"])).2)
     = submitted (trace (Demo.start 5000 ["bad"]))
       ++ ((fun p => Task p.1 p.2 "DEMO_KEY" None)
             <$> zip (temp_csv_list w) (scenario_csv_list w))).
Proof.
  apply (proj1 C7_single_key_falls_back_to_demo_key None
           (Demo.start 5000 ["bad"]) "bad" eq_refl).
  by vm_compute.
Defined.

(** C9.  The single-key scripts take the text of the key file as it is.
    A file that holds a key of 40 characters and the end of its line is a
    text of 41 characters: both scripts replace it by the demo key,
    without stopping and without asking the user; [ny_ev_proj.py]
    reports nothing about it and [example_ny_ev_proj.py] logs one
    warning.  The multi-key script strips the line and keeps the key. *)
Theorem C9_unstripped_key_file k :
  valid_key k -> no_space k ->
  let text := k +:+ LF in
  PyStr.len text = 41%nat /\
  (forall s,
     SingleKey.setup_api_key (Some text) s
     = (Ok "DEMO_KEY",
        logged s [Log INFO [Txt "API key found in file."];
                  Log WARNING
                    [Txt "API key is not valid. Use the demo key instead."]])) /\
  (forall s,
     NyEvProj.setup_api_key (Some text) s
     = (Ok "DEMO_KEY", logged s [Print "API key found in file."])) /\
  (forall s,
     MultiKey.setup_api_key (Some text) s
     = (Ok ([k], 1%nat), logged s [Log INFO [Txt "1 API keys found in file."]])).
Proof.
  intros Hlen Hns text.
  assert (PyStr.len text = 41%nat) as H41.
  { unfold text. rewrite len_app. unfold valid_key in Hlen. by rewrite Hlen. }
  split; [done|]. split; [|split]; intros s.
  - unfold SingleKey.setup_api_key, bind, info, warning, emit, ret, logged.
    simpl. rewrite H41. simpl. by rewrite <-app_assoc.
  - unfold NyEvProj.setup_api_key, bind, emit, ret, logged.
    simpl. by rewrite H41.
  - unfold MultiKey.setup_api_key.
    rewrite (bind_ok _ _ _ _ _ (read_keys_spec _ _ _)).
    unfold text. rewrite lines_single by done.
    unfold accepted, rejections. simpl. rewrite (strip_line k Hns).
    rewrite filter_cons_True, filter_nil by done.
    rewrite filter_cons_False, filter_nil
      by (intros H; apply H; by rewrite strip_line).
    simpl. unfold info. rewrite (bind_ok _ _ _ _ _ (emit_logged _ _)).
    by rewrite logged_logged.
Qed.

Lemma C9_witness :
  let text := Demo.key_A +:+ LF in
  PyStr.len text = 41%nat /\
  (forall s,
     SingleKey.setup_api_key (Some text) s
     = (Ok "DEMO_KEY",
        logged s [Log INFO [Txt "API key found in file."];
                  Log WARNING
                    [Txt "API key is not valid. Use the demo key instead."]])) /\
  (forall s,
     NyEvProj.setup_api_key (Some text) s
     = (Ok "DEMO_KEY", logged s [Print "API key found in file."])) /\
  (forall s,
     MultiKey.setup_api_key (Some text) s
     = (Ok ([Demo.key_A], 1%nat),
        logged s [Log INFO [Txt "1 API keys found in file."]])).
Proof.
  apply (C9_unstripped_key_file Demo.key_A); by vm_compute.
Defined.

End KeyClaims.

(* ===================================================================== *)
(** * The day of the week *)
(* ===================================================================== *)

Section DateFacts.
Import PyDate.

Lemma weekday_range d : 0 <= weekday d < 7.
Proof. unfold weekday. apply Z.mod_pos_bound. lia. Qed.

Lemma weekday_cases d :
  weekday d = 0 \/ weekday d = 1 \/ weekday d = 2 \/ weekday d = 3
  \/ weekday d = 4 \/ weekday d = 5 \/ weekday d = 6.
Proof. pose proof (weekday_range d). lia. Qed.

(** "<5 is weekday": the indicator names a day of the week and is below
    5 exactly from Monday to Friday. *)
Lemma weekday_name d :
  exists n, name_of (weekday d) = Some n /\
            (is_weekday (weekday d) = true <-> is_weekend n = false).
Proof.
  destruct (weekday_cases d) as [->|[->|[->|[->|[->|[->| ->]]]]]];
    by eexists.
Qed.

Lemma days_before_next_year y :
  days_before_year (y + 1)
  = days_before_year y + (if is_leap y then 366 else 365).
Proof.
  unfold days_before_year, is_leap.
  replace (y + 1 - 1) with y by lia.
  destruct (Z.eqb_spec (y mod 4) 0) as [H4|H4];
    destruct (Z.eqb_spec (y mod 100) 0) as [H100|H100];
    destruct (Z.eqb_spec (y mod 400) 0) as [H400|H400]; simpl;
    Z.div_mod_to_equations; lia.
Qed.

Lemma days_before_next_month y m :
  1 <= m < 12 ->
  days_before_month y (m + 1) = days_before_month y m + days_in_month y m.
Proof.
  intros Hm.
  assert (m = 1 \/ m = 2 \/ m = 3 \/ m = 4 \/ m = 5 \/ m = 6 \/ m = 7
          \/ m = 8 \/ m = 9 \/ m = 10 \/ m = 11) as Hc by lia.
  unfold days_before_month, days_in_month.
  destruct Hc as [->|[->|[->|[->|[->|[->|[->|[->|[->|[->| ->]]]]]]]]]];
    simpl; destruct (is_leap y); reflexivity.
Qed.

(** The ordinal of the next calendar day is the next ordinal. *)
Lemma toordinal_tomorrow d : valid d -> toordinal (tomorrow d) = toordinal d + 1.
Proof.
  intros (Hy & Hm & Hd). unfold tomorrow, toordinal.
  destruct (Z.ltb_spec (day d) (days_in_month (year d) (month d))) as [H|H];
    simpl; [lia|].
  destruct (Z.ltb_spec (month d) 12) as [H12|H12]; simpl.
  - rewrite days_before_next_month by lia. lia.
  - assert (month d = 12) as E by lia. rewrite E in *.
    rewrite days_before_next_year.
    unfold days_before_month, days_in_month in *. simpl in *.
    destruct (is_leap (year d)); lia.
Qed.

Lemma weekday_tomorrow d :
  valid d -> weekday (tomorrow d) = (weekday d + 1) mod 7.
Proof.
  intros Hd. unfold weekday. rewrite (toordinal_tomorrow d Hd).
  rewrite Zplus_mod_idemp_l. f_equal. lia.
Qed.

(** From one day to the next the indicator moves from one day of the
    week to the next one. *)
Lemma name_tomorrow d :
  valid d ->
  name_of (weekday (tomorrow d)) = next_name <$> name_of (weekday d).
Proof.
  intros Hd. rewrite (weekday_tomorrow d Hd).
  destruct (weekday_cases d) as [->|[->|[->|[->|[->|[->| ->]]]]]]; done.
Qed.

End DateFacts.

(* ===================================================================== *)
(** * Dispatch: claims *)
(* ===================================================================== *)

Section DispatchClaims.
Import PyStr PyDate Pandas Interp Script.

(** Lines 212-219: the tasks that the submission loop adds, from the
    position [i] on. *)
Lemma mp_submit_loop_spec pool counties :
  (1 <= length pool)%nat ->
  forall work i futures s,
    (i + length work <= length counties)%nat ->
    exists new,
      MultiKey.submit_loop i work pool (length pool) counties futures s
      = (Ok (futures ++ new), logged s (Submit <$> new)) /\
      length new = length work /\
      forall j t, new !! j = Some t ->
        pool !! ((i + j) mod length pool)%nat = Some (t_api_key t) /\
        t_county t = counties !! (i + j)%nat /\
        work !! j = Some (t_temp_csv t, t_scenario_csv t).
Proof.
  intros Hpool. induction work as [|[t sc] work IH]; intros i futures s Hlen.
  - exists []. simpl. rewrite app_nil_r, logged_nil. by repeat split.
  - simpl in Hlen. cbn [MultiKey.submit_loop]. unfold pymod.
    destruct (Nat.eqb_spec (length pool) 0) as [E|_]; [lia|].
    erewrite bind_ok; [|reflexivity].
    assert (i mod length pool < length pool)%nat as Hmod
        by (apply Nat.mod_upper_bound; lia).
    destruct (lookup_lt_is_Some_2 pool _ Hmod) as [key Hkey].
    destruct (lookup_lt_is_Some_2 counties i) as [county Hcounty]; [lia|].
    unfold array_get.
    erewrite bind_ok; [|by apply try_ok].
    erewrite bind_ok; [|by apply try_ok].
    rewrite (bind_ok _ _ _ _ _ (emit_logged _ _)).
    destruct (IH (S i) (futures ++ [Task t sc key (Some county)])
                (logged s [Submit (Task t sc key (Some county))]))
      as (new & Hrun & Hnew & Hall); [lia|].
    exists (Task t sc key (Some county) :: new).
    rewrite Hrun, logged_logged, <-app_assoc. split; [done|].
    split; [simpl; lia|]. intros [|j] t' Ht'.
    + injection Ht' as <-. simpl. by rewrite Nat.add_0_r.
    + simpl in Ht'. destruct (Hall j t' Ht') as (H1 & H2 & H3).
      by rewrite <-Nat.add_succ_comm.
Qed.

(** C4.  The key of a task depends on its index and on the pool only:
    for a pool of [n >= 1] keys the submission loop gives the task of
    index [i] the key [pool[i mod n]]; the pool that the key set-up hands
    over is never empty and [n_api_key] is its length.  On the sample
    data: a key file with the two keys A...A and B...B and five counties
    give the tasks 0 to 4 the keys A, B, A, B, A. *)
Theorem C4_round_robin_keys :
  (forall pool counties work s,
     (1 <= length pool)%nat ->
     (length work <= length counties)%nat ->
     exists futures s',
       MultiKey.submit_loop 0 work pool (length pool) counties [] s
       = (Ok futures, s') /\
       submitted (trace s') = submitted (trace s) ++ futures /\
       length futures = length work /\
       forall i, (i < length work)%nat ->
         t_api_key <$> futures !! i = pool !! (i mod length pool)%nat)
  /\
  (forall file s pool n s',
     MultiKey.setup_api_key file s = (Ok (pool, n), s') ->
     n = length pool /\ (1 <= n)%nat)
  /\
  submitted_keys
    (MultiKey.main Demo.temp_run
       (Demo.env (Some (Demo.key_A +:+ LF +:+ Demo.key_B +:+ LF)))
       Demo.five_counties [0; 1; 2; 3; 4]%nat (Demo.start5 40000 []))
  = [Demo.key_A; Demo.key_B; Demo.key_A; Demo.key_B; Demo.key_A].
Proof.
  split; [|split].
  - intros pool counties work s Hpool Hlen.
    destruct (mp_submit_loop_spec pool counties Hpool work 0%nat [] s Hlen)
      as (new & Hrun & Hnew & Hall).
    exists new, (logged s (Submit <$> new)). split; [done|].
    split; [|split; [done|]].
    + unfold logged. simpl. by rewrite submitted_app, submitted_Submit.
    + intros i Hi.
      destruct (lookup_lt_is_Some_2 new i) as [t Ht]; [lia|].
      destruct (Hall i t Ht) as (Hkey & _).
      change (0 + i)%nat with i in Hkey. by rewrite Ht, Hkey.
  - apply setup_api_key_size.
  - by vm_compute.
Qed.

Lemma C4_witness :
  exists futures s',
    MultiKey.submit_loop 0 [(0, 1); (2, 3); (4, 5); (6, 7); (8, 9)]%nat
      [Demo.key_A; Demo.key_B] 2
      (county_names Demo.five_counties) [] (Demo.start5 40000 [])
    = (Ok futures, s') /\
    submitted (trace s')
    = submitted (trace (Demo.start5 40000 [])) ++ futures /\
    length futures = 5%nat /\
    forall i, (i < 5)%nat ->
      t_api_key <$> futures !! i
      = [Demo.key_A; Demo.key_B] !! (i mod 2)%nat.
Proof.
  apply (proj1 C4_round_robin_keys [Demo.key_A; Demo.key_B]
           (county_names Demo.five_counties)
           [(0, 1); (2, 3); (4, 5); (6, 7); (8, 9)]%nat
           (Demo.start5 40000 [])); simpl; lia.
Defined.

(** C3, at an input where the code departs from it.  Three counties
    (Albany, Bronx, New York, in submission order) whose tasks complete
    in the order Bronx, Albany, New York.  Both example scripts run to
    the end and write every result once, but under the name of the
    county at the completion position: the files and figures named after
    Albany hold the result computed for Bronx, and those named after
    Bronx the result computed for Albany. *)
Theorem C3_results_paired_by_completion_position :
  let run :=
    MultiKey.main Demo.temp_run (Demo.env (Some (Demo.key_A +:+ LF)))
                  Demo.counties [1; 0; 2]%nat (Demo.start 40000 []) in
  let run1 :=
    SingleKey.main Demo.temp_run_by_fleet (Demo.env (Some Demo.key_A))
                   Demo.counties [1; 0; 2]%nat (Demo.start_distinct []) in
  run.1 = Ok tt /\
  t_county <$> submitted (trace run.2)
  = [Some "Albany"; Some "Bronx"; Some "New York"] /\
  Demo.written (trace run.2)
  = [("/home/user/OutputData/Albany_month12_scen0_temp_gridLoad.csv",
      Some [VStr "Bronx"; VStr "Bronx"]);
     ("/home/user/OutputData/Albany_month12_scen1_temp_gridLoad.csv",
      Some [VStr "Bronx"; VStr "Bronx"]);
     ("/home/user/OutputData/Bronx_month12_scen0_temp_gridLoad.csv",
      Some [VStr "Albany"; VStr "Albany"]);
     ("/home/user/OutputData/Bronx_month12_scen1_temp_gridLoad.csv",
      Some [VStr "Albany"; VStr "Albany"]);
     ("/home/user/OutputData/New_York_month12_scen0_temp_gridLoad.csv",
      Some [VStr "New York"; VStr "New York"]);
     ("/home/user/OutputData/New_York_month12_scen1_temp_gridLoad.csv",
      Some [VStr "New York"; VStr "New York"])] /\
  Demo.plotted (trace run.2)
  = [("/home/user/Figures/Albany_month12_scen0_temp_gridLoad.png",
      Some [VStr "Bronx"; VStr "Bronx"]);
     ("/home/user/Figures/Albany_month12_scen1_temp_gridLoad.png",
      Some [VStr "Bronx"; VStr "Bronx"]);
     ("/home/user/Figures/Bronx_month12_scen0_temp_gridLoad.png",
      Some [VStr "Albany"; VStr "Albany"]);
     ("/home/user/Figures/Bronx_month12_scen1_temp_gridLoad.png",
      Some [VStr "Albany"; VStr "Albany"]);
     ("/home/user/Figures/New_York_month12_scen0_temp_gridLoad.png",
      Some [VStr "New York"; VStr "New York"]);
     ("/home/user/Figures/New_York_month12_scen1_temp_gridLoad.png",
      Some [VStr "New York"; VStr "New York"])] /\
  run1.1 = Ok tt /\
  heap (Demo.start_distinct []) !! 1%nat ≫= getitem "fleet_size"
  = Some [Demo.num 40000; Demo.num 40000] /\
  heap (Demo.start_distinct []) !! 3%nat ≫= getitem "fleet_size"
  = Some [Demo.num 50000; Demo.num 50000] /\
  Demo.written (trace run1.2)
  = [("/home/user/OutputData/Albany_scen0_temp_gridLoad.csv",
      Some [Demo.num 50000; Demo.num 50000]);
     ("/home/user/OutputData/Albany_scen1_temp_gridLoad.csv",
      Some [Demo.num 50000; Demo.num 50000]);
     ("/home/user/OutputData/Bronx_scen0_temp_gridLoad.csv",
      Some [Demo.num 40000; Demo.num 40000]);
     ("/home/user/OutputData/Bronx_scen1_temp_gridLoad.csv",
      Some [Demo.num 40000; Demo.num 40000]);
     ("/home/user/OutputData/New_York_scen0_temp_gridLoad.csv",
      Some [Demo.num 60000; Demo.num 60000]);
     ("/home/user/OutputData/New_York_scen1_temp_gridLoad.csv",
      Some [Demo.num 60000; Demo.num 60000])].
Proof.
  repeat split; apply (bool_decide_unpack _); by vm_compute.
Qed.

(** C8.  In both example scripts the temperature handling gives every
    row of the temperature table the indicator [weekday] of the date of
    that row.  The indicator names a day of the week, 0 for Monday up to
    6 for Sunday: it is 0 on Monday the 3rd of December 2018 and moves to
    the next day of the week with every calendar day; it is below 5
    exactly on the days that are not Saturday or Sunday. *)
Theorem C8_weekday_indicator :
  (forall s temp_csv t0 cells ts temps,
     heap s !! temp_csv = Some t0 ->
     getitem "date" t0 = Some cells ->
     getitem "temperature" t0 = Some temps ->
     (mapM to_datetime cells = Some ts ->
      exists t1 s' ind,
        MultiKey.handle_temperature temp_csv s = (Ok tt, s') /\
        heap s' !! temp_csv = Some t1 /\ index t1 = index t0 /\
        getitem "date" t1 = Some (VDate <$> (ts_date <$> ts)) /\
        getitem "weekday" t1 = Some ind /\
        length ind = length cells /\
        forall i t, ts !! i = Some t ->
          ind !! i = Some (VNum (Float64.of_Z (weekday (ts_date t))))) /\
     (cells = VStamp <$> ts ->
      exists t1 s' ind,
        SingleKey.handle_temperature temp_csv s = (Ok tt, s') /\
        heap s' !! temp_csv = Some t1 /\ index t1 = index t0 /\
        getitem "date" t1 = Some (VDate <$> (ts_date <$> ts)) /\
        getitem "weekday" t1 = Some ind /\
        length ind = length cells /\
        forall i t, ts !! i = Some t ->
          ind !! i = Some (VNum (Float64.of_Z (weekday (ts_date t))))))
  /\
  (forall d, exists n,
     name_of (weekday d) = Some n /\
     (is_weekday (weekday d) = true <-> is_weekend n = false))
  /\
  name_of (weekday (Date 2018 12 3)) = Some Monday
  /\
  (forall d, valid d ->
     name_of (weekday (tomorrow d)) = next_name <$> name_of (weekday d)).
Proof.
  split; [|split; [|split]].
  - intros s temp_csv t0 cells ts temps Hh Hd Htemp. split.
    + intros Hts.
      destruct (mp_handle_temperature_ok s temp_csv t0 cells ts temps
                  Hh Hd Hts Htemp) as (t1 & Hdrop & Hrun).
      destruct (completed_temperature_columns _ _ _ _ Hdrop)
        as (Hidx & Hdate & Hw & _).
      eexists t1, _, (weekday_cells (ts_date <$> ts)).
      split; [exact Hrun|]. simpl. split; [apply lookup_insert_eq|].
      split; [done|]. split; [done|]. split; [done|]. split.
      * unfold weekday_cells. rewrite !length_fmap.
        symmetry. by apply (length_mapM to_datetime).
      * intros i t Ht. unfold weekday_cells.
        by rewrite !list_lookup_fmap, Ht.
    + intros ->.
      destruct (sk_handle_temperature_ok s temp_csv t0 ts temps Hh Hd Htemp)
        as (t1 & Hdrop & Hrun).
      destruct (completed_temperature_columns _ _ _ _ Hdrop)
        as (Hidx & Hdate & Hw & _).
      eexists t1, _, (weekday_cells (ts_date <$> ts)).
      split; [exact Hrun|]. simpl. split; [apply lookup_insert_eq|].
      split; [done|]. split; [done|]. split; [done|]. split.
      * unfold weekday_cells. by rewrite !length_fmap.
      * intros i t Ht. unfold weekday_cells.
        by rewrite !list_lookup_fmap, Ht.
  - apply weekday_name.
  - done.
  - apply name_tomorrow.
Qed.

Lemma C8_witness :
  (mapM to_datetime [Demo.midnight 2018 12 1; Demo.midnight 2018 12 3]
   = Some [Timestamp (Date 2018 12 1) 0; Timestamp (Date 2018 12 3) 0] ->
   exists t1 s' ind,
     MultiKey.handle_temperature 0 (Demo.start 5000 []) = (Ok tt, s') /\
     heap s' !! 0%nat = Some t1 /\ index t1 = index Demo.temp_table /\
     getitem "date" t1
     = Some (VDate <$> (ts_date <$> [Timestamp (Date 2018 12 1) 0;
                                     Timestamp (Date 2018 12 3) 0])) /\
     getitem "weekday" t1 = Some ind /\
     length ind = 2%nat /\
     forall i t, [Timestamp (Date 2018 12 1) 0;
                  Timestamp (Date 2018 12 3) 0] !! i = Some t ->
       ind !! i = Some (VNum (Float64.of_Z (weekday (ts_date t))))) /\
  name_of (weekday (tomorrow (Date 2018 12 31))) = Some Tuesday.
Proof.
  split.
  - apply (proj1 (proj1 C8_weekday_indicator (Demo.start 5000 []) 0%nat
                    Demo.temp_table
                    [Demo.midnight 2018 12 1; Demo.midnight 2018 12 3]
                    [Timestamp (Date 2018 12 1) 0; Timestamp (Date 2018 12 3) 0]
                    [Demo.num 2; Demo.num (-1)] eq_refl eq_refl eq_refl)).
  - rewrite (proj2 (proj2 (proj2 C8_weekday_indicator)) (Date 2018 12 31)).
    + reflexivity.
    + vm_compute. repeat split; discriminate.
Defined.

End DispatchClaims.

(* ===================================================================== *)
(** * What a step reports and which tables it changes *)
(* ===================================================================== *)

Section EmitsFacts.
Import PyStr Pandas Interp Script.
Context (P : event -> Prop).

Lemma emits_ret {A} (a : A) : emits P (ret a).
Proof. intros s. exists []. by rewrite app_nil_r. Qed.

Lemma emits_raise {A} e : emits P (@raise A e).
Proof. intros s. exists []. by rewrite app_nil_r. Qed.

Lemma emits_try {A} e (o : option A) : emits P (try e o).
Proof. destruct o; [apply emits_ret|apply emits_raise]. Qed.

(** The continuation may rely on what the first step has returned. *)
Lemma emits_bind_post {A B} (m : M A) (k : A -> M B) :
emits P m ->
(forall s a s1, m s = (Ok a, s1) -> emits P (k a)) ->
emits P (bind m k).
Proof.
intros Hm Hk s. unfold bind. destruct (Hm s) as (tr & Htr & Hall).
destruct (m s) as [[a|e] s1] eqn:E; simpl in *.
- destruct (Hk s a s1 E s1) as (tr2 & Htr2 & Hall2).
  exists (tr ++ tr2). rewrite Htr2, Htr, app_assoc. split; [done|].
  by apply Forall_app.
- by exists tr.
Qed.

Lemma emits_bind {A B} (m : M A) (k : A -> M B) :
emits P m -> (forall a, emits P (k a)) -> emits P (bind m k).
Proof. intros Hm Hk. apply emits_bind_post; auto. Qed.

Lemma emits_emit ev : P ev -> emits P (emit ev).
Proof. intros H s. exists [ev]. split; [done|]. by constructor. Qed.

Lemma emits_deref l : emits P (deref l).
Proof.
intros s. exists []. rewrite app_nil_r. unfold deref.
by destruct (heap s !! l).
Qed.

Lemma emits_mutate l g : emits P (mutate l g).
Proof.
intros s. exists []. rewrite app_nil_r. unfold mutate.
by destruct (heap s !! l).
Qed.

Lemma emits_input msg : P (Prompt msg) -> emits P (input msg).
Proof.
intros H s. exists [Prompt msg]. unfold input.
destruct (stdin s); (split; [done|by constructor]).
Qed.

Lemma emits_array_get {A} k (a : list A) : emits P (array_get k a).
Proof. apply emits_try. Qed.

Lemma emits_array_set {A} k (v : A) a : emits P (array_set k v a).
Proof.
unfold array_set. destruct (k <? length a)%nat;
  [apply emits_ret|apply emits_raise].
Qed.

Lemma emits_pymod i n : emits P (pymod i n).
Proof.
unfold pymod. destruct (n =? 0)%nat; [apply emits_raise|apply emits_ret].
Qed.

End EmitsFacts.

Lemma emits_weaken {A} (P Q : Interp.event -> Prop) (m : Interp.M A) :
  (forall ev, P ev -> Q ev) -> emits P m -> emits Q m.
Proof.
  intros HPQ Hm s. destruct (Hm s) as (tr & Htr & Hall). exists tr.
  split; [done|]. eapply Forall_impl; eauto.
Qed.

Section ConfinedFacts.
Import PyStr Pandas Interp Script.
Context (L : list loc).

Lemma confined_ret {A} (a : A) : confined L (ret a).
Proof. done. Qed.

Lemma confined_raise {A} e : confined L (@raise A e).
Proof. done. Qed.

Lemma confined_try {A} e (o : option A) : confined L (try e o).
Proof. by destruct o. Qed.

Lemma confined_bind {A B} (m : M A) (k : A -> M B) :
confined L m -> (forall a, confined L (k a)) -> confined L (bind m k).
Proof.
intros Hm Hk s. unfold bind. destruct (Hm s) as (H1 & H2 & H3).
destruct (m s) as [[a|e] s1]; simpl in *; [|done].
destruct (Hk a s1) as (K1 & K2 & K3).
split; [|split]; [|congruence..].
intros l Hl. by rewrite K1, H1.
Qed.

Lemma confined_emit ev : confined L (emit ev).
Proof. done. Qed.

Lemma confined_deref l : confined L (deref l).
Proof. intros s. unfold deref. by destruct (heap s !! l). Qed.

Lemma confined_mutate l g : l ∈ L -> confined L (mutate l g).
Proof.
intros Hl s. unfold mutate. destruct (heap s !! l) as [f|] eqn:E; [|done].
simpl. split; [|split; [|done]].
- intros l' Hl'. apply lookup_insert_ne. by intros ->.
- rewrite dom_insert_L. apply (elem_of_dom_2 (heap s)) in E.
  by apply subseteq_union_1_L, singleton_subseteq_l.
Qed.

Lemma confined_array_get {A} k (a : list A) : confined L (array_get k a).
Proof. apply confined_try. Qed.

Lemma confined_array_set {A} k (v : A) a : confined L (array_set k v a).
Proof. unfold array_set. by destruct (k <? length a)%nat. Qed.

Lemma confined_pymod i n : confined L (pymod i n).
Proof. unfold pymod. by destruct (n =? 0)%nat. Qed.

End ConfinedFacts.

Lemma confined_weaken {A} (L L' : list nat) (m : Interp.M A) :
  (forall l, l ∈ L -> l ∈ L') -> confined L m -> confined L' m.
Proof.
  intros Hsub Hm s. destruct (Hm s) as (H1 & H2 & H3).
  split; [|done]. intros l Hl. apply H1. intros Hin. by apply Hl, Hsub.
Qed.

Create HintDb effects.

#[export] Hint Resolve emits_ret emits_raise emits_try emits_deref
  emits_mutate emits_array_get emits_array_set emits_pymod
  confined_ret confined_raise confined_try confined_emit confined_deref
  confined_array_get confined_array_set confined_pymod : effects.
#[export] Hint Extern 1 (emits _ (Interp.emit _)) =>
  apply emits_emit; exact I : effects.
#[export] Hint Extern 1 (emits _ (Interp.input _)) =>
  apply emits_input; exact I : effects.
#[export] Hint Extern 1 (confined _ (Interp.mutate _ _)) =>
  apply confined_mutate; rewrite ?elem_of_cons; auto : effects.

(** Goes through a sequence of statements, one bind at a time. *)
Ltac effect_steps :=
  repeat first
    [ apply emits_bind; [|intros ?]
    | apply confined_bind; [|intros ?]
    | match goal with
      | |- emits _ (if ?b then _ else _) => destruct b
      | |- emits _ (match ?o with _ => _ end) => destruct o
      | |- confined _ (if ?b then _ else _) => destruct b
      | |- confined _ (match ?o with _ => _ end) => destruct o
      end
    | solve [autounfold with quiet; eauto with effects] ].

Section EffectsOfCountyRun.
Import PyStr Pandas Interp Script.

Lemma emits_mp_handle_temperature P l : emits P (MultiKey.handle_temperature l).
Proof. unfold MultiKey.handle_temperature. effect_steps. Qed.

Lemma emits_sk_handle_temperature P l : emits P (SingleKey.handle_temperature l).
Proof. unfold SingleKey.handle_temperature. effect_steps. Qed.

Lemma confined_mp_handle_temperature l :
confined [l] (MultiKey.handle_temperature l).
Proof. unfold MultiKey.handle_temperature. effect_steps. Qed.

Lemma confined_sk_handle_temperature l :
confined [l] (SingleKey.handle_temperature l).
Proof. unfold SingleKey.handle_temperature. effect_steps. Qed.

Lemma emits_small_fleet_loop county l rows a :
emits is_log (MultiKey.small_fleet_loop county l rows a).
Proof.
revert a. induction rows as [|[k r] rows IH]; intros a;
  cbn [MultiKey.small_fleet_loop]; effect_steps; apply IH.
Qed.

Lemma confined_small_fleet_loop county l rows a :
confined [l] (MultiKey.small_fleet_loop county l rows a).
Proof.
revert a. induction rows as [|[k r] rows IH]; intros a;
  cbn [MultiKey.small_fleet_loop]; effect_steps; apply IH.
Qed.

Lemma emits_scale_loop P rows a r : emits P (MultiKey.scale_loop rows a r).
Proof. intros s. exists []. by rewrite scale_loop_state, app_nil_r. Qed.

Lemma confined_scale_loop L rows a r : confined L (MultiKey.scale_loop rows a r).
Proof. intros s. by rewrite scale_loop_state. Qed.

End EffectsOfCountyRun.

(* ===================================================================== *)
(** * Further properties of [county_run] *)
(* ===================================================================== *)

Section CountyRunEffects.
Import PyStr PyDate Pandas Interp Script.

(** X1.  Whatever its arguments and whether it returns or raises,
  [county_run] of the multi-key script reports nothing but log records,
  changes no table other than the two it is given, creates and deletes
  no table and reads nothing from the user.  [county_run] of the
  single-key script reports nothing at all and changes no table other
  than its temperature table. *)
Theorem county_run_is_confined temp_run temp_csv scenario_csv api_key county s :
let after := (MultiKey.county_run temp_run temp_csv scenario_csv
                                  api_key county s).2 in
let after1 := (SingleKey.county_run temp_run temp_csv scenario_csv
                                    api_key s).2 in
((exists tr, trace after = trace s ++ tr /\ Forall is_log tr) /\
 (forall l, l <> temp_csv -> l <> scenario_csv ->
            heap after !! l = heap s !! l) /\
 dom (heap after) = dom (heap s) /\
 stdin after = stdin s) /\
(trace after1 = trace s /\
 (forall l, l <> temp_csv -> heap after1 !! l = heap s !! l) /\
 dom (heap after1) = dom (heap s) /\
 stdin after1 = stdin s).
Proof.
intros after after1. split.
- assert (emits is_log (MultiKey.county_run temp_run temp_csv scenario_csv
                                            api_key county)) as He.
  { unfold MultiKey.county_run, MultiKey.handle_small_fleet. effect_steps;
      try first [ apply emits_mp_handle_temperature
            | apply emits_small_fleet_loop | apply emits_scale_loop ]. }
  assert (confined [temp_csv; scenario_csv]
            (MultiKey.county_run temp_run temp_csv scenario_csv
                                 api_key county)) as Hc.
  { unfold MultiKey.county_run, MultiKey.handle_small_fleet. effect_steps;
      try first [ apply (confined_weaken [temp_csv]);
              [intros l Hl; apply elem_of_cons; left;
               by apply list_elem_of_singleton in Hl
              |apply confined_mp_handle_temperature]
            | apply (confined_weaken [scenario_csv]);
              [intros l Hl; apply elem_of_cons; right; exact Hl
              |apply confined_small_fleet_loop]
            | apply confined_scale_loop ]. }
  split; [apply He|]. destruct (Hc s) as (H1 & H2 & H3).
  split; [|done]. intros l Hl1 Hl2. apply H1.
  rewrite !elem_of_cons. intros [?|[?|?%elem_of_nil]]; done.
- assert (emits (fun _ => False)
            (SingleKey.county_run temp_run temp_csv scenario_csv api_key))
    as He.
  { unfold SingleKey.county_run. effect_steps. }
  assert (confined [temp_csv]
            (SingleKey.county_run temp_run temp_csv scenario_csv api_key))
    as Hc.
  { unfold SingleKey.county_run. effect_steps. }
  destruct (He s) as (tr & Htr & Hall). destruct (Hc s) as (H1 & H2 & H3).
  split; [|split; [|done]].
  + destruct tr as [|ev tr]; [by rewrite app_nil_r in Htr|].
    by apply Forall_cons in Hall as [[] _].
  + intros l Hl. apply H1. by intros ?%list_elem_of_singleton.
Qed.

End CountyRunEffects.

Section FleetInvariants.
Import PyStr PyDate Pandas Interp Script MultiKey.
Local Open Scope float_scope.

Lemma corrected_fleet_idem q :
corrected_fleet (corrected_fleet q) = corrected_fleet q.
Proof.
unfold corrected_fleet. destruct (q <? floor_threshold) eqn:E; [done|].
by rewrite E.
Qed.

Lemma scale_factor_corrected q : scale_factor (corrected_fleet q) = 1.
Proof.
unfold scale_factor, corrected_fleet.
destruct (q <? floor_threshold) eqn:E; [done|]. by rewrite E.
Qed.

(** X3.  The fleet-size loop is idempotent on the table but not on the
  factors: run again on the table it has corrected, it changes no table
  and records the factor 1 for every scenario, so that the factors of
  the first run are not found again. *)
Theorem small_fleet_loop_twice county s temp_csv scenario_csv
t0 s0 ts temps qs t1 :
county_input s temp_csv scenario_csv t0 s0 ts temps qs t1 ->
default_indexed s0 ->
exists recorded mid mid',
  bind (handle_temperature temp_csv)
       (fun _ => handle_small_fleet scenario_csv county) s
  = (Ok recorded, mid) /\
  handle_small_fleet scenario_csv county mid
  = (Ok (replicate (length qs) 1), mid') /\
  heap mid' = heap mid.
Proof.
intros Hin _.
destruct (county_run_prefix county _ _ _ _ _ _ _ _ _ Hin) as [tr Hpre].
edestruct (handle_small_fleet_ok county scenario_csv
             (State (<[scenario_csv := corrected_scenarios qs s0]>
                       (<[temp_csv := t1]> (heap s)))
                    (stdin s) (trace s ++ tr))
             (corrected_scenarios qs s0) (corrected_fleet <$> qs))
  as [tr2 Hrun].
{ simpl. apply lookup_insert_eq. }
{ apply getitem_setitem_eq. }
{ rewrite length_fmap. apply (ci_rows _ _ _ _ _ _ _ _ _ Hin). }
assert (scale_factor <$> (corrected_fleet <$> qs) = replicate (length qs) 1)
  as Hones.
{ apply list_eq. intros k.
  rewrite <-list_fmap_compose, list_lookup_fmap.
  destruct (qs !! k) as [q|] eqn:Hq; simpl.
  - rewrite scale_factor_corrected. symmetry. apply lookup_replicate_2.
    by eapply lookup_lt_Some.
  - symmetry. apply lookup_ge_None. rewrite length_replicate.
    by apply lookup_ge_None. }
rewrite Hones in Hrun. eexists _, _, _.
split; [exact Hpre|]. split; [exact Hrun|].
simpl. rewrite insert_insert_eq. f_equal.
unfold corrected_scenarios. rewrite setitem_setitem. do 2 f_equal.
rewrite <-list_fmap_compose. apply list_fmap_ext.
intros _ q _. apply corrected_fleet_idem.
Qed.

Lemma small_fleet_loop_twice_sample :
exists recorded mid mid',
  bind (handle_temperature 0) (fun _ => handle_small_fleet 1 "Albany")
       (Demo.start 5000 [])
  = (Ok recorded, mid) /\
  handle_small_fleet 1 "Albany" mid = (Ok (replicate 2 1), mid') /\
  heap mid' = heap mid.
Proof.
exact (small_fleet_loop_twice "Albany" _ _ _ _ _ _ _ _ _
         (sample_county_input 5000) eq_refl).
Defined.

End FleetInvariants.

Section CountyRunEdges.
Import PyStr PyDate Pandas Interp Script.

Lemma state_eta s : State (heap s) (stdin s) (trace s) = s.
Proof. by destruct s. Qed.

Lemma update_same l f s :
heap s !! l = Some f -> update l f s = (Ok tt, s).
Proof.
intros H. rewrite (update_ok _ _ _ _ H), insert_id by done.
by rewrite state_eta.
Qed.

Lemma mapM_to_datetime_dates ds :
mapM to_datetime (VDate <$> ds) = Some ((fun d => Timestamp d 0) <$> ds).
Proof. apply mapM_Some. induction ds; simpl; constructor; auto. Qed.

Lemma mapM_dt_date_dates d ds : mapM dt_date (VDate <$> (d :: ds)) = None.
Proof. done. Qed.

(** The temperature handling of the multi-key script on a table that it
  has completed before. *)
Lemma mp_handle_temperature_again s temp_csv t1 ds :
heap s !! temp_csv = Some t1 ->
getitem "date" t1 = Some (VDate <$> ds) ->
getitem "weekday" t1 = Some (weekday_cells ds) ->
getitem "temperature" t1 = None ->
MultiKey.handle_temperature temp_csv s = (Raise KeyError, s).
Proof.
intros Hh Hd Hw Hnone. unfold MultiKey.handle_temperature.
rewrite (bind_ok _ _ _ _ _ (deref_ok _ _ _ Hh)).
rewrite (bind_ok _ _ _ _ _ (try_ok _ _ _ _ Hd)).
rewrite (bind_ok _ _ _ _ _ (try_ok _ _ _ _ (mapM_to_datetime_dates ds))).
rewrite <-list_fmap_compose.
assert ((fun x => VDate (ts_date x)) ∘ (fun d => Timestamp d 0) = VDate)
  as -> by done.
rewrite (setitem_id _ _ _ Hd).
rewrite (bind_ok _ _ _ _ _ (update_same _ _ _ Hh)).
rewrite (bind_ok _ _ _ _ _ (deref_ok _ _ _ Hh)).
rewrite (bind_ok _ _ _ _ _ (try_ok _ _ _ _ Hd)).
rewrite (bind_ok _ _ _ _ _ (try_ok _ _ _ _ (mapM_cell_weekday ds))).
rewrite (setitem_id _ _ _ Hw).
rewrite (bind_ok _ _ _ _ _ (update_same _ _ _ Hh)).
rewrite (bind_ok _ _ _ _ _ (deref_ok _ _ _ Hh)).
by rewrite Hnone.
Qed.

(** X4.  [county_run] cannot be applied twice to the same temperature
  table.  After a first call the column [temperature] is gone and the
  dates are no longer times: a second call of the multi-key [county_run]
  raises [KeyError], a second call of the single-key one raises
  [AttributeError] (for a table with at least one row); in both cases
  the second call leaves the state as it finds it. *)
Theorem county_run_twice_raises :
(forall temp_run api_key county s temp_csv scenario_csv
        t0 s0 ts temps qs t1,
   county_input s temp_csv scenario_csv t0 s0 ts temps qs t1 ->
   NoDup (columns t0).*1 ->
   let first := MultiKey.county_run temp_run temp_csv scenario_csv
                                    api_key county s in
   MultiKey.county_run temp_run temp_csv scenario_csv api_key county first.2
   = (Raise KeyError, first.2))
/\
(forall temp_run api_key s temp_csv scenario_csv t0 s0 ts temps,
   heap s !! temp_csv = Some t0 ->
   heap s !! scenario_csv = Some s0 ->
   temp_csv <> scenario_csv ->
   getitem "date" t0 = Some (VStamp <$> ts) ->
   getitem "temperature" t0 = Some temps ->
   ts <> [] ->
   let first := SingleKey.county_run temp_run temp_csv scenario_csv
                                     api_key s in
   (exists res, first.1 = Ok res) /\
   SingleKey.county_run temp_run temp_csv scenario_csv api_key first.2
   = (Raise AttributeError, first.2)).
Proof.
split.
- intros temp_run api_key county s temp_csv scenario_csv t0 s0 ts temps
         qs t1 Hin Hnd first.
  destruct (county_run_state temp_run api_key county _ _ _ _ _ _ _ _ _ Hin)
    as [tr Hstate].
  subst first. rewrite Hstate.
  destruct (completed_temperature_columns _ _ _ _
              (ci_done _ _ _ _ _ _ _ _ _ Hin)) as (_ & Hd & Hw & _ & Hgone).
  pose proof (ci_distinct _ _ _ _ _ _ _ _ _ Hin) as Hne.
  unfold MultiKey.county_run. apply bind_raise.
  apply (mp_handle_temperature_again _ _ t1 (ts_date <$> ts)); auto.
  simpl. rewrite lookup_insert_ne by done. apply lookup_insert_eq.
- intros temp_run api_key s temp_csv scenario_csv t0 s0 ts temps
         Ht Hs Hne Hd Htemp Hts first.
  destruct (sk_handle_temperature_ok s temp_csv t0 ts temps Ht Hd Htemp)
    as (t1 & Hdrop & Hrun).
  assert (first = (Ok (temp_run s0 t1 api_key None),
                   State (<[temp_csv := t1]> (heap s)) (stdin s) (trace s)))
    as ->.
  { subst first. unfold SingleKey.county_run.
    rewrite (bind_ok _ _ _ _ _ Hrun).
    erewrite bind_ok;
      [|by apply deref_ok; simpl; rewrite lookup_insert_ne by done].
    erewrite bind_ok; [|by apply deref_ok; simpl; apply lookup_insert_eq].
    done. }
  simpl. split; [by eexists|].
  destruct (completed_temperature_columns _ _ _ _ Hdrop) as (_ & Hdate & _).
  unfold SingleKey.county_run, SingleKey.handle_temperature.
  apply bind_raise.
  erewrite bind_ok; [|by apply deref_ok; simpl; apply lookup_insert_eq].
  rewrite (bind_ok _ _ _ _ _ (try_ok _ _ _ _ Hdate)).
  destruct ts as [|t ts]; [done|]. done.
Qed.

Lemma county_run_twice_raises_sample :
let first := MultiKey.county_run Demo.temp_run 0 1 Demo.key_A "Albany"
                                 (Demo.start 5000 []) in
let first1 := SingleKey.county_run Demo.temp_run 0 1 Demo.key_A
                                   (Demo.start 5000 []) in
MultiKey.county_run Demo.temp_run 0 1 Demo.key_A "Albany" first.2
= (Raise KeyError, first.2) /\
(exists res, first1.1 = Ok res) /\
SingleKey.county_run Demo.temp_run 0 1 Demo.key_A first1.2
= (Raise AttributeError, first1.2).
Proof.
split.
- apply (proj1 county_run_twice_raises Demo.temp_run Demo.key_A "Albany"
           _ _ _ _ _ _ _ _ _ (sample_county_input 5000)).
  apply (bool_decide_unpack _). by vm_compute.
- apply (proj2 county_run_twice_raises Demo.temp_run Demo.key_A
           (Demo.start 5000 []) 0%nat 1%nat Demo.temp_table
           (Demo.scenario_table 5000 40000)
           [Timestamp (Date 2018 12 1) 0; Timestamp (Date 2018 12 3) 0]
           [Demo.num 2; Demo.num (-1)]);
    done.
Defined.

(** X5.  [county_run] of the multi-key script is not atomic.  On a
  temperature table without [date] column it raises [KeyError] and has
  changed nothing; on a table with dates but without [temperature]
  column it raises [KeyError] after it has replaced the times of the
  caller's table by dates and added the [weekday] column. *)
Theorem county_run_missing_column temp_run api_key county s
temp_csv scenario_csv t0 :
heap s !! temp_csv = Some t0 ->
(getitem "date" t0 = None ->
 MultiKey.county_run temp_run temp_csv scenario_csv api_key county s
 = (Raise KeyError, s)) /\
(forall cells ts,
   getitem "date" t0 = Some cells ->
   mapM to_datetime cells = Some ts ->
   getitem "temperature" t0 = None ->
   MultiKey.county_run temp_run temp_csv scenario_csv api_key county s
   = (Raise KeyError,
      State (<[temp_csv :=
                 setitem "weekday" (weekday_cells (ts_date <$> ts))
                   (setitem "date" (VDate <$> (ts_date <$> ts)) t0)]>
               (heap s))
            (stdin s) (trace s))).
Proof.
intros Hh. split.
- intros Hnone. unfold MultiKey.county_run, MultiKey.handle_temperature.
  apply bind_raise. rewrite (bind_ok _ _ _ _ _ (deref_ok _ _ _ Hh)).
  by rewrite Hnone.
- intros cells ts Hd Hts Hnone.
  unfold MultiKey.county_run, MultiKey.handle_temperature.
  apply bind_raise.
  rewrite (bind_ok _ _ _ _ _ (deref_ok _ _ _ Hh)).
  rewrite (bind_ok _ _ _ _ _ (try_ok _ _ _ _ Hd)).
  rewrite (bind_ok _ _ _ _ _ (try_ok _ _ _ _ Hts)).
  assert ((fun x => VDate (ts_date x)) <$> ts = VDate <$> (ts_date <$> ts))
    as -> by (by rewrite <-list_fmap_compose).
  rewrite (bind_ok _ _ _ _ _ (update_ok _ _ _ _ Hh)).
  erewrite bind_ok; [|by apply deref_ok; simpl; apply lookup_insert_eq].
  erewrite bind_ok; [|by apply try_ok, getitem_setitem_eq].
  erewrite bind_ok; [|apply try_ok, mapM_cell_weekday].
  erewrite bind_ok; [|by eapply update_ok; simpl; apply lookup_insert_eq].
  simpl. rewrite insert_insert_eq.
  erewrite bind_ok; [|by apply deref_ok; simpl; apply lookup_insert_eq].
  by rewrite !getitem_setitem_ne, Hnone by done.
Qed.

Lemma county_run_missing_column_sample :
let t0 := Frame [Demo.num 0] [("date", [Demo.midnight 2018 12 1])] in
let s := State {[ 0%nat := t0 ]} [] [] in
let t0' := Frame [Demo.num 0] [("temperature", [Demo.num 2])] in
let s' := State {[ 0%nat := t0' ]} [] [] in
MultiKey.county_run Demo.temp_run 0 1 Demo.key_A "Albany" s'
= (Raise KeyError, s') /\
MultiKey.county_run Demo.temp_run 0 1 Demo.key_A "Albany" s
= (Raise KeyError,
   State (<[0%nat :=
              setitem "weekday" (weekday_cells [Date 2018 12 1])
                (setitem "date" [VDate (Date 2018 12 1)] t0)]>
            (heap s))
         [] []).
Proof.
intros t0 s t0' s'. split.
- apply (proj1 (county_run_missing_column Demo.temp_run Demo.key_A "Albany"
                  s' 0%nat 1%nat t0' eq_refl)).
  reflexivity.
- apply (proj2 (county_run_missing_column Demo.temp_run Demo.key_A "Albany"
                  s 0%nat 1%nat t0 eq_refl)
               [Demo.midnight 2018 12 1] [Timestamp (Date 2018 12 1) 0]);
    reflexivity.
Defined.

End CountyRunEdges.

Section CountyRunFleetEdges.
Import PyStr PyDate Pandas Interp Script MultiKey.

Lemma row_getitem_None name k f :
getitem name f = None -> row_getitem name (row_at k f) = None.
Proof.
destruct f as [idx cols]. unfold getitem, row_at. simpl.
induction cols as [|[n vs] cols IH]; simpl; [done|].
destruct (String.eqb_spec n name) as [->|Hn]; [done|].
intros H. destruct (vs !! k); simpl; [|by apply IH].
destruct (String.eqb_spec n name); [done|]. by apply IH.
Qed.

Lemma handle_small_fleet_no_rows county scenario_csv s s0 :
heap s !! scenario_csv = Some s0 -> index s0 = [] ->
handle_small_fleet scenario_csv county s = (Ok [], s).
Proof.
intros Hs Hempty. unfold handle_small_fleet.
rewrite (bind_ok _ _ _ _ _ (deref_ok _ _ _ Hs)).
unfold iterrows, len. by rewrite Hempty.
Qed.

Lemma handle_small_fleet_no_column county scenario_csv s s0 :
heap s !! scenario_csv = Some s0 -> index s0 <> [] ->
getitem "fleet_size" s0 = None ->
handle_small_fleet scenario_csv county s = (Raise KeyError, s).
Proof.
intros Hs Hrows Hnone. unfold handle_small_fleet.
rewrite (bind_ok _ _ _ _ _ (deref_ok _ _ _ Hs)).
unfold iterrows, len. destruct (index s0) as [|v idx]; [done|].
cbn [length seq fmap list_fmap small_fleet_loop].
by rewrite (row_getitem_None "fleet_size" 0 s0 Hnone).
Qed.

(** X6.  A scenario table without [fleet_size] column.  If the table has
  no row, the loop over the scenarios has nothing to read: the call
  returns the result of the external model as it is.  If it has a row,
  the call raises [KeyError] at the first one, before the external model
  is called and after the caller's temperature table has been
  completed. *)
Theorem county_run_without_fleet_size temp_run api_key county s
temp_csv scenario_csv t0 s0 cells ts temps :
heap s !! temp_csv = Some t0 ->
heap s !! scenario_csv = Some s0 ->
temp_csv <> scenario_csv ->
getitem "date" t0 = Some cells ->
mapM to_datetime cells = Some ts ->
getitem "temperature" t0 = Some temps ->
getitem "fleet_size" s0 = None ->
exists t1,
  drop "temperature" (with_weekdays (ts_date <$> ts) temps t0) = Some t1 /\
  (index s0 = [] ->
   county_run temp_run temp_csv scenario_csv api_key county s
   = (Ok (temp_run s0 t1 api_key (Some county)),
      State (<[temp_csv := t1]> (heap s)) (stdin s)
            (trace s ++ [Log DEBUG
                           [Txt ("Running with API key: " +:+ api_key)]]))) /\
  (index s0 <> [] ->
   county_run temp_run temp_csv scenario_csv api_key county s
   = (Raise KeyError,
      State (<[temp_csv := t1]> (heap s)) (stdin s) (trace s))).
Proof.
intros Ht Hs Hne Hd Hts Htemp Hnone.
destruct (mp_handle_temperature_ok s temp_csv t0 cells ts temps Ht Hd Hts Htemp)
  as (t1 & Hdrop & Hrun).
exists t1. split; [done|].
assert (heap (State (<[temp_csv := t1]> (heap s)) (stdin s) (trace s))
          !! scenario_csv = Some s0) as Hs1.
{ simpl. by rewrite lookup_insert_ne. }
unfold county_run. rewrite (bind_ok _ _ _ _ _ Hrun). split.
- intros Hempty.
  rewrite (bind_ok _ _ _ _ _
             (handle_small_fleet_no_rows county _ _ _ Hs1 Hempty)).
  unfold debug. rewrite (bind_ok _ _ _ _ _ (emit_logged _ _)).
  erewrite bind_ok; [|by apply deref_ok].
  erewrite bind_ok; [|by apply deref_ok; simpl; apply lookup_insert_eq].
  erewrite bind_ok; [|by apply deref_ok].
  unfold iterrows, len. by rewrite Hempty.
- intros Hrows. apply bind_raise.
  by apply (handle_small_fleet_no_column county _ _ s0).
Qed.

Lemma county_run_without_fleet_size_sample :
let s0 := Frame [Demo.num 0] [("mean_dvmt", [Demo.num 35])] in
let s := State {[ 0%nat := Demo.temp_table; 1%nat := s0 ]} [] [] in
let e0 := Frame [] [("mean_dvmt", [])] in
let e := State {[ 0%nat := Demo.temp_table; 1%nat := e0 ]} [] [] in
exists t1,
  drop "temperature"
    (with_weekdays (ts_date <$> [Timestamp (Date 2018 12 1) 0;
                                 Timestamp (Date 2018 12 3) 0])
                   [Demo.num 2; Demo.num (-1)] Demo.temp_table) = Some t1 /\
  county_run Demo.temp_run 0 1 Demo.key_A "Albany" e
  = (Ok (Demo.temp_run e0 t1 Demo.key_A (Some "Albany")),
     State (<[0%nat := t1]> (heap e)) []
           ([] ++ [Log DEBUG
                     [Txt ("Running with API key: " +:+ Demo.key_A)]])) /\
  county_run Demo.temp_run 0 1 Demo.key_A "Albany" s
  = (Raise KeyError, State (<[0%nat := t1]> (heap s)) [] []).
Proof.
intros s0 s e0 e.
destruct (county_run_without_fleet_size Demo.temp_run Demo.key_A "Albany"
            s 0%nat 1%nat Demo.temp_table s0
            [Demo.midnight 2018 12 1; Demo.midnight 2018 12 3]
            [Timestamp (Date 2018 12 1) 0; Timestamp (Date 2018 12 3) 0]
            [Demo.num 2; Demo.num (-1)]
            eq_refl eq_refl ltac:(lia) eq_refl eq_refl eq_refl eq_refl)
  as (t1 & Hdrop & _ & Hrows).
destruct (county_run_without_fleet_size Demo.temp_run Demo.key_A "Albany"
            e 0%nat 1%nat Demo.temp_table e0
            [Demo.midnight 2018 12 1; Demo.midnight 2018 12 3]
            [Timestamp (Date 2018 12 1) 0; Timestamp (Date 2018 12 3) 0]
            [Demo.num 2; Demo.num (-1)]
            eq_refl eq_refl ltac:(lia) eq_refl eq_refl eq_refl eq_refl)
  as (t1' & Hdrop' & Hempty & _).
exists t1. split; [exact Hdrop|]. split.
- rewrite Hdrop in Hdrop'. injection Hdrop' as <-. by apply Hempty.
- by apply Hrows.
Defined.

End CountyRunFleetEdges.

Section CountyRunCommutes.
Import PyStr PyDate Pandas Interp Script MultiKey.
Local Open Scope float_scope.

Lemma scale_table_pure sf table :
exists o, forall s, scale_table sf table s = (o, s).
Proof.
unfold scale_table. destruct (select power_columns table) as [sel|].
- destruct (mul_scalar sf sel) as [rhs|] eqn:E; eexists; intros s;
    rewrite (bind_ok _ _ _ _ _ (try_ok _ _ _ _ eq_refl)), E; reflexivity.
- eexists. intros s. reflexivity.
Qed.

Lemma scale_loop_step k (rw : row) rows a r s :
scale_loop ((k, rw) :: rows) a r s
= match a !! k with
  | None => (Raise IndexError, s)
  | Some sf =>
      if negb (sf =? 1) then
        match r !! k with
        | None => (Raise KeyError, s)
        | Some table =>
            match scale_table sf table s with
            | (Ok table', s1) => scale_loop rows a (<[k := table']> r) s1
            | (Raise e, s1) => (Raise e, s1)
            end
        end
      else scale_loop rows a r s
  end.
Proof.
cbn [scale_loop]. unfold bind at 1, array_get.
destruct (a !! k) as [sf|]; [|done]. cbn [try ret].
destruct (sf =? 1); simpl; [done|].
unfold bind at 1. destruct (r !! k) as [table|]; [|done]. cbn [try ret].
unfold bind at 1. by destruct (scale_table sf table s) as [[t'|e] s1].
Qed.

(** The outcome of the scaling loop does not depend on the state. *)
Lemma scale_loop_stateless rows a r s s' :
(scale_loop rows a r s).1 = (scale_loop rows a r s').1.
Proof.
revert r. induction rows as [|[k rw] rows IH]; intros r; [done|].
rewrite !scale_loop_step. destruct (a !! k) as [sf|]; [|done].
destruct (sf =? 1); simpl; [apply IH|].
destruct (r !! k) as [table|]; [|done].
destruct (scale_table_pure sf table) as [o Ho]. rewrite !Ho.
destruct o; [apply IH|done].
Qed.

(** The hypotheses on a call look at the two tables of the call only. *)
Lemma county_input_frame s s' temp_csv scenario_csv t0 s0 ts temps qs t1 :
county_input s temp_csv scenario_csv t0 s0 ts temps qs t1 ->
heap s' !! temp_csv = heap s !! temp_csv ->
heap s' !! scenario_csv = heap s !! scenario_csv ->
county_input s' temp_csv scenario_csv t0 s0 ts temps qs t1.
Proof.
intros [Ht Hs Hne Hd Htemp Hdone Hfs Hrows] E1 E2.
constructor; try done; congruence.
Qed.

(** What a call returns and the tables it leaves, on well-formed
  arguments. *)
Lemma county_run_total temp_run api_key county s temp_csv scenario_csv
t0 s0 ts temps qs t1 :
county_input s temp_csv scenario_csv t0 s0 ts temps qs t1 ->
returns_tables
  (temp_run (corrected_scenarios qs s0) t1 api_key (Some county)) (len s0) ->
exists res tr,
  county_run temp_run temp_csv scenario_csv api_key county s
  = (Ok res,
     State (<[scenario_csv := corrected_scenarios qs s0]>
              (<[temp_csv := t1]> (heap s)))
           (stdin s) (trace s ++ tr)) /\
  forall s',
    (scale_loop (iterrows (corrected_scenarios qs s0)) (scale_factor <$> qs)
       (temp_run (corrected_scenarios qs s0) t1 api_key (Some county)) s').1
    = Ok res.
Proof.
intros Hin Hraw.
destruct (county_run_ok temp_run api_key county _ _ _ _ _ _ _ _ _ Hin Hraw)
  as (res & s1 & Hrun).
destruct (county_run_state temp_run api_key county _ _ _ _ _ _ _ _ _ Hin)
  as [tr Hstate].
destruct (county_run_unfold temp_run api_key county _ _ _ _ _ _ _ _ _ Hin)
  as [tr' Hunfold].
rewrite Hrun in Hstate. simpl in Hstate. subst s1.
exists res, tr. split; [done|]. intros s'.
transitivity
  (county_run temp_run temp_csv scenario_csv api_key county s).1;
  [|by rewrite Hrun].
rewrite Hunfold. apply scale_loop_stateless.
Qed.

(** X7.  Two calls of [county_run] on different tables commute: whichever
  of the two runs first, both return the same results and the tables
  are left the same.  (The log records come in the order of the
  calls.) *)
Theorem county_runs_commute temp_run s
keyA countyA tempA scenA t0A s0A tsA tempsA qsA t1A
keyB countyB tempB scenB t0B s0B tsB tempsB qsB t1B :
county_input s tempA scenA t0A s0A tsA tempsA qsA t1A ->
county_input s tempB scenB t0B s0B tsB tempsB qsB t1B ->
default_indexed s0A -> default_indexed s0B ->
tempA <> tempB -> tempA <> scenB -> scenA <> tempB -> scenA <> scenB ->
returns_tables
  (temp_run (corrected_scenarios qsA s0A) t1A keyA (Some countyA))
  (len s0A) ->
returns_tables
  (temp_run (corrected_scenarios qsB s0B) t1B keyB (Some countyB))
  (len s0B) ->
exists resA resB sAB sBA,
  both (county_run temp_run tempA scenA keyA countyA)
       (county_run temp_run tempB scenB keyB countyB) s
  = (Ok (resA, resB), sAB) /\
  both (county_run temp_run tempB scenB keyB countyB)
       (county_run temp_run tempA scenA keyA countyA) s
  = (Ok (resB, resA), sBA) /\
  heap sAB = heap sBA /\ stdin sAB = stdin sBA.
Proof.
intros HA HB _ _ N1 N2 N3 N4 HrawA HrawB.
destruct (county_run_total temp_run keyA countyA _ _ _ _ _ _ _ _ _ HA HrawA)
  as (resA & trA & HrunA & HresA).
destruct (county_run_total temp_run keyB countyB _ _ _ _ _ _ _ _ _ HB HrawB)
  as (resB & trB & HrunB & HresB).
set (sA := State (<[scenA := corrected_scenarios qsA s0A]>
                    (<[tempA := t1A]> (heap s))) (stdin s) (trace s ++ trA)).
set (sB := State (<[scenB := corrected_scenarios qsB s0B]>
                    (<[tempB := t1B]> (heap s))) (stdin s) (trace s ++ trB)).
assert (county_input sA tempB scenB t0B s0B tsB tempsB qsB t1B) as HB'.
{ apply (county_input_frame s); [done|simpl..];
    by rewrite !lookup_insert_ne by done. }
assert (county_input sB tempA scenA t0A s0A tsA tempsA qsA t1A) as HA'.
{ apply (county_input_frame s); [done|simpl..];
    by rewrite !lookup_insert_ne by done. }
destruct (county_run_total temp_run keyB countyB _ _ _ _ _ _ _ _ _ HB' HrawB)
  as (resB' & trB' & HrunB' & HresB').
destruct (county_run_total temp_run keyA countyA _ _ _ _ _ _ _ _ _ HA' HrawA)
  as (resA' & trA' & HrunA' & HresA').
assert (resB' = resB) as ->.
{ specialize (HresB s). specialize (HresB' s). congruence. }
assert (resA' = resA) as ->.
{ specialize (HresA s). specialize (HresA' s). congruence. }
eexists resA, resB, _, _. unfold both.
fold sA in HrunA. fold sB in HrunB.
rewrite HrunA, HrunB', HrunB, HrunA'. split; [done|]. split; [done|].
simpl. split; [|done].
apply map_eq. intros l. rewrite !lookup_insert.
repeat case_decide; subst; done.
Qed.

Lemma sample_county_input_bronx (fleet : Z) :
county_input (Demo.start fleet []) 2 3
  Demo.temp_table (Demo.scenario_table fleet 40000)
  [Timestamp (Date 2018 12 1) 0; Timestamp (Date 2018 12 3) 0]
  [Demo.num 2; Demo.num (-1)]
  [Float64.of_Z fleet; Float64.of_Z 40000]
  (Frame [Demo.num 0; Demo.num 1]
         [("date", [VDate (Date 2018 12 1); VDate (Date 2018 12 3)]);
          ("weekday", [Demo.num 5; Demo.num 0]);
          ("temp_c", [Demo.num 2; Demo.num (-1)])]).
Proof.
constructor; try done.
by exists [Demo.midnight 2018 12 1; Demo.midnight 2018 12 3].
Defined.

Lemma county_runs_commute_sample :
exists resA resB sAB sBA,
  both (county_run Demo.temp_run 0 1 Demo.key_A "Albany")
       (county_run Demo.temp_run 2 3 Demo.key_B "Bronx") (Demo.start 5000 [])
  = (Ok (resA, resB), sAB) /\
  both (county_run Demo.temp_run 2 3 Demo.key_B "Bronx")
       (county_run Demo.temp_run 0 1 Demo.key_A "Albany") (Demo.start 5000 [])
  = (Ok (resB, resA), sBA) /\
  heap sAB = heap sBA /\ stdin sAB = stdin sBA.
Proof.
apply (county_runs_commute Demo.temp_run (Demo.start 5000 [])
         Demo.key_A "Albany" 0%nat 1%nat _ _ _ _ _ _
         Demo.key_B "Bronx" 2%nat 3%nat _ _ _ _ _ _
         (sample_county_input 5000) (sample_county_input_bronx 5000));
  try done; by apply sample_returns_tables.
Defined.

End CountyRunCommutes.

(* ===================================================================== *)
(** * Further properties of the key rotation *)
(* ===================================================================== *)

Section RotationWindow.
Import Interp Script.

Lemma rotate_nat_add_mod i k n :
rotate_nat_add i k n = ((i + k) mod n)%nat.
Proof.
unfold rotate_nat_add.
by rewrite <-Nat2Z.inj_add, <-Nat2Z.inj_mod, Nat2Z.id.
Qed.

Lemma rotate_Permutation {A} n (l : list A) : rotate n l ≡ₚ l.
Proof.
unfold rotate. rewrite Permutation_app_comm. by rewrite take_drop.
Qed.

(** X8.  Any [n] tasks submitted in a row, [n] being the size of the pool,
  use the whole pool: their keys are the pool rotated by the index of
  the first of them, hence every key of the pool exactly as often as it
  occurs there. *)
Theorem keys_of_consecutive_tasks pool counties work s futures s' i :
(1 <= length pool)%nat ->
(length work <= length counties)%nat ->
MultiKey.submit_loop 0 work pool (length pool) counties [] s
= (Ok futures, s') ->
(i + length pool <= length work)%nat ->
t_api_key <$> take (length pool) (drop i futures) = rotate i pool /\
t_api_key <$> take (length pool) (drop i futures) ≡ₚ pool.
Proof.
intros Hpool Hlen Hrun Hi.
destruct (mp_submit_loop_spec pool counties Hpool work 0%nat [] s Hlen)
  as (new & Hrun' & Hnew & Hall).
rewrite Hrun in Hrun'. injection Hrun' as -> _. simpl.
assert (t_api_key <$> take (length pool) (drop i new) = rotate i pool) as E.
{ apply list_eq. intros k. rewrite list_lookup_fmap.
  destruct (decide (k < length pool)%nat) as [Hk|Hk].
  - rewrite lookup_take_lt, lookup_drop by done.
    rewrite lookup_rotate_r, rotate_nat_add_mod by done.
    destruct (lookup_lt_is_Some_2 new (i + k)) as [t Ht]; [lia|].
    destruct (Hall (i + k)%nat t Ht) as (Hkey & _).
    change (0 + (i + k))%nat with (i + k)%nat in Hkey.
    by rewrite Ht, Hkey.
  - rewrite lookup_take_ge by lia. simpl. symmetry.
    apply lookup_ge_None. rewrite length_rotate. lia. }
split; [done|]. rewrite E. apply rotate_Permutation.
Qed.

Lemma keys_of_consecutive_tasks_sample :
let pool := [Demo.key_A; Demo.key_B] in
let futures :=
  [Task 0 1 Demo.key_A (Some "Albany"); Task 2 3 Demo.key_B (Some "Bronx");
   Task 4 5 Demo.key_A (Some "Kings"); Task 6 7 Demo.key_B (Some "New York");
   Task 8 9 Demo.key_A (Some "Queens")] in
t_api_key <$> take 2 (drop 3 futures) = rotate 3 pool /\
t_api_key <$> take 2 (drop 3 futures) ≡ₚ pool.
Proof.
intros pool futures.
apply (keys_of_consecutive_tasks pool
         (county_names Demo.five_counties)
         [(0, 1); (2, 3); (4, 5); (6, 7); (8, 9)]%nat
         (Demo.start5 40000 []) futures
         (State (heap (Demo.start5 40000 [])) [] (Submit <$> futures)) 3);
  [simpl; lia|simpl; lia|reflexivity|simpl; lia].
Defined.

End RotationWindow.

(* ===================================================================== *)
(** * Further properties of the key set-up and of the scripts *)
(* ===================================================================== *)

Section KeySetup.
Import PyStr Interp Script.

Lemma accepted_valid file_lines : Forall valid_key (accepted file_lines).
Proof.
unfold accepted. apply Forall_forall. intros k Hk.
by apply list_elem_of_filter in Hk as [Hk _].
Qed.

Lemma accepted_rejections_length file_lines :
(length (accepted file_lines) + length (rejections file_lines)
 = length file_lines)%nat.
Proof.
unfold accepted, rejections. rewrite length_fmap.
induction file_lines as [|l ls IH]; [done|]. rewrite fmap_cons.
destruct (decide (valid_key (strip l))) as [Hv|Hv].
- rewrite filter_cons_True by done.
  rewrite (filter_cons_False _ l) by (by intros H; apply H).
  simpl. lia.
- rewrite filter_cons_False by done.
  rewrite (filter_cons_True _ l) by done. simpl. lia.
Qed.

(** The key set-up of the multi-key script on a file with a valid line. *)
Lemma mp_setup_api_key_file text s :
accepted (lines text) <> [] ->
MultiKey.setup_api_key (Some text) s
= (Ok (accepted (lines text), length (accepted (lines text))),
   logged s (rejections (lines text)
             ++ [Log INFO [Txt (str (length (accepted (lines text)))
                                +:+ " API keys found in file.")]])).
Proof.
intros Hne. unfold MultiKey.setup_api_key.
rewrite (bind_ok _ _ _ _ _ (read_keys_spec _ _ _)). simpl.
destruct (accepted (lines text)) as [|k pool] eqn:E; [done|]. simpl.
unfold info. rewrite (bind_ok _ _ _ _ _ (emit_logged _ _)).
by rewrite logged_logged.
Qed.

(** X9.  A key file with at least one valid line is enough: the multi-key
  script then never asks the user.  The pool is made of the valid lines
  of the file, [n_api_key] is their number, every line that is not in
  the pool has its warning (the sizes add up to the number of lines),
  and the only other effect is the log record that counts the keys. *)
Theorem key_file_with_valid_line text s :
filter valid_key (strip <$> lines text) <> [] ->
let pool := filter valid_key (strip <$> lines text) in
exists warnings,
  MultiKey.setup_api_key (Some text) s
  = (Ok (pool, length pool),
     State (heap s) (stdin s)
           (trace s ++ warnings
            ++ [Log INFO [Txt (str (length pool)
                               +:+ " API keys found in file.")]])) /\
  Forall (fun ev => exists msg, ev = Log WARNING msg) warnings /\
  (length pool + length warnings = length (lines text))%nat /\
  Forall (fun k => PyStr.len k = 40%nat) pool.
Proof.
intros Hne pool. exists (rejections (lines text)).
split; [|split; [|split]].
- by rewrite (mp_setup_api_key_file text s Hne).
- unfold rejections. apply Forall_fmap, Forall_forall. intros l _.
  by eexists.
- apply accepted_rejections_length.
- apply accepted_valid.
Qed.

Lemma key_file_with_valid_line_sample :
let text := "short" +:+ LF +:+ Demo.key_A +:+ LF in
let pool := filter valid_key (strip <$> lines text) in
exists warnings,
  MultiKey.setup_api_key (Some text) (Demo.start 5000 ["typed"])
  = (Ok (pool, length pool),
     State (heap (Demo.start 5000 ["typed"])) ["typed"]
           ([] ++ warnings
            ++ [Log INFO [Txt (str (length pool)
                               +:+ " API keys found in file.")]])) /\
  Forall (fun ev => exists msg, ev = Log WARNING msg) warnings /\
  (length pool + length warnings = length (lines text))%nat /\
  Forall (fun k => PyStr.len k = 40%nat) pool.
Proof.
apply (key_file_with_valid_line ("short" +:+ LF +:+ Demo.key_A +:+ LF)
         (Demo.start 5000 ["typed"])).
by vm_compute.
Defined.

End KeySetup.

(* ===================================================================== *)
(** * Properties of the scripts as a whole *)
(* ===================================================================== *)

Section ScriptEffects.
Import PyStr Interp Script.

Lemma emits_setup_directories env : emits is_setup (setup_directories env).
Proof. unfold setup_directories. effect_steps. Qed.

Lemma emits_read_keys file_lines pool :
emits is_setup (MultiKey.read_keys file_lines pool).
Proof.
revert pool. induction file_lines as [|line rest IH]; intros pool;
  cbn [MultiKey.read_keys]; effect_steps; apply IH.
Qed.

Lemma emits_mp_setup_api_key file : emits is_setup (MultiKey.setup_api_key file).
Proof.
unfold MultiKey.setup_api_key, MultiKey.ask_api_key.
destruct file; effect_steps; apply emits_read_keys.
Qed.

Lemma emits_sk_setup_api_key file : emits is_setup (SingleKey.setup_api_key file).
Proof. unfold SingleKey.setup_api_key. destruct file; effect_steps. Qed.

Lemma emits_mp_county_run temp_run t sc key county :
emits is_log (MultiKey.county_run temp_run t sc key county).
Proof.
unfold MultiKey.county_run, MultiKey.handle_small_fleet. effect_steps;
  try first [ apply emits_mp_handle_temperature
            | apply emits_small_fleet_loop | apply emits_scale_loop ].
Qed.

Lemma emits_sk_county_run P temp_run t sc key :
emits P (SingleKey.county_run temp_run t sc key).
Proof. unfold SingleKey.county_run. effect_steps. Qed.

Lemma emits_mp_scenario_sink fig out county m rows r :
emits no_model_call (MultiKey.scenario_sink fig out county m rows r).
Proof.
induction rows as [|[sc rw] rows IH]; cbn [MultiKey.scenario_sink];
  effect_steps; apply IH.
Qed.

Lemma emits_sk_scenario_sink fig out county rows r :
emits no_model_call (SingleKey.scenario_sink fig out county rows r).
Proof.
induction rows as [|[sc rw] rows IH]; cbn [SingleKey.scenario_sink];
  effect_steps; apply IH.
Qed.

Lemma is_setup_no_model_call ev : is_setup ev -> no_model_call ev.
Proof. by destruct ev. Qed.

Lemma is_log_no_model_call ev : is_log ev -> no_model_call ev.
Proof. by destruct ev. Qed.

Lemma no_model_call_submits_keys Q ev : no_model_call ev -> submits_keys Q ev.
Proof. by destruct ev. Qed.

Lemma emits_mp_completed_loop temp_run i order futures w fig out m :
emits no_model_call
  (MultiKey.completed_loop temp_run i order futures w fig out m).
Proof.
revert i. induction order as [|fut order IH]; intros i;
  cbn [MultiKey.completed_loop]; unfold MultiKey.future_result;
  effect_steps;
  try first [ apply (emits_weaken _ _ _ is_log_no_model_call),
                emits_mp_county_run
            | apply (emits_weaken _ _ _ is_log_no_model_call),
                emits_small_fleet_loop
            | apply emits_scale_loop
            | apply emits_mp_scenario_sink | apply IH ].
Qed.

Lemma emits_sk_completed_loop temp_run i order futures w fig out :
emits no_model_call
  (SingleKey.completed_loop temp_run i order futures w fig out).
Proof.
revert i. induction order as [|fut order IH]; intros i;
  cbn [SingleKey.completed_loop]; unfold SingleKey.future_result;
  effect_steps;
  try first [ apply emits_sk_county_run
            | apply emits_sk_scenario_sink | apply IH ].
Qed.

(** The keys of the submission loops come from the pool. *)
Lemma emits_mp_submit_loop Q i work pool n counties futures :
Forall Q pool ->
emits (submits_keys Q) (MultiKey.submit_loop i work pool n counties futures).
Proof.
intros Hpool. revert i futures.
induction work as [|[t sc] work IH]; intros i futures;
  cbn [MultiKey.submit_loop]; [apply emits_ret|].
apply emits_bind; [apply emits_pymod|]. intros k.
apply emits_bind_post; [apply emits_array_get|]. intros s key s1 Hkey.
apply emits_bind; [apply emits_array_get|]. intros county.
apply emits_bind; [|intros _; apply IH].
apply emits_emit. simpl. unfold array_get in Hkey.
destruct (pool !! k) as [key'|] eqn:E; [|done].
injection Hkey as -> _.
eapply Forall_forall; [exact Hpool|]. by eapply list_elem_of_lookup_2.
Qed.

Lemma emits_sk_submit_loop (Q : string -> Prop) work key futures :
Q key -> emits (submits_keys Q) (SingleKey.submit_loop work key futures).
Proof.
intros Hkey. revert futures.
induction work as [|[t sc] work IH]; intros futures;
  cbn [SingleKey.submit_loop]; [apply emits_ret|].
apply emits_bind; [by apply emits_emit|]. intros _. apply IH.
Qed.

(** The pool of the multi-key script holds accepted keys only. *)
Lemma mp_setup_api_key_valid file s pool n s' :
MultiKey.setup_api_key file s = (Ok (pool, n), s') -> Forall valid_key pool.
Proof.
unfold MultiKey.setup_api_key. destruct file as [text|].
- rewrite (bind_ok _ _ _ _ _ (read_keys_spec _ _ _)). simpl.
  destruct (Nat.ltb_spec 0 (length (accepted (lines text)))) as [Hn|Hn].
  + unfold info. rewrite (bind_ok _ _ _ _ _ (emit_logged _ _)).
    intros [= <- <- <-]. apply accepted_valid.
  + unfold warning. rewrite (bind_ok _ _ _ _ _ (emit_logged _ _)).
    rewrite ask_api_key_spec.
    destruct (stdin _) as [|k rest]; [done|]. simpl.
    destruct (decide (valid_key k)) as [Hk|Hk].
    * rewrite bool_decide_eq_true_2 by done. intros [= <- <- <-].
      apply Forall_app. split; [apply accepted_valid|by constructor].
    * by rewrite bool_decide_eq_false_2.
- unfold warning. rewrite (bind_ok _ _ _ _ _ (emit_logged _ _)).
  rewrite ask_api_key_spec.
  destruct (stdin _) as [|k rest]; [done|]. simpl.
  destruct (decide (valid_key k)) as [Hk|Hk].
  + rewrite bool_decide_eq_true_2 by done. intros [= <- <- <-].
    by constructor.
  + by rewrite bool_decide_eq_false_2.
Qed.

Lemma sk_setup_api_key_checked file s key s' :
SingleKey.setup_api_key file s = (Ok key, s') -> checked_or_demo key.
Proof.
unfold SingleKey.setup_api_key. intros H.
apply bind_inv_ok in H as (k & s1 & _ & H).
destruct (Nat.eqb_spec (PyStr.len k) 40) as [E|E]; simpl in H.
- injection H as <- _. by left.
- apply bind_inv_ok in H as (? & ? & _ & H). injection H as <- _.
  by right.
Qed.

Lemma ny_setup_api_key_checked file s key s' :
NyEvProj.setup_api_key file s = (Ok key, s') -> checked_or_demo key.
Proof.
unfold NyEvProj.setup_api_key. intros H.
apply bind_inv_ok in H as (k & s1 & _ & H).
destruct (Nat.eqb_spec (PyStr.len k) 40) as [E|E]; simpl in H.
- injection H as <- _. by left.
- injection H as <- _. by right.
Qed.

Lemma emits_ny_setup_api_key file :
emits no_model_call (NyEvProj.setup_api_key file).
Proof. unfold NyEvProj.setup_api_key. destruct file; effect_steps. Qed.

(** X10.  No script hands an unchecked key to the model.  Wherever a run
  of the multi-key script ends, every task it has submitted carries a
  key of 40 characters; in the single-key script and in [ny_ev_proj.py]
  the key of every task, and of the call of [run], has 40 characters or
  is the demo key. *)
Theorem scripts_use_checked_keys temp_run env w order file s :
(exists tr,
    trace (MultiKey.main temp_run env w order s).2 = trace s ++ tr /\
    Forall (submits_keys (fun k => PyStr.len k = 40%nat)) tr) /\
(exists tr,
    trace (SingleKey.main temp_run env w order s).2 = trace s ++ tr /\
    Forall (submits_keys checked_or_demo) tr) /\
(exists tr,
    trace (NyEvProj.main file s).2 = trace s ++ tr /\
    Forall (submits_keys checked_or_demo) tr).
Proof.
split; [|split].
- revert s. change (emits (submits_keys valid_key)
                      (MultiKey.main temp_run env w order)).
  unfold MultiKey.main.
  apply emits_bind.
  { apply (emits_weaken is_setup); [|apply emits_setup_directories].
    intros ev H. by apply no_model_call_submits_keys,
                          is_setup_no_model_call. }
  intros [[input_dir output_dir] fig_dir].
  apply emits_bind_post.
  { apply (emits_weaken is_setup); [|apply emits_mp_setup_api_key].
    intros ev H. by apply no_model_call_submits_keys,
                          is_setup_no_model_call. }
  intros s0 [pool n] s1 Hkeys.
  apply mp_setup_api_key_valid in Hkeys.
  unfold MultiKey.run_month. effect_steps;
    try first [ by apply emits_mp_submit_loop
              | apply (emits_weaken no_model_call);
                [apply no_model_call_submits_keys
                |apply emits_mp_completed_loop] ].
- revert s. change (emits (submits_keys checked_or_demo)
                      (SingleKey.main temp_run env w order)).
  unfold SingleKey.main.
  apply emits_bind.
  { apply (emits_weaken is_setup); [|apply emits_setup_directories].
    intros ev H. by apply no_model_call_submits_keys,
                          is_setup_no_model_call. }
  intros [[input_dir output_dir] fig_dir].
  apply emits_bind_post.
  { apply (emits_weaken is_setup); [|apply emits_sk_setup_api_key].
    intros ev H. by apply no_model_call_submits_keys,
                          is_setup_no_model_call. }
  intros s0 key s1 Hkey. apply sk_setup_api_key_checked in Hkey.
  effect_steps;
    try first [ by apply emits_sk_submit_loop
              | apply (emits_weaken no_model_call);
                [apply no_model_call_submits_keys
                |apply emits_sk_completed_loop] ].
- revert s. change (emits (submits_keys checked_or_demo)
                      (NyEvProj.main file)).
  unfold NyEvProj.main.
  apply emits_bind_post.
  { apply (emits_weaken no_model_call);
      [apply no_model_call_submits_keys|apply emits_ny_setup_api_key]. }
  intros s0 key s1 Hkey. apply ny_setup_api_key_checked in Hkey.
  by apply emits_emit.
Qed.

End ScriptEffects.

Section ScriptEdges.
Import PyStr Pandas Interp Script.

(** X11.  Without input directory both example scripts stop at once:
  they raise [SystemExit] after one CRITICAL log record that names the
  directory.  No directory has been created, even if the output or the
  figure directory is missing too, no key has been read or asked for
  and no task has been submitted. *)
Theorem missing_input_directory_stops temp_run env w order s :
input_dir_exists env = false ->
let s' :=
  State (heap s) (stdin s)
        (trace s ++ [Log CRITICAL
                       [Txt ("Input directory does not exist: "
                             +:+ path_join (cwd env) "InputData")]]) in
MultiKey.main temp_run env w order s = (Raise SystemExit, s') /\
SingleKey.main temp_run env w order s = (Raise SystemExit, s').
Proof.
intros Hin s'.
assert (setup_directories env s = (Raise SystemExit, s')) as Hdirs.
{ destruct env as [c i o f file]. simpl in Hin. subst i.
  unfold setup_directories. simpl. reflexivity. }
split.
- unfold MultiKey.main. by rewrite (bind_raise _ _ _ _ _ Hdirs).
- unfold SingleKey.main. by rewrite (bind_raise _ _ _ _ _ Hdirs).
Qed.

Lemma missing_input_directory_stops_sample :
let env := Env "/home/user" false false false (Some Demo.key_A) in
let s' :=
  State (heap (Demo.start 40000 ["typed"])) ["typed"]
        ([] ++ [Log CRITICAL
                  [Txt ("Input directory does not exist: "
                        +:+ path_join "/home/user" "InputData")]]) in
MultiKey.main Demo.temp_run env Demo.counties [0; 1; 2]%nat
              (Demo.start 40000 ["typed"])
= (Raise SystemExit, s') /\
SingleKey.main Demo.temp_run env Demo.counties [0; 1; 2]%nat
               (Demo.start 40000 ["typed"])
= (Raise SystemExit, s').
Proof.
apply (missing_input_directory_stops Demo.temp_run
         (Env "/home/user" false false false (Some Demo.key_A))
         Demo.counties [0; 1; 2]%nat (Demo.start 40000 ["typed"])).
reflexivity.
Defined.

Lemma mp_scenario_sink_ok fig out county m rows r s :
Forall (fun rw : nat * row => is_Some (r !! rw.1)) rows ->
MultiKey.scenario_sink fig out county m rows r s
= (Ok tt, logged s (rows ≫= fun rw => mp_artifacts fig out county m r rw.1)).
Proof.
intros Hall. revert s. induction Hall as [|[sc rw] rows [table Ht] _ IH];
  intros s.
- simpl. by rewrite logged_nil.
- cbn [MultiKey.scenario_sink]. simpl in Ht.
  rewrite (bind_ok _ _ _ _ _ (emit_logged _ _)).
  rewrite (bind_ok _ _ _ _ _ (try_ok KeyError _ _ _ Ht)).
  rewrite (bind_ok _ _ _ _ _ (emit_logged _ _)).
  rewrite IH, !logged_logged. cbn [mbind list_bind]. unfold mp_artifacts at 2.
  simpl. by rewrite Ht.
Qed.

Lemma sk_scenario_sink_ok fig out county rows r s :
Forall (fun rw : nat * row => is_Some (r !! rw.1)) rows ->
SingleKey.scenario_sink fig out county rows r s
= (Ok tt, logged s (rows ≫= fun rw => sk_artifacts fig out county r rw.1)).
Proof.
intros Hall. revert s. induction Hall as [|[sc rw] rows [table Ht] _ IH];
  intros s.
- simpl. by rewrite logged_nil.
- cbn [SingleKey.scenario_sink]. simpl in Ht.
  rewrite (bind_ok _ _ _ _ _ (emit_logged _ _)).
  rewrite (bind_ok _ _ _ _ _ (try_ok KeyError _ _ _ Ht)).
  rewrite (bind_ok _ _ _ _ _ (emit_logged _ _)).
  rewrite IH, !logged_logged. cbn [mbind list_bind]. unfold sk_artifacts at 2.
  simpl. by rewrite Ht.
Qed.

Lemma mp_scenario_sink_missing fig out county m pre sc rw post r s :
Forall (fun rw : nat * row => is_Some (r !! rw.1)) pre ->
r !! sc = None ->
MultiKey.scenario_sink fig out county m (pre ++ (sc, rw) :: post) r s
= (Raise KeyError,
   logged s ((pre ≫= fun rw => mp_artifacts fig out county m r rw.1)
             ++ [LoadPlotting r sc
                   (path_join fig
                      (MultiKey.artifact_name county m sc "png"))])).
Proof.
intros Hall Hsc. revert s.
induction Hall as [|[sc' rw'] pre [table Ht] _ IH]; intros s.
- cbn [app MultiKey.scenario_sink].
  rewrite (bind_ok _ _ _ _ _ (emit_logged _ _)). by rewrite Hsc.
- cbn [app MultiKey.scenario_sink]. simpl in Ht.
  rewrite (bind_ok _ _ _ _ _ (emit_logged _ _)).
  rewrite (bind_ok _ _ _ _ _ (try_ok KeyError _ _ _ Ht)).
  rewrite (bind_ok _ _ _ _ _ (emit_logged _ _)).
  rewrite IH, !logged_logged. cbn [mbind list_bind].
  unfold mp_artifacts at 2. simpl. by rewrite Ht.
Qed.

Lemma sk_scenario_sink_missing fig out county pre sc rw post r s :
Forall (fun rw : nat * row => is_Some (r !! rw.1)) pre ->
r !! sc = None ->
SingleKey.scenario_sink fig out county (pre ++ (sc, rw) :: post) r s
= (Raise KeyError,
   logged s ((pre ≫= fun rw => sk_artifacts fig out county r rw.1)
             ++ [LoadPlotting r sc
                   (path_join fig
                      (SingleKey.artifact_name county sc "png"))])).
Proof.
intros Hall Hsc. revert s.
induction Hall as [|[sc' rw'] pre [table Ht] _ IH]; intros s.
- cbn [app SingleKey.scenario_sink].
  rewrite (bind_ok _ _ _ _ _ (emit_logged _ _)). by rewrite Hsc.
- cbn [app SingleKey.scenario_sink]. simpl in Ht.
  rewrite (bind_ok _ _ _ _ _ (emit_logged _ _)).
  rewrite (bind_ok _ _ _ _ _ (try_ok KeyError _ _ _ Ht)).
  rewrite (bind_ok _ _ _ _ _ (emit_logged _ _)).
  rewrite IH, !logged_logged. cbn [mbind list_bind].
  unfold sk_artifacts at 2. simpl. by rewrite Ht.
Qed.

(** X12.  The loop over the scenarios of one result, in both example
  scripts.  When the result has a table for every scenario of the
  scenario table, the loop returns after one call of [loadPlotting]
  followed by one [to_csv] per scenario, in the order of the table.  At
  the first scenario without table it raises [KeyError]: the scenarios
  before it are plotted and saved, [loadPlotting] has been called for
  this one, and nothing is done for those after it.  No table and no
  input is touched. *)
Theorem scenario_sink_plots_then_saves fig out county m r s :
(forall rows,
    Forall (fun rw : nat * row => is_Some (r !! rw.1)) rows ->
    MultiKey.scenario_sink fig out county m rows r s
    = (Ok tt,
       State (heap s) (stdin s)
             (trace s ++ (rows ≫= fun rw =>
                            mp_artifacts fig out county m r rw.1))) /\
    SingleKey.scenario_sink fig out county rows r s
    = (Ok tt,
       State (heap s) (stdin s)
             (trace s ++ (rows ≫= fun rw =>
                            sk_artifacts fig out county r rw.1)))) /\
(forall pre sc rw post,
    Forall (fun rw : nat * row => is_Some (r !! rw.1)) pre ->
    r !! sc = None ->
    MultiKey.scenario_sink fig out county m (pre ++ (sc, rw) :: post) r s
    = (Raise KeyError,
       State (heap s) (stdin s)
             (trace s
              ++ (pre ≫= fun rw => mp_artifacts fig out county m r rw.1)
              ++ [LoadPlotting r sc
                    (path_join fig
                       (MultiKey.artifact_name county m sc "png"))])) /\
    SingleKey.scenario_sink fig out county (pre ++ (sc, rw) :: post) r s
    = (Raise KeyError,
       State (heap s) (stdin s)
             (trace s
              ++ (pre ≫= fun rw => sk_artifacts fig out county r rw.1)
              ++ [LoadPlotting r sc
                    (path_join fig
                       (SingleKey.artifact_name county sc "png"))]))).
Proof.
split.
- intros rows Hall.
  by rewrite mp_scenario_sink_ok, sk_scenario_sink_ok.
- intros pre sc rw post Hall Hsc.
  by rewrite mp_scenario_sink_missing, sk_scenario_sink_missing.
Qed.

Lemma scenario_sink_plots_then_saves_sample :
let r : model_result :=
  <[0%nat := Demo.result_table "Albany"]>
    (<[1%nat := Demo.result_table "Albany"]> ∅) in
let s := Demo.start 40000 [] in
let rows := iterrows (Demo.scenario_table 40000 40000) in
let more := (2%nat, []) :: (3%nat, []) :: [] in
(MultiKey.scenario_sink "/fig" "/out" "New York" 12 rows r s
 = (Ok tt,
    State (heap s) (stdin s)
          (trace s ++ (rows ≫= fun rw =>
                         mp_artifacts "/fig" "/out" "New York" 12 r rw.1)))
 /\
 SingleKey.scenario_sink "/fig" "/out" "New York" rows r s
 = (Ok tt,
    State (heap s) (stdin s)
          (trace s ++ (rows ≫= fun rw =>
                         sk_artifacts "/fig" "/out" "New York" r rw.1)))) /\
(MultiKey.scenario_sink "/fig" "/out" "New York" 12 (rows ++ more) r s
 = (Raise KeyError,
    State (heap s) (stdin s)
          (trace s
           ++ (rows ≫= fun rw =>
                 mp_artifacts "/fig" "/out" "New York" 12 r rw.1)
           ++ [LoadPlotting r 2
                 (path_join "/fig"
                    (MultiKey.artifact_name "New York" 12 2 "png"))])) /\
 SingleKey.scenario_sink "/fig" "/out" "New York" (rows ++ more) r s
 = (Raise KeyError,
    State (heap s) (stdin s)
          (trace s
           ++ (rows ≫= fun rw =>
                 sk_artifacts "/fig" "/out" "New York" r rw.1)
           ++ [LoadPlotting r 2
                 (path_join "/fig"
                    (SingleKey.artifact_name "New York" 2 "png"))]))).
Proof.
intros r s rows more.
assert (Forall (fun rw : nat * row => is_Some (r !! rw.1)) rows) as Hrows.
{ apply (bool_decide_unpack _). by vm_compute. }
split.
- apply (proj1 (scenario_sink_plots_then_saves
                  "/fig" "/out" "New York" 12 r s) rows Hrows).
- apply (proj2 (scenario_sink_plots_then_saves
                  "/fig" "/out" "New York" 12 r s) rows 2%nat [] [(3%nat, [])]
               Hrows).
  by vm_compute.
Defined.

End ScriptEdges.

Section InOrderCompletion.
Import PyStr Interp Script.





End InOrderCompletion.

(* ===================================================================== *)
(** * The names of the artifacts *)
(* ===================================================================== *)

Section NameFacts.
Import PyStr Script.

Lemma all_chars_app p (a b : string) :
all_chars p (a +:+ b) = all_chars p a && all_chars p b.
Proof.
induction a as [|c a IH]; [done|]. rewrite app_cons. simpl.
by rewrite IH, andb_assoc.
Qed.

Lemma all_chars_impl (p q : ascii -> bool) s :
(forall c, p c = true -> q c = true) ->
all_chars p s = true -> all_chars q s = true.
Proof.
intros Hpq. induction s as [|c s IH]; [done|]. simpl.
rewrite !andb_true_iff. intros [Hc Hs]. auto.
Qed.

Lemma replace_app a b (x y : string) :
replace a b (x +:+ y) = replace a b x +:+ replace a b y.
Proof.
induction x as [|c x IH]; [done|]. rewrite app_cons. simpl.
by rewrite IH.
Qed.

Lemma replace_without a b s :
all_chars (fun c => negb (Ascii.eqb c a)) s = true -> replace a b s = s.
Proof.
induction s as [|c s IH]; [done|]. simpl. rewrite andb_true_iff.
intros [Hc Hs]. rewrite (IH Hs).
by destruct (Ascii.eqb c a).
Qed.

Lemma replace_removes a b s :
a <> b -> all_chars (fun c => negb (Ascii.eqb c a)) (replace a b s) = true.
Proof.
intros Hab. induction s as [|c s IH]; [done|]. simpl. rewrite IH, andb_true_r.
destruct (Ascii.eqb_spec c a) as [->|Hc].
- apply negb_true_iff, Ascii.eqb_neq. congruence.
- by apply negb_true_iff, Ascii.eqb_neq.
Qed.

Lemma append_assoc (x y z : string) : (x +:+ y) +:+ z = x +:+ y +:+ z.
Proof.
induction x as [|c x IH]; [done|]. by rewrite !app_cons, IH.
Qed.

Lemma app_inv_tail_string (x y z : string) : x +:+ z = y +:+ z -> x = y.
Proof.
revert y. induction x as [|c x IH]; intros [|d y] H.
- done.
- change (z = String d y +:+ z) in H.
  apply (f_equal len) in H. rewrite len_app in H.
  unfold len in H. simpl in H. lia.
- change (String c x +:+ z = z) in H.
  apply (f_equal len) in H. rewrite len_app in H.
  unfold len in H. simpl in H. lia.
- rewrite !app_cons in H. injection H as -> H. by rewrite (IH y H).
Qed.

Lemma pretty_N_char_digit x : is_digit (pretty_N_char x) = true.
Proof.
unfold pretty_N_char. by repeat case_match.
Qed.

Lemma pretty_N_go_digits x s :
all_chars is_digit s = true -> all_chars is_digit (pretty_N_go x s) = true.
Proof.
revert s. induction (N.lt_wf_0 x) as [x _ IH]; intros s Hs.
assert (x = 0 \/ 0 < x)%N as [->|Hx] by lia.
- by rewrite pretty_N_go_0.
- rewrite pretty_N_go_step by done. apply IH.
  + by apply N.div_lt.
  + simpl. by rewrite pretty_N_char_digit, Hs.
Qed.

(** [str(n)] is made of digits. *)
Lemma str_digits n : all_chars is_digit (str n) = true.
Proof.
unfold str, pretty, pretty_nat, pretty, pretty_N.
case_decide; [done|]. by apply pretty_N_go_digits.
Qed.

Lemma str_without a n :
is_digit a = false -> all_chars (fun c => negb (Ascii.eqb c a)) (str n) = true.
Proof.
intros Ha. apply (all_chars_impl is_digit); [|apply str_digits].
intros c Hc. apply negb_true_iff, Ascii.eqb_neq. congruence.
Qed.

Lemma str_nonempty n : str n <> "".
Proof.
unfold str, pretty, pretty_nat, pretty, pretty_N.
case_decide; [done|].
assert (forall x s, s <> "" -> pretty_N_go x s <> "") as help.
{ intros x. induction (N.lt_wf_0 x) as [x _ IH]; intros s Hs.
  assert (x = 0 \/ 0 < x)%N as [->|Hx] by lia.
  - by rewrite pretty_N_go_0.
  - rewrite pretty_N_go_step by done. apply IH; [by apply N.div_lt|done]. }
rewrite pretty_N_go_step by lia. by apply help.
Qed.

End NameFacts.

Section ArtifactNames.
Import PyStr Script.

Lemma path_join_same_head dir c (x y : string) :
path_join dir (String c x) = path_join dir (String c y) -> x = y.
Proof.
unfold path_join. destruct (Ascii.eqb_spec c "/") as [->|Hc].
- by intros [= ->].
- assert (forall z, match String c z with
                    | String "/" _ => String c z
                    | _ => match String.rev dir with
                           | EmptyString => String c z
                           | String "/" _ => dir +:+ String c z
                           | _ => dir +:+ "/" +:+ String c z
                           end
                    end
                    = match String.rev dir with
                      | EmptyString => String c z
                      | String "/" _ => dir +:+ String c z
                      | _ => dir +:+ "/" +:+ String c z
                      end) as E.
  { intros z. destruct c as [[] [] [] [] [] [] [] []]; done. }
  rewrite !E. destruct (String.rev dir) as [|d r].
  + by intros [= ->].
  + assert (forall p, p +:+ String c x = p +:+ String c y -> x = y) as Hp.
    { intros p H. by apply (inj (String.app p)) in H as [= ->]. }
    destruct (Ascii.eqb_spec d "/") as [->|Hd]; [apply Hp|].
    assert (forall z, match d with
                      | "/"%char => dir +:+ String c z
                      | _ => dir +:+ "/" +:+ String c z
                      end = dir +:+ "/" +:+ String c z) as E'.
    { intros z. destruct d as [[] [] [] [] [] [] [] []]; done. }
    rewrite !E'. intros H.
    apply (inj (String.app dir)) in H. by apply (Hp "/").
Qed.

(** A name with the number of the scenario in it: what comes before and
  after the number does not depend on it. *)
Lemma numbered_names_differ dir (before after : string) sc sc' :
sc <> sc' ->
path_join dir (replace " " "_" (before +:+ str sc +:+ after))
<> path_join dir (replace " " "_" (before +:+ str sc' +:+ after)).
Proof.
intros Hne H. apply Hne.
assert (forall n, replace " " "_" (before +:+ str n +:+ after)
                  = replace " " "_" before
                    +:+ str n +:+ replace " " "_" after) as E.
{ intros n. rewrite !replace_app.
  by rewrite (replace_without _ _ (str n)) by by apply str_without. }
rewrite !E in H. clear E.
assert (replace " " "_" before +:+ str sc +:+ replace " " "_" after
        = replace " " "_" before +:+ str sc' +:+ replace " " "_" after) as H'.
{ destruct (replace " " "_" before) as [|c x].
  - change ("" +:+ ?z) with z in *.
    destruct (str sc) as [|c x] eqn:E1; [by destruct (str_nonempty sc)|].
    destruct (str sc') as [|c' x'] eqn:E2; [by destruct (str_nonempty sc')|].
    rewrite !app_cons in *.
    destruct (decide (c = c')) as [->|Hc].
    + by rewrite (path_join_same_head _ _ _ _ H).
    + exfalso. revert H. unfold path_join.
      assert (is_digit c = true /\ is_digit c' = true) as [D1 D2].
      { pose proof (str_digits sc) as D1. pose proof (str_digits sc') as D2.
        rewrite E1 in D1. rewrite E2 in D2. simpl in D1, D2.
        by apply andb_true_iff in D1 as [-> _], D2 as [-> _]. }
      assert (forall d z, is_digit d = true ->
                match String d z with
                | String "/" _ => String d z
                | _ => match String.rev dir with
                       | EmptyString => String d z
                       | String "/" _ => dir +:+ String d z
                       | _ => dir +:+ "/" +:+ String d z
                       end
                end
                = match String.rev dir with
                  | EmptyString => String d z
                  | String "/" _ => dir +:+ String d z
                  | _ => dir +:+ "/" +:+ String d z
                  end) as E.
      { intros d z. destruct d as [[] [] [] [] [] [] [] []]; done. }
      rewrite !E by done. clear E.
      destruct (String.rev dir) as [|d r]; [by intros [= ->]|].
      assert (forall p, p +:+ String c (x +:+ replace " " "_" after)
                        <> p +:+ String c' (x' +:+ replace " " "_" after))
        as Hp.
      { intros p Hp. by apply (inj (String.app p)) in Hp as [= ->]. }
      destruct (Ascii.eqb_spec d "/") as [->|Hd]; [apply Hp|].
      assert (forall z, match d with
                        | "/"%char => dir +:+ z
                        | _ => dir +:+ "/" +:+ z
                        end = dir +:+ "/" +:+ z) as E'.
      { intros z. destruct d as [[] [] [] [] [] [] [] []]; done. }
      rewrite !E'. intros Hd'.
      apply (inj (String.app dir)) in Hd'. by apply (Hp "/") in Hd'.
  - rewrite !app_cons in *. by rewrite (path_join_same_head _ _ _ _ H). }
apply (inj (String.app _)) in H'. apply app_inv_tail_string in H'.
unfold str in H'. by apply (inj pretty) in H'.
Qed.

(** X14.  The artifacts of different scenarios of one county never share
  a file: in both example scripts the figure, and the table, of a
  scenario has a path of its own under whatever directory, and no file
  name contains a blank, whatever the name of the county. *)
Theorem scenarios_have_files_of_their_own dir county m sc sc' ext :
sc <> sc' ->
(path_join dir (MultiKey.artifact_name county m sc ext)
 <> path_join dir (MultiKey.artifact_name county m sc' ext) /\
 path_join dir (SingleKey.artifact_name county sc ext)
 <> path_join dir (SingleKey.artifact_name county sc' ext)) /\
all_chars not_blank (MultiKey.artifact_name county m sc ext) = true /\
all_chars not_blank (SingleKey.artifact_name county sc ext) = true.
Proof.
intros Hne. split; [split|split].
- unfold MultiKey.artifact_name.
  assert (forall n, county +:+ "_month" +:+ str m +:+ "_scen" +:+ str n
                    +:+ "_temp_gridLoad." +:+ ext
                    = (county +:+ "_month" +:+ str m +:+ "_scen")
                      +:+ str n +:+ ("_temp_gridLoad." +:+ ext)) as E.
  { intros n. by rewrite !append_assoc. }
  rewrite !E. by apply numbered_names_differ.
- unfold SingleKey.artifact_name.
  assert (forall n, county +:+ "_scen" +:+ str n
                    +:+ "_temp_gridLoad." +:+ ext
                    = (county +:+ "_scen")
                      +:+ str n +:+ ("_temp_gridLoad." +:+ ext)) as E.
  { intros n. by rewrite !append_assoc. }
  rewrite !E. by apply numbered_names_differ.
- by apply replace_removes.
- by apply replace_removes.
Qed.

Lemma scenarios_have_files_of_their_own_sample :
(path_join "/out" (MultiKey.artifact_name "New York" 12 0 "csv")
 <> path_join "/out" (MultiKey.artifact_name "New York" 12 1 "csv") /\
 path_join "/out" (SingleKey.artifact_name "New York" 0 "csv")
 <> path_join "/out" (SingleKey.artifact_name "New York" 1 "csv")) /\
all_chars not_blank (MultiKey.artifact_name "New York" 12 0 "csv") = true /\
all_chars not_blank (SingleKey.artifact_name "New York" 0 "csv") = true.
Proof.
apply (scenarios_have_files_of_their_own "/out" "New York" 12 0 1 "csv").
lia.
Defined.

End ArtifactNames.

(* ===================================================================== *)
(** * The download of the population tables *)
(* ===================================================================== *)

Section DownloadNames.
Import PyStr Script Download.

Lemma split_nonempty sep s : split sep s <> [].
Proof.
induction s as [|c s IH]; simpl; [done|].
destruct (Ascii.eqb c sep); [done|]. by destruct (split sep s).
Qed.

Lemma split_without sep s :
all_chars (fun c => negb (Ascii.eqb c sep)) s = true -> split sep s = [s].
Proof.
induction s as [|c s IH]; simpl; [done|]. rewrite andb_true_iff.
intros [Hc Hs]. apply negb_true_iff in Hc. by rewrite Hc, (IH Hs).
Qed.

Lemma split_app_sep sep (x y : string) :
exists f fs, split sep (x +:+ String sep y) = (f :: fs) ++ split sep y.
Proof.
induction x as [|c x (f & fs & IH)].
- change ("" +:+ String sep y) with (String sep y). simpl.
  rewrite Ascii.eqb_refl. by exists "", [].
- rewrite app_cons. simpl. rewrite IH. destruct (Ascii.eqb c sep).
  + by exists "", (f :: fs).
  + by exists (String c f), fs.
Qed.

(** The field after the last [=] of a url is the number of the county. *)
Lemma last_field_url base id : last_field (url_of base id) = str id.
Proof.
unfold last_field, url_of.
change ("+county=" +:+ str id) with ("+county" +:+ String "=" (str id)).
rewrite <-append_assoc.
destruct (split_app_sep "=" (base +:+ "+county") (str id)) as (f & fs & ->).
rewrite last_app, split_without by by apply str_without. done.
Qed.

Lemma file_of_url data_dir base id :
file_of data_dir (url_of base id) = path_join data_dir (str id +:+ ".xlsx").
Proof. unfold file_of. by rewrite last_field_url. Qed.

Lemma file_of_url_inj data_dir base id id' :
file_of data_dir (url_of base id) = file_of data_dir (url_of base id') ->
id = id'.
Proof.
rewrite !file_of_url. intros H.
destruct (decide (id = id')) as [|Hne]; [done|]. exfalso.
apply (numbered_names_differ data_dir "" ".xlsx" id id' Hne).
change ("" +:+ ?z) with z.
rewrite !replace_app, !(replace_without _ _ (str _)) by by apply str_without.
exact H.
Qed.

(** X15.  The file of a download is named after the number of its county:
  whatever the address of the site, [download_site] writes the table of
  the county [id] to [<id>.xlsx] in the data directory, and the tables
  of different counties go to different files. *)
Theorem download_file_per_county data_dir base id id' :
id <> id' ->
file_of data_dir (url_of base id) = path_join data_dir (str id +:+ ".xlsx") /\
file_of data_dir (url_of base id) <> file_of data_dir (url_of base id').
Proof.
intros Hne. split; [apply file_of_url|].
intros H. by apply file_of_url_inj in H.
Qed.

Lemma download_file_per_county_sample :
file_of "/home/user/Population_Data" (url_of base_url 1)
= path_join "/home/user/Population_Data" (str 1 +:+ ".xlsx") /\
file_of "/home/user/Population_Data" (url_of base_url 1)
<> file_of "/home/user/Population_Data" (url_of base_url 123).
Proof.
apply (download_file_per_county "/home/user/Population_Data" base_url 1 123).
lia.
Defined.

End DownloadNames.

Section DownloadSessions.
Import PyStr Script Download.
Context (fetch : string -> option string) (data_dir : string).

Lemma get_session_ok thread w :
sessions_ok w ->
sessions_ok (get_session thread w).2 /\
sessions (get_session thread w).2 !! thread
= Some (get_session thread w).1 /\
requests (get_session thread w).2 = requests w /\
files (get_session thread w).2 = files w /\
console (get_session thread w).2 = console w /\
dom (sessions (get_session thread w).2) ⊆ {[thread]} ∪ dom (sessions w).
Proof.
intros (Hinj & Hlt & Hsize & Hreq). unfold get_session.
destruct (sessions w !! thread) as [x|] eqn:E; simpl.
- repeat split; try done. apply union_subseteq_r.
- split; [|split; [by rewrite lookup_insert_eq|]].
  + split; [|split; [|split]]; simpl.
    * intros t t' x. rewrite !lookup_insert.
      repeat case_decide; subst; intros H1 H2; simplify_eq; try done.
      -- apply Hlt in H2. lia.
      -- apply Hlt in H1. lia.
      -- by eapply Hinj.
    * intros t x. rewrite lookup_insert.
      case_decide; intros H1; simplify_eq; [lia|].
      apply Hlt in H1. lia.
    * by rewrite map_size_insert_None, Hsize.
    * eapply Forall_impl; [exact Hreq|]. intros r Hr. simpl in *.
      rewrite lookup_insert_ne; [done|]. intros Heq. subst thread. congruence.
  + repeat split; try done. by rewrite dom_insert_L.
Qed.

Lemma download_site_ok thread url w :
sessions_ok w ->
sessions_ok (download_site fetch data_dir thread url w).2 /\
dom (sessions (download_site fetch data_dir thread url w).2)
  ⊆ {[thread]} ∪ dom (sessions w).
Proof.
intros Hw. unfold download_site.
destruct (get_session_ok thread w Hw) as (Hok & Hs & Hreq & _ & _ & Hdom).
destruct (get_session thread w) as [x w1]. simpl in *.
destruct Hok as (Hinj & Hlt & Hsize & Hall).
assert (sessions_ok
          (World (sessions w1) (created w1) (files w1)
                 (requests w1 ++ [Request thread x url]) (console w1)))
  as Hok.
{ repeat split; try done. simpl. apply Forall_app. split; [done|].
  by constructor. }
destruct (fetch url); simpl; [|done]. split; [|done].
destruct Hok as (? & ? & ? & ?). by repeat split.
Qed.

Lemma run_tasks_ok sched sites w :
sessions_ok w ->
sessions_ok (run_tasks fetch data_dir sched sites w) /\
dom (sessions (run_tasks fetch data_dir sched sites w))
  ⊆ list_to_set sched.*1 ∪ dom (sessions w).
Proof.
revert w. induction sched as [|[thread k] sched IH]; intros w Hw.
- simpl. split; [done|]. apply union_subseteq_r.
- cbn [run_tasks]. rewrite fmap_cons, list_to_set_cons. simpl.
  destruct (sites !! k) as [url|].
  + destruct (download_site_ok thread url w Hw) as (Hok & Hdom).
    destruct (IH _ Hok) as (Hok' & Hdom'). split; [done|].
    intros x Hx. apply Hdom', elem_of_union in Hx. rewrite !elem_of_union.
    destruct Hx as [Hx|Hx]; [by left; right|].
    apply Hdom, elem_of_union in Hx as [Hx|Hx]; [by left; left|by right].
  + destruct (IH _ Hw) as (Hok' & Hdom'). split; [done|].
    intros x Hx. apply Hdom', elem_of_union in Hx. rewrite !elem_of_union.
    destruct Hx as [Hx|Hx]; [by left; right|by right].
Qed.

(** X16.  Sessions are local to the threads of the pool.  Starting without
  session, whatever the sites and the order of the tasks: two requests
  are made with the same session exactly when the same thread makes
  them, there are as many sessions as [requests.Session()] was called,
  and with the tasks on the worker threads of the pool there are at
  most [max_workers] of them. *)
Theorem one_session_per_thread sched sites files0 console0 :
let w := download_all_sites fetch data_dir sched sites
           (World ∅ 0 files0 [] console0) in
(forall r1 r2, r1 ∈ requests w -> r2 ∈ requests w ->
   (r_session r1 = r_session r2 <-> r_thread r1 = r_thread r2)) /\
size (sessions w) = created w /\
(Forall (fun p => (p.1 < max_workers)%nat) sched ->
 (created w <= max_workers)%nat).
Proof.
intros w.
assert (sessions_ok (World ∅ 0 files0 [] console0)) as H0.
{ repeat split; try done; intros *; simpl; by rewrite lookup_empty. }
destruct (run_tasks_ok sched sites _ H0) as ((Hinj & Hlt & Hsize & Hall) & Hdom).
fold (download_all_sites fetch data_dir sched sites
        (World ∅ 0 files0 [] console0)) in *. fold w in Hinj, Hlt, Hsize, Hall, Hdom.
split; [|split; [done|]].
- intros r1 r2 H1 H2.
  pose proof (proj1 (Forall_forall _ _) Hall r1 H1) as E1.
  pose proof (proj1 (Forall_forall _ _) Hall r2 H2) as E2.
  simpl in E1, E2. split.
  + intros E. rewrite E in E1. by eapply Hinj.
  + intros E. rewrite E in E1. congruence.
- intros Hsched. rewrite <-Hsize, <-(size_dom (D:=gset nat)).
  etrans; [apply subseteq_size, Hdom|]. simpl.
  rewrite dom_empty_L, (right_id_L ∅ (∪)).
  etrans; [apply (subseteq_size _ (set_seq 0 max_workers))|].
  + intros t Ht. apply elem_of_list_to_set, list_elem_of_fmap in Ht
      as ([t' k] & -> & Hin).
    apply elem_of_set_seq. simpl.
    pose proof (proj1 (Forall_forall _ _) Hsched _ Hin). simpl in *. lia.
  + by rewrite size_set_seq.
Qed.

End DownloadSessions.

Section DownloadSessionsSample.
Import PyStr Script Download.

Lemma one_session_per_thread_sample :
let w := download_all_sites (fun _ => Some "table") "/data"
           [(3, 0); (1, 2); (3, 1)]%nat (take 3 urls)
           (World ∅ 0 ∅ [] []) in
(created w <= max_workers)%nat.
Proof.
intros w.
apply (proj2 (proj2 (one_session_per_thread (fun _ => Some "table") "/data"
                       [(3, 0); (1, 2); (3, 1)]%nat (take 3 urls) ∅ []))).
unfold max_workers. repeat constructor; simpl; lia.
Defined.

End DownloadSessionsSample.

Section DownloadFiles.
Import PyStr Script Download.
Context (fetch : string -> option string) (data_dir : string).

Lemma download_site_files thread url w :
files (download_site fetch data_dir thread url w).2
= match fetch url with
  | Some content => <[file_of data_dir url := content]> (files w)
  | None => files w
  end /\
console (download_site fetch data_dir thread url w).2 = console w.
Proof.
unfold download_site, get_session.
destruct (sessions w !! thread); simpl; by destruct (fetch url).
Qed.

(** A file that is not the file of a site is left alone. *)
Lemma run_tasks_other_files sched sites w p :
p ∉ file_of data_dir <$> sites ->
files (run_tasks fetch data_dir sched sites w) !! p = files w !! p.
Proof.
intros Hp. revert w. induction sched as [|[thread k] sched IH]; intros w;
  [done|].
cbn [run_tasks]. destruct (sites !! k) as [url|] eqn:E; [|apply IH].
rewrite IH. destruct (download_site_files thread url w) as [-> _].
destruct (fetch url); [|done]. apply lookup_insert_ne. intros <-.
apply Hp, list_elem_of_fmap. exists url. split; [done|].
by eapply list_elem_of_lookup_2.
Qed.

Lemma run_tasks_console sched sites w :
console (run_tasks fetch data_dir sched sites w) = console w.
Proof.
revert w. induction sched as [|[thread k] sched IH]; intros w; [done|].
cbn [run_tasks]. destruct (sites !! k) as [url|]; [|apply IH].
rewrite IH. apply download_site_files.
Qed.

(** The file of the site at the position [k], when the files of the
  sites are different. *)
Lemma run_tasks_file sched sites w k url :
NoDup (file_of data_dir <$> sites) ->
sites !! k = Some url ->
files (run_tasks fetch data_dir sched sites w) !! file_of data_dir url
= if bool_decide (k ∈ sched.*2)
  then match fetch url with
       | Some content => Some content
       | None => files w !! file_of data_dir url
       end
  else files w !! file_of data_dir url.
Proof.
intros Hnd Hk. revert w.
induction sched as [|[thread j] sched IH]; intros w; [done|].
cbn [run_tasks]. rewrite fmap_cons. simpl.
destruct (decide (j = k)) as [->|Hjk].
- rewrite Hk, IH. rewrite (bool_decide_eq_true_2 (k ∈ k :: _))
    by apply list_elem_of_here.
  destruct (download_site_files thread url w) as [-> _].
  destruct (fetch url) as [content|].
  + rewrite lookup_insert_eq. by case_bool_decide.
  + by case_bool_decide.
- assert (bool_decide (k ∈ j :: sched.*2) = bool_decide (k ∈ sched.*2)) as ->.
  { apply bool_decide_ext. rewrite elem_of_cons.
    split; [intros [Heq|?]; [by subst|done]|by right]. }
  destruct (sites !! j) as [url'|] eqn:Ej; [|apply IH].
  rewrite IH. destruct (download_site_files thread url' w) as [-> _].
  destruct (fetch url') as [content'|]; [|done].
  rewrite lookup_insert_ne; [done|]. intros Heq. apply Hjk.
  eapply NoDup_lookup; [exact Hnd|..];
    rewrite list_lookup_fmap; [by rewrite Ej; simpl; rewrite Heq
                              |by rewrite Hk].
Qed.

End DownloadFiles.

Section DownloadMain.
Import PyStr Script Download.

Lemma range_NoDup : NoDup (range 1 125 2).
Proof. apply (bool_decide_unpack _). by vm_compute. Qed.

Lemma urls_files_NoDup data_dir : NoDup (file_of data_dir <$> urls).
Proof.
unfold urls. rewrite <-list_fmap_compose.
apply NoDup_fmap_2_strong; [|apply range_NoDup].
intros id id' _ _ H. by apply file_of_url_inj in H.
Qed.

(** X17.  A download that fails goes unnoticed.  Whatever the order in
  which the pool runs the tasks, the script ends with the table of
  every county whose request was answered in the file of that county;
  for a county whose request raised, the file is as it was before the
  run, and no other file is touched.  The closing message counts the 62
  addresses, not the tables that arrived. *)
Theorem failed_downloads_go_unnoticed fetch cwd data_dir_exists sched w :
sched.*2 ≡ₚ seq 0 (length urls) ->
let data_dir := path_join cwd "Population_Data" in
let file id := path_join data_dir (str id +:+ ".xlsx") in
let after := main fetch cwd data_dir_exists sched w in
(forall id, id ∈ range 1 125 2 ->
   files after !! file id
   = match fetch (url_of base_url id) with
     | Some content => Some content
     | None => files w !! file id
     end) /\
(forall p, p ∉ file <$> range 1 125 2 -> files after !! p = files w !! p) /\
last (console after) = Some (Downloaded 62).
Proof.
intros Hsched data_dir file after.
assert (exists w0, files w0 = files w /\
          after = say (Downloaded (length urls))
                    (run_tasks fetch data_dir sched urls w0))
  as (w0 & Hw0 & ->).
{ unfold after, main, download_all_sites. fold data_dir.
  destruct data_dir_exists; (eexists; split; [|reflexivity]; done). }
split; [|split].
- intros id Hid. apply list_elem_of_lookup in Hid as [k Hk].
  assert (urls !! k = Some (url_of base_url id)) as Hurl.
  { unfold urls. by rewrite list_lookup_fmap, Hk. }
  unfold file. rewrite <-(file_of_url data_dir base_url id). simpl.
  rewrite (run_tasks_file fetch data_dir sched urls w0 k _
             (urls_files_NoDup data_dir) Hurl).
  rewrite bool_decide_eq_true_2, Hw0; [done|].
  rewrite Hsched. apply elem_of_seq. apply lookup_lt_Some in Hurl. lia.
- intros p Hp. simpl. rewrite run_tasks_other_files, Hw0; [done|].
  intros Hin. apply Hp. unfold urls in Hin.
  rewrite <-list_fmap_compose in Hin.
  apply list_elem_of_fmap in Hin as (id & -> & Hid).
  apply list_elem_of_fmap. exists id. split; [|done].
  apply file_of_url.
- simpl. by rewrite last_snoc.
Qed.

Lemma failed_downloads_go_unnoticed_sample :
let sched := (fun k => ((k mod 5)%nat, (61 - k)%nat)) <$> seq 0 62 in
let fetch (url : string) : option string := None in
let w := World ∅ 0 {[ "/home/user/Population_Data/1.xlsx" := "old" ]} [] [] in
let after := main fetch "/home/user" true sched w in
(forall id, id ∈ range 1 125 2 ->
   files after !! path_join (path_join "/home/user" "Population_Data")
                            (str id +:+ ".xlsx")
   = files w !! path_join (path_join "/home/user" "Population_Data")
                          (str id +:+ ".xlsx")) /\
last (console after) = Some (Downloaded 62).
Proof.
intros sched fetch w after.
assert (sched.*2 ≡ₚ seq 0 (length urls)) as Hsched.
{ apply (bool_decide_unpack _). by vm_compute. }
destruct (failed_downloads_go_unnoticed fetch "/home/user" true sched w
            Hsched) as (H1 & _ & H3).
split; [exact H1|exact H3].
Defined.

End DownloadMain.

(* ===================================================================== *)
(** * [county_run] on the tables that the script builds *)
(* ===================================================================== *)

Section BuiltTables.
Import PyStr PyDate Pandas Interp Script Assembly.
Local Open Scope float_scope.

Lemma mapM_to_datetime_stamps ts : mapM to_datetime (VStamp <$> ts) = Some ts.
Proof.
induction ts as [|t ts IH]; [done|]. rewrite fmap_cons. cbn [mapM].
by rewrite IH.
Qed.

Lemma built_county_input s temp_csv scenario_csv daily q temp_c :
heap s !! temp_csv = Some (temp_csv_of daily) ->
heap s !! scenario_csv = Some (scenario_csv_of (VNum q) temp_c) ->
temp_csv <> scenario_csv ->
county_input s temp_csv scenario_csv (temp_csv_of daily)
  (scenario_csv_of (VNum q) temp_c) daily.*1 daily.*2 [q; q]
  (completed_temp daily).
Proof.
intros Ht Hs Hne. constructor; try done.
exists (VStamp <$> daily.*1). split; [done|apply mapM_to_datetime_stamps].
Qed.

(** X18.  The tables that the script builds for a county are fit for
  [county_run], whatever the days, the temperatures and the number of
  vehicles [q] of the county.  If the external model answers with a
  table for each of the two scenarios, the call returns; it leaves the
  temperature table with the columns [date], [weekday] and [temp_c], and
  the scenario table as it was built but for the fleet size, which is
  corrected in both rows; and the two scenarios are scaled alike, by
  the factor of [q]: every cell of the six power columns is the double
  that the product of the cell and the factor rounds to (a factor 1
  leaves the cells as they are). *)
Theorem county_run_on_built_tables temp_run api_key county s
temp_csv scenario_csv daily q temp_c :
heap s !! temp_csv = Some (temp_csv_of daily) ->
heap s !! scenario_csv = Some (scenario_csv_of (VNum q) temp_c) ->
temp_csv <> scenario_csv ->
let s1 := scenario_csv_of (VNum (corrected_fleet q)) temp_c in
let raw := temp_run s1 (completed_temp daily) api_key (Some county) in
returns_tables raw 2 ->
exists res tr,
  MultiKey.county_run temp_run temp_csv scenario_csv api_key county s
  = (Ok res,
     State (<[scenario_csv := s1]>
              (<[temp_csv := completed_temp daily]> (heap s)))
           (stdin s) (trace s ++ tr)) /\
  forall k, (k < 2)%nat ->
    exists raw_k res_k,
      raw !! k = Some raw_k /\ res !! k = Some res_k /\
      forall c, c ∈ power_columns ->
        exists xs,
          getitem c raw_k = Some (VNum <$> xs) /\
          getitem c res_k = Some (VNum <$> scaled_by (scale_factor q) xs).
Proof.
intros Ht Hs Hne s1 raw Hraw.
pose proof (built_county_input s temp_csv scenario_csv daily q temp_c
              Ht Hs Hne) as Hin.
assert (corrected_scenarios [q; q] (scenario_csv_of (VNum q) temp_c) = s1)
  as Hs1 by done.
assert (returns_tables
          (temp_run (corrected_scenarios [q; q]
                       (scenario_csv_of (VNum q) temp_c))
                    (completed_temp daily) api_key (Some county))
          (len (scenario_csv_of (VNum q) temp_c))) as Hraw'.
{ by rewrite Hs1. }
destruct (county_run_total temp_run api_key county _ _ _ _ _ _ _ _ _
            Hin Hraw') as (res & tr & Hrun & _).
destruct (county_run_scaled temp_run api_key county _ _ _ _ _ _ _ _ _
            Hin Hraw') as (res' & s' & Hrun' & Hres).
rewrite Hrun in Hrun'. injection Hrun' as <- _.
exists res, tr. rewrite Hs1 in Hrun. split; [exact Hrun|].
intros k Hk. rewrite Hs1 in Hres. apply (Hres k q).
destruct k as [|[|k]]; [done|done|lia].
Qed.

Lemma county_run_on_built_tables_sample :
let daily := [(Timestamp (Date 2018 12 1) 0, Demo.num 2);
              (Timestamp (Date 2018 12 2) 0, Demo.num 4)] in
let q := Float64.of_Z 29999 in
let s := State (<[0%nat := temp_csv_of daily]>
                  (<[1%nat := scenario_csv_of (VNum q) (Demo.num 3)]> ∅))
               [] [] in
let s1 := scenario_csv_of (VNum (corrected_fleet q)) (Demo.num 3) in
let raw := Demo.temp_run s1 (completed_temp daily) Demo.key_A
             (Some "Albany") in
exists res tr,
  MultiKey.county_run Demo.temp_run 0 1 Demo.key_A "Albany" s
  = (Ok res,
     State (<[1%nat := s1]> (<[0%nat := completed_temp daily]> (heap s)))
           (stdin s) (trace s ++ tr)) /\
  forall k, (k < 2)%nat ->
    exists raw_k res_k,
      raw !! k = Some raw_k /\ res !! k = Some res_k /\
      forall c, c ∈ power_columns ->
        exists xs,
          getitem c raw_k = Some (VNum <$> xs) /\
          getitem c res_k = Some (VNum <$> scaled_by (scale_factor q) xs).
Proof.
intros daily q s s1 raw.
apply (county_run_on_built_tables Demo.temp_run Demo.key_A "Albany" s
         0%nat 1%nat daily q (Demo.num 3)).
- done.
- done.
- lia.
- by apply sample_returns_tables.
Defined.

End BuiltTables.

Section CountyNames.
Import PyStr Assembly.

Lemma split_first sep (x y : string) :
all_chars (fun c => negb (Ascii.eqb c sep)) x = true ->
split sep (x +:+ String sep y) = x :: split sep y.
Proof.
induction x as [|c x IH].
- intros _. change ("" +:+ String sep y) with (String sep y). simpl.
  by rewrite Ascii.eqb_refl.
- intros H. simpl in H. apply andb_true_iff in H as [Hc Hx].
  apply negb_true_iff in Hc.
  change (String c x +:+ String sep y) with (String c (x +:+ String sep y)).
  cbn [split]. by rewrite Hc, (IH Hx).
Qed.

(** X19.  The county of a column of the temperature file is the text
  between the first and the second comma of its head, without the white
  space around it; a head without comma makes the script raise
  [IndexError]. *)
Theorem county_of_column_head code name rest :
all_chars (fun c => negb (Ascii.eqb c ",")) code = true ->
all_chars (fun c => negb (Ascii.eqb c ",")) name = true ->
parse_county (code +:+ "," +:+ name) = Some (strip name) /\
parse_county (code +:+ "," +:+ name +:+ "," +:+ rest) = Some (strip name) /\
parse_county code = None.
Proof.
intros Hcode Hname. unfold parse_county.
change ("," +:+ name) with (String "," name).
change ("," +:+ name +:+ "," +:+ rest)
  with (String "," (name +:+ "," +:+ rest)).
split; [|split].
- by rewrite split_first, split_without.
- change ("," +:+ rest) with (String "," rest).
  by rewrite (split_first _ code), (split_first _ name).
- by rewrite split_without.
Qed.

Lemma county_of_column_head_sample :
parse_county ("G3600010" +:+ "," +:+ " Albany County")
= Some (strip " Albany County") /\
parse_county ("G3600010" +:+ "," +:+ " Albany County" +:+ "," +:+ " NY")
= Some (strip " Albany County") /\
parse_county "G3600010" = None.
Proof.
apply (county_of_column_head "G3600010" " Albany County" " NY");
  reflexivity.
Defined.

End CountyNames.
